(** * Reel pipeline: the event producer (app/api/generate/route.ts) and the
      stream consumer (the page component's handleGenerate)

    A shallow embedding of the two ends of the NDJSON protocol, followed by
    the properties of the specification checked against it.

    Conventions of the embedding.
    - A JavaScript string is the list of its UTF-16 code units ([jsstring]);
      [lit] turns a literal of this file (UTF-8) into that list.
    - A JavaScript [number] that the code only ever uses at integer values
      (seconds, indices) is a [Z]; the one place where the route multiplies by
      a fraction, [Math.floor(duration * pct)], is computed on binary64 floats.
      The [progress] literals of the route are binary64 floats as well.
    - A parsed JSON number is kept as the exact decimal it was written as.
    - State updates of the page (setX calls) are applied in program order to
      one record; exceptions are explicit results. *)

From Stdlib Require Import ZArith NArith List Ascii String Bool Lia Sorted.
From Stdlib Require Import Uint63 PrimFloat FloatOps SpecFloat.
From stdpp Require Import gmap.
Import ListNotations.

Set Warnings "-inexact-float,-register-all".

(* ===================================================================== *)
(** ** JavaScript values shared by both files *)
(* ===================================================================== *)

Module JS.

Definition code_unit := N.
Definition jsstring := list code_unit.

(** UTF-8 bytes of a literal to UTF-16 code units. *)
Fixpoint utf16_of_utf8 (bs : list N) : jsstring :=
  match bs with
  | [] => []
  | b :: r =>
    if (b <? 0x80)%N then b :: utf16_of_utf8 r
    else if (b <? 0xE0)%N then
      match r with
      | c1 :: r' =>
        N.lor (N.shiftl (N.land b 0x1F) 6) (N.land c1 0x3F) :: utf16_of_utf8 r'
      | _ => [0xFFFD%N]
      end
    else if (b <? 0xF0)%N then
      match r with
      | c1 :: c2 :: r' =>
        N.lor (N.shiftl (N.land b 0x0F) 12)
              (N.lor (N.shiftl (N.land c1 0x3F) 6) (N.land c2 0x3F))
          :: utf16_of_utf8 r'
      | _ => [0xFFFD%N]
      end
    else
      match r with
      | c1 :: c2 :: c3 :: r' =>
        let cp := N.lor (N.shiftl (N.land b 0x07) 18)
                    (N.lor (N.shiftl (N.land c1 0x3F) 12)
                       (N.lor (N.shiftl (N.land c2 0x3F) 6) (N.land c3 0x3F))) in
        let v := (cp - 0x10000)%N in
        (0xD800 + N.shiftr v 10)%N :: (0xDC00 + N.land v 0x3FF)%N :: utf16_of_utf8 r'
      | _ => [0xFFFD%N]
      end
  end.

Definition lit (s : string) : jsstring :=
  utf16_of_utf8 (List.map N_of_ascii (list_ascii_of_string s)).

(** The double quote, for JSON texts written in this file. *)
Definition dquote : jsstring := [34%N].
Definition quoted (s : string) : jsstring := dquote ++ lit s ++ dquote.

(** [Array.prototype.join] on strings. *)
Fixpoint join (sep : jsstring) (parts : list jsstring) : jsstring :=
  match parts with
  | [] => []
  | [p] => p
  | p :: rest => p ++ sep ++ join sep rest
  end.

(** WhiteSpace and LineTerminator code units (ECMAScript StrWhiteSpaceChar),
    the set stripped by [String.prototype.trim] and skipped by [parseInt]. *)
Definition isWhiteSpace (c : code_unit) : bool :=
  ((c =? 0x9) || (c =? 0xA) || (c =? 0xB) || (c =? 0xC) || (c =? 0xD)
   || (c =? 0x20) || (c =? 0xA0) || (c =? 0x1680)
   || ((0x2000 <=? c) && (c <=? 0x200A))
   || (c =? 0x2028) || (c =? 0x2029) || (c =? 0x202F) || (c =? 0x205F)
   || (c =? 0x3000) || (c =? 0xFEFF))%N.

Fixpoint trimStart (s : jsstring) : jsstring :=
  match s with
  | c :: r => if isWhiteSpace c then trimStart r else s
  | [] => []
  end.

Definition trim (s : jsstring) : jsstring :=
  rev (trimStart (rev (trimStart s))).

(** Truthiness of a string: the empty string is falsy. *)
Definition truthy (s : jsstring) : bool :=
  match s with [] => false | _ => true end.

(** Decimal digits of a non-negative integer, as a template literal prints an
    index; [S n] rounds are more than [n] has digits. *)
Fixpoint decimal_digits (fuel : nat) (n : N) (acc : jsstring) : jsstring :=
  match fuel with
  | O => acc
  | S fuel' =>
    let acc' := (48 + n mod 10)%N :: acc in
    if (n <? 10)%N then acc' else decimal_digits fuel' (n / 10)%N acc'
  end.

Definition string_of_nat (n : nat) : jsstring :=
  decimal_digits (S n) (N.of_nat n) [].

(** *** parseInt(string, 10) *)

Definition digit_value (c : code_unit) : option Z :=
  if ((48 <=? c) && (c <=? 57))%N then Some (Z.of_N c - 48)%Z else None.

Fixpoint digits_prefix (s : jsstring) : list Z :=
  match s with
  | c :: r =>
    match digit_value c with
    | Some d => d :: digits_prefix r
    | None => []
    end
  | [] => []
  end.

Definition mathInt (ds : list Z) : Z :=
  fold_left (fun acc d => acc * 10 + d)%Z ds 0%Z.

(** [None] is NaN. The integer is the exact one; the double [parseInt] returns
    is its rounding, which a clamp to small bounds cannot tell apart. *)
Definition parseInt10 (input : jsstring) : option Z :=
  let s := trimStart input in
  let '(sign, s) :=
    match s with
    | c :: r =>
      if (c =? 45)%N then ((-1)%Z, r)
      else if (c =? 43)%N then (1%Z, r)
      else (1%Z, s)
    | [] => (1%Z, s)
    end in
  match digits_prefix s with
  | [] => None
  | ds => Some (sign * mathInt ds)%Z
  end.

(** *** JSON values and JSON.parse *)

(** A JSON number as written: mantissa * 10 ^ exponent. *)
Record decimal := Decimal { mantissa : Z; exponent : Z }.

Inductive json :=
| JNull
| JBool (b : bool)
| JNum (d : decimal)
| JStr (s : jsstring)
| JArr (items : list json)
| JObj (members : list (jsstring * json)).

Definition jsstring_eqb (a b : jsstring) : bool := bool_decide (a = b).

(** Property read [v.k] or [v[k]] on a value produced by JSON.parse:
    [None] is [undefined]. With a repeated key the last member is the property.
    Primitives and arrays have none of the property names used here. *)
Fixpoint lookup_last (k : jsstring) (ms : list (jsstring * json)) (found : option json)
  : option json :=
  match ms with
  | [] => found
  | (k', v) :: rest =>
    lookup_last k rest (if jsstring_eqb k k' then Some v else found)
  end.

Definition get (k : jsstring) (v : json) : option json :=
  match v with
  | JObj ms => lookup_last k ms None
  | _ => None
  end.

Inductive token :=
| TLBrace | TRBrace | TLBracket | TRBracket | TColon | TComma
| TString (s : jsstring)
| TNumber (d : decimal)
| TTrue | TFalse | TNull.

(** Phases of the JSON number grammar: an optional minus sign; then a single
    zero, or a non-zero digit followed by any digits; then optionally a point
    with at least one digit; then optionally e or E, an optional sign and at
    least one digit. *)
Inductive num_phase :=
| NAfterMinus | NZero | NInt | NAfterDot | NFrac | NAfterE | NAfterESign | NExp.

Record num_state := NumState {
  n_phase : num_phase;
  n_neg : bool;
  n_digits : Z;      (* integer and fraction digits read so far, as one integer *)
  n_fraclen : Z;     (* how many of them came after the point *)
  n_expneg : bool;
  n_exp : Z
}.

Inductive lex_mode :=
| LDefault
| LString (rev_chars : jsstring)
| LEscape (rev_chars : jsstring)
| LUnicode (rev_chars : jsstring) (hex : list N)
| LLiteral (expected : jsstring) (t : token)
| LNumber (ns : num_state).

Definition hex_value (c : code_unit) : option N :=
  if ((48 <=? c) && (c <=? 57))%N then Some (c - 48)%N
  else if ((65 <=? c) && (c <=? 70))%N then Some (c - 55)%N
  else if ((97 <=? c) && (c <=? 102))%N then Some (c - 87)%N
  else None.

Definition isJsonWhiteSpace (c : code_unit) : bool :=
  ((c =? 0x9) || (c =? 0xA) || (c =? 0xD) || (c =? 0x20))%N.

Definition num_start (neg : bool) (ph : num_phase) (d : Z) : num_state :=
  NumState ph neg d 0 false 0.

(** One code unit read outside any token. *)
Definition lex_default (c : code_unit) : option (lex_mode * list token) :=
  if isJsonWhiteSpace c then Some (LDefault, [])
  else if (c =? 123)%N then Some (LDefault, [TLBrace])
  else if (c =? 125)%N then Some (LDefault, [TRBrace])
  else if (c =? 91)%N then Some (LDefault, [TLBracket])
  else if (c =? 93)%N then Some (LDefault, [TRBracket])
  else if (c =? 58)%N then Some (LDefault, [TColon])
  else if (c =? 44)%N then Some (LDefault, [TComma])
  else if (c =? 34)%N then Some (LString [], [])
  else if (c =? 116)%N then Some (LLiteral (lit "rue") TTrue, [])
  else if (c =? 102)%N then Some (LLiteral (lit "alse") TFalse, [])
  else if (c =? 110)%N then Some (LLiteral (lit "ull") TNull, [])
  else if (c =? 45)%N then Some (LNumber (num_start true NAfterMinus 0), [])
  else if (c =? 48)%N then Some (LNumber (num_start false NZero 0), [])
  else match digit_value c with
       | Some d => Some (LNumber (num_start false NInt d), [])
       | None => None
       end.

Definition num_token (ns : num_state) : option token :=
  match n_phase ns with
  | NZero | NInt | NFrac | NExp =>
    let m := if n_neg ns then (- n_digits ns)%Z else n_digits ns in
    let e := if n_expneg ns then (- n_exp ns)%Z else n_exp ns in
    Some (TNumber (Decimal m (e - n_fraclen ns)))
  | _ => None
  end.

Definition with_phase (ns : num_state) (ph : num_phase) : num_state :=
  NumState ph (n_neg ns) (n_digits ns) (n_fraclen ns) (n_expneg ns) (n_exp ns).

(** One code unit read inside a number: [Some (inl ns')] continues the number,
    [Some (inr tt)] says the number ended before [c], [None] is a syntax error. *)
Definition lex_number (ns : num_state) (c : code_unit) : option (num_state + unit) :=
  let digit := digit_value c in
  let is_dot := (c =? 46)%N in
  let is_e := ((c =? 101) || (c =? 69))%N in
  let push_int d :=
    NumState NInt (n_neg ns) (n_digits ns * 10 + d) 0 false 0 in
  let push_frac d :=
    NumState NFrac (n_neg ns) (n_digits ns * 10 + d) (n_fraclen ns + 1) false 0 in
  let push_exp d :=
    NumState NExp (n_neg ns) (n_digits ns) (n_fraclen ns) (n_expneg ns)
             (n_exp ns * 10 + d) in
  match n_phase ns with
  | NAfterMinus =>
    match digit with
    | Some d => Some (inl (if (d =? 0)%Z then with_phase ns NZero else push_int d))
    | None => None
    end
  | NZero =>
    if is_dot then Some (inl (with_phase ns NAfterDot))
    else if is_e then Some (inl (with_phase ns NAfterE))
    else Some (inr tt)
  | NInt =>
    match digit with
    | Some d => Some (inl (push_int d))
    | None =>
      if is_dot then Some (inl (with_phase ns NAfterDot))
      else if is_e then Some (inl (with_phase ns NAfterE))
      else Some (inr tt)
    end
  | NAfterDot =>
    match digit with
    | Some d => Some (inl (push_frac d))
    | None => None
    end
  | NFrac =>
    match digit with
    | Some d => Some (inl (push_frac d))
    | None => if is_e then Some (inl (with_phase ns NAfterE)) else Some (inr tt)
    end
  | NAfterE =>
    match digit with
    | Some d => Some (inl (push_exp d))
    | None =>
      if (c =? 43)%N then Some (inl (with_phase ns NAfterESign))
      else if (c =? 45)%N then
        Some (inl (NumState NAfterESign (n_neg ns) (n_digits ns) (n_fraclen ns) true 0))
      else None
    end
  | NAfterESign =>
    match digit with
    | Some d => Some (inl (push_exp d))
    | None => None
    end
  | NExp =>
    match digit with
    | Some d => Some (inl (push_exp d))
    | None => Some (inr tt)
    end
  end.

Definition escape_value (c : code_unit) : option code_unit :=
  if (c =? 34)%N then Some 34%N
  else if (c =? 92)%N then Some 92%N
  else if (c =? 47)%N then Some 47%N
  else if (c =? 98)%N then Some 8%N
  else if (c =? 102)%N then Some 12%N
  else if (c =? 110)%N then Some 10%N
  else if (c =? 114)%N then Some 13%N
  else if (c =? 116)%N then Some 9%N
  else None.

Definition lex_step (m : lex_mode) (c : code_unit) : option (lex_mode * list token) :=
  match m with
  | LDefault => lex_default c
  | LString acc =>
    if (c =? 34)%N then Some (LDefault, [TString (rev acc)])
    else if (c =? 92)%N then Some (LEscape acc, [])
    else if (c <? 0x20)%N then None
    else Some (LString (c :: acc), [])
  | LEscape acc =>
    if (c =? 117)%N then Some (LUnicode acc [], [])
    else match escape_value c with
         | Some v => Some (LString (v :: acc), [])
         | None => None
         end
  | LUnicode acc hex =>
    match hex_value c with
    | None => None
    | Some h =>
      match hex with
      | [h1; h2; h3] =>
        Some (LString ((((h1 * 16 + h2) * 16 + h3) * 16 + h)%N :: acc), [])
      | _ => Some (LUnicode acc (hex ++ [h]), [])
      end
    end
  | LLiteral expected t =>
    match expected with
    | [] => None
    | [e] => if (c =? e)%N then Some (LDefault, [t]) else None
    | e :: rest => if (c =? e)%N then Some (LLiteral rest t, []) else None
    end
  | LNumber ns =>
    match lex_number ns c with
    | None => None
    | Some (inl ns') => Some (LNumber ns', [])
    | Some (inr _) =>
      match num_token ns, lex_default c with
      | Some t, Some (m', ts) => Some (m', t :: ts)
      | _, _ => None
      end
    end
  end.

Fixpoint lex (m : lex_mode) (s : jsstring) : option (list token) :=
  match s with
  | [] =>
    match m with
    | LDefault => Some []
    | LNumber ns => option_map (fun t => [t]) (num_token ns)
    | _ => None
    end
  | c :: r =>
    match lex_step m c with
    | None => None
    | Some (m', ts) => option_map (app ts) (lex m' r)
    end
  end.

(** The parser is a pushdown automaton over the tokens. *)
Inductive frame :=
| FArr (rev_items : list json)
| FObj (rev_members : list (jsstring * json)) (key : option jsstring).

Inductive parse_state :=
| PValue      (* a value must follow *)
| PArrFirst   (* just after [: a value or ] *)
| PObjFirst   (* just after {: a key or } *)
| PObjKey     (* after a comma in an object: a key *)
| PColon      (* after a key: a colon *)
| PAfter      (* after a value inside an array or object *)
| PDone (v : json).

(** A finished value goes to the enclosing array or object, or is the result. *)
Definition reduce (v : json) (stack : list frame) : option (parse_state * list frame) :=
  match stack with
  | [] => Some (PDone v, [])
  | FArr items :: rest => Some (PAfter, FArr (v :: items) :: rest)
  | FObj ms (Some k) :: rest => Some (PAfter, FObj ((k, v) :: ms) None :: rest)
  | FObj _ None :: _ => None
  end.

Definition parse_value_token (t : token) (stack : list frame)
  : option (parse_state * list frame) :=
  match t with
  | TLBrace => Some (PObjFirst, FObj [] None :: stack)
  | TLBracket => Some (PArrFirst, FArr [] :: stack)
  | TString s => reduce (JStr s) stack
  | TNumber d => reduce (JNum d) stack
  | TTrue => reduce (JBool true) stack
  | TFalse => reduce (JBool false) stack
  | TNull => reduce JNull stack
  | TRBrace | TRBracket | TColon | TComma => None
  end.

Definition close_array (stack : list frame) : option (parse_state * list frame) :=
  match stack with
  | FArr items :: rest => reduce (JArr (rev items)) rest
  | _ => None
  end.

Definition close_object (stack : list frame) : option (parse_state * list frame) :=
  match stack with
  | FObj ms None :: rest => reduce (JObj (rev ms)) rest
  | _ => None
  end.

Definition set_key (k : jsstring) (stack : list frame) : option (parse_state * list frame) :=
  match stack with
  | FObj ms None :: rest => Some (PColon, FObj ms (Some k) :: rest)
  | _ => None
  end.

Definition parse_step (st : parse_state) (stack : list frame) (t : token)
  : option (parse_state * list frame) :=
  match st with
  | PValue => parse_value_token t stack
  | PArrFirst =>
    match t with
    | TRBracket => close_array stack
    | _ => parse_value_token t stack
    end
  | PObjFirst =>
    match t with
    | TRBrace => close_object stack
    | TString k => set_key k stack
    | _ => None
    end
  | PObjKey =>
    match t with
    | TString k => set_key k stack
    | _ => None
    end
  | PColon =>
    match t with
    | TColon => Some (PValue, stack)
    | _ => None
    end
  | PAfter =>
    match t, stack with
    | TComma, FArr _ :: _ => Some (PValue, stack)
    | TComma, FObj _ None :: _ => Some (PObjKey, stack)
    | TRBracket, _ => close_array stack
    | TRBrace, _ => close_object stack
    | _, _ => None
    end
  | PDone _ => None
  end.

Fixpoint parse_tokens (st : parse_state) (stack : list frame) (ts : list token)
  : option json :=
  match ts with
  | [] => match st with PDone v => Some v | _ => None end
  | t :: rest =>
    match parse_step st stack t with
    | Some (st', stack') => parse_tokens st' stack' rest
    | None => None
    end
  end.

(** [JSON.parse(text)]: [None] is a thrown SyntaxError. *)
Definition JSON_parse (text : jsstring) : option json :=
  match lex LDefault text with
  | Some ts => parse_tokens PValue [] ts
  | None => None
  end.

End JS.

(* ===================================================================== *)
(** ** The event producer: app/api/generate/route.ts *)
(* ===================================================================== *)

Module Route.
Import JS.

(** The payload type inferred from [ReelRequestSchema]. *)
Module Brief.
Record t := Make {
  topic : jsstring;
  platform : jsstring;
  tone : jsstring;
  length : jsstring;
  voice : jsstring;
  callToAction : option jsstring;
  audience : jsstring;
  autopilot : bool;
  brandColor : option jsstring
}.
End Brief.

(** *** zod: the parts of the schema language the route uses *)

Inductive zod_issue :=
| invalid_type (path : jsstring)   (* missing, or of another type *)
| too_small (path : jsstring).     (* a string below its minimum length *)

Definition zod_result (A : Type) : Type := (zod_issue + A)%type.

(** [z.string()] *)
Definition z_string (path : jsstring) (v : option json) : zod_result jsstring :=
  match v with
  | Some (JStr s) => inr s
  | _ => inl (invalid_type path)
  end.

(** [z.string().min(n)]: the length check counts code units. *)
Definition z_string_min (n : nat) (path : jsstring) (v : option json)
  : zod_result jsstring :=
  match z_string path v with
  | inr s => if (Datatypes.length s <? n)%nat then inl (too_small path) else inr s
  | inl i => inl i
  end.

(** [z.boolean()] *)
Definition z_boolean (path : jsstring) (v : option json) : zod_result bool :=
  match v with
  | Some (JBool b) => inr b
  | _ => inl (invalid_type path)
  end.

(** [schema.default(d)]: only [undefined] takes the default. *)
Definition z_default {A} (d : A) (inner : jsstring -> option json -> zod_result A)
    (path : jsstring) (v : option json) : zod_result A :=
  match v with
  | None => inr d
  | Some _ => inner path v
  end.

(** [schema.optional()] *)
Definition z_optional {A} (inner : jsstring -> option json -> zod_result A)
    (path : jsstring) (v : option json) : zod_result (option A) :=
  match v with
  | None => inr None
  | Some _ =>
    match inner path v with
    | inr a => inr (Some a)
    | inl i => inl i
    end
  end.

Definition issues_of {A} (r : zod_result A) : list zod_issue :=
  match r with
  | inl i => [i]
  | inr _ => []
  end.

(** One key of a [z.object] shape: the schema of the key applied to the
    property of the input. *)
Definition field {A} (input : json) (k : string)
    (schema : jsstring -> option json -> zod_result A) : zod_result A :=
  schema (lit k) (get (lit k) input).

(** [ReelRequestSchema.parse(json)]: [inl] is the thrown ZodError with the
    issues of every field; unknown keys of the input are stripped. *)
Definition ReelRequestSchema_parse (input : json) : list zod_issue + Brief.t :=
  match input with
  | JObj _ =>
    let topic := field input "topic" (z_string_min 3) in
    let platform := field input "platform" (z_default (lit "instagram") z_string) in
    let tone := field input "tone" (z_default (lit "cinematic") z_string) in
    let length := field input "length" (z_default (lit "30") z_string) in
    let voice := field input "voice" (z_default (lit "warm") z_string) in
    let callToAction := field input "callToAction" (z_optional z_string) in
    let audience := field input "audience" (z_default (lit "general") z_string) in
    let autopilot := field input "autopilot" (z_default true z_boolean) in
    let brandColor := field input "brandColor" (z_optional z_string) in
    match topic, platform, tone, length, voice, callToAction, audience,
          autopilot, brandColor with
    | inr a, inr b, inr c, inr d, inr e, inr f, inr g, inr h, inr i =>
      inr (Brief.Make a b c d e f g h i)
    | _, _, _, _, _, _, _, _, _ =>
      inl (issues_of topic ++ issues_of platform ++ issues_of tone
           ++ issues_of length ++ issues_of voice ++ issues_of callToAction
           ++ issues_of audience ++ issues_of autopilot ++ issues_of brandColor)
    end
  | _ => inl [invalid_type []]
  end.

(** *** Numbers *)

(** The double nearest to an integer. *)
Definition Number_of_Z (z : Z) : float :=
  SF2Prim (binary_normalize prec emax z 0 false).

(** [Math.floor] of a finite double, as an integer ([None]: NaN or infinite). *)
Definition Math_floor (x : float) : option Z :=
  match Prim2SF x with
  | S754_zero _ => Some 0%Z
  | S754_finite s m e =>
    let sm := if s then Z.neg m else Z.pos m in
    Some (if (0 <=? e)%Z then sm * 2 ^ e else sm / 2 ^ (- e))%Z
  | S754_infinity _ | S754_nan => None
  end.

(** *** Events as the route builds them *)

Module Segment.
Record t := Make {
  id : jsstring;
  label : jsstring;
  start : Z;
  duration : Z;
  description : jsstring
}.
End Segment.

Module Status.
Record t := Make {
  id : jsstring;
  stage : jsstring;
  agent : jsstring;
  detail : jsstring;
  progress : float;
  eta : Z
}.
End Status.

Module Asset.
Record t := Make {
  id : jsstring;
  artifact : jsstring;
  title : jsstring;
  content : jsstring;
  progress : float;
  agent : jsstring
}.
End Asset.

Module Timeline.
Record t := Make {
  id : jsstring;
  segments : list Segment.t;
  progress : float;
  agent : jsstring
}.
End Timeline.

Module Deliverables.
Record t := Make {
  topic : jsstring;
  platform : jsstring;
  duration : Z;
  callToAction : option jsstring;
  script : jsstring;
  overlays : jsstring;
  segments : list Segment.t;
  voicePlan : jsstring
}.
End Deliverables.

Module Result.
Record t := Make {
  id : jsstring;
  agent : jsstring;
  progress : float;
  deliverables : Deliverables.t
}.
End Result.

(** An element of [eventSequence]; its [type] field is the constructor. *)
Inductive event :=
| status (e : Status.t)
| asset (e : Asset.t)
| timeline (e : Timeline.t)
| result (e : Result.t).

Definition event_type (e : event) : jsstring :=
  match e with
  | status _ => lit "status"
  | asset _ => lit "asset"
  | timeline _ => lit "timeline"
  | result _ => lit "result"
  end.

Definition event_progress (e : event) : float :=
  match e with
  | status s => Status.progress s
  | asset a => Asset.progress a
  | timeline t => Timeline.progress t
  | result r => Result.progress r
  end.

(** *** The builders *)

Definition nth_or {A} (l : list A) (index : nat) (fallback : A) : A :=
  match nth_error l index with
  | Some a => a
  | None => fallback
  end.

Definition getLabel (index : nat) : jsstring :=
  nth_or [lit "Hook"; lit "Pain Point"; lit "Transformation"; lit "Proof"; lit "CTA"]
         index (lit "Beat " ++ string_of_nat (index + 1)).

Definition getDescription (index : nat) (topic tone platform : jsstring) : jsstring :=
  let templates := [
    lit "Open with an arresting motion graphic that telegraphs the promise around "
      ++ topic ++ lit ".";
    lit "Amplify the audience problem with kinetic captions tailored for "
      ++ platform ++ lit ".";
    lit "Reveal the transformation anchored by " ++ topic ++ lit " using "
      ++ tone ++ lit " pacing.";
    lit "Show tactile proof clips with split-screen receipts and animated UI.";
    lit "Deliver the CTA with punchy supers and looping background energy."
  ] in
  nth_or templates index (lit "Drive momentum into the next beat.").

Definition beatPercents : list float := [0.18; 0.24; 0.2; 0.2; 0.18]%float.

(** [Math.floor(duration * pct)]. At the only call [duration] is the target
    duration, an integer of 15..120; the product is finite there and the
    [None] branch is not reached. *)
Definition floor_of_product (duration : Z) (pct : float) : Z :=
  match Math_floor (PrimFloat.mul (Number_of_Z duration) pct) with
  | Some n => n
  | None => 0%Z
  end.

(** The callback of [beatPercents.map], with the captured [cursor] threaded
    through: [pcts] are the beats from [index] on, [len] is
    [beatPercents.length]. *)
Fixpoint buildTimeline_map (topic : jsstring) (duration : Z) (tone platform : jsstring)
    (len index : nat) (cursor : Z) (pcts : list float) : list Segment.t :=
  match pcts with
  | [] => []
  | pct :: rest =>
    let isLast := (index =? len - 1)%nat in
    let segmentDuration :=
      if isLast then Z.max (duration - cursor) 3
      else Z.max 3 (floor_of_product duration pct) in
    let segmentDuration :=
      if negb isLast && (duration <=? cursor + segmentDuration)%Z
      then Z.max 3 (duration - cursor - 3)
      else segmentDuration in
    let segment := {|
      Segment.id := lit "segment-" ++ string_of_nat (index + 1);
      Segment.label := getLabel index;
      Segment.start := cursor;
      Segment.duration := segmentDuration;
      Segment.description := getDescription index topic tone platform
    |} in
    segment
      :: buildTimeline_map topic duration tone platform len (S index)
           (cursor + segmentDuration) rest
  end.

Definition buildTimeline (topic : jsstring) (duration : Z) (tone platform : jsstring)
  : list Segment.t :=
  buildTimeline_map topic duration tone platform
    (Datatypes.length beatPercents) 0 0%Z beatPercents.

Definition or_else {A} (v : option A) (fallback : A) : A :=
  match v with
  | Some a => a
  | None => fallback
  end.

Definition newline : jsstring := [10%N].

Definition buildScript (topic tone audience : jsstring) (callToAction : option jsstring)
  : jsstring :=
  let cta := or_else callToAction (lit "Tap to explore " ++ topic ++ lit " today.") in
  join (newline ++ newline) [
    lit "HOOK: Imagine " ++ audience ++ lit " witnessing " ++ topic
      ++ lit " unfold in under 30 seconds.";
    lit "PAIN: You're losing attention within the first 2 seconds — that ends now.";
    lit "TRANSFORMATION: We stack motion, color, and story into a " ++ tone
      ++ lit " reel that auto-adapts in real time.";
    lit "PROOF: Live data visuals, testimonial flashes, and hero product macros keep retention high.";
    lit "CTA: " ++ cta
  ].

Definition buildOverlayPlan (topic platform : jsstring) (brandColor : option jsstring)
  : jsstring :=
  join newline [
    lit "• Gradient wash using " ++ or_else brandColor (lit "#7f5af0")
      ++ lit " to match " ++ platform ++ lit " chroma.";
    lit "• Dynamic caption blocks driven by speech-to-text latency under 80ms.";
    lit "• Sidecar frame featuring live metrics relevant to " ++ topic ++ lit ".";
    lit "• End-frame sticker with adaptive sizing for vertical safe zones."
  ].

Definition buildVoicePlan (voice tone audience : jsstring) : jsstring :=
  join newline [
    lit "• Register: " ++ voice ++ lit " with " ++ tone ++ lit " pacing.";
    lit "• Inflections target " ++ audience
      ++ lit " attention spikes on seconds 0-3, 12, and 22.";
    lit "• Breath map inserted to sync with beat-based cut rhythm.";
    lit "• Dual-track render for automatic ducking under SFX beds."
  ].

(** *** POST *)

Definition targetDuration (payload : Brief.t) : Z :=
  match parseInt10 (Brief.length payload) with
  | None => 45%Z
  | Some numeric => Z.min (Z.max numeric 15) 120
  end.

Definition eventSequence (payload : Brief.t) : list event :=
  let topic := Brief.topic payload in
  let platform := Brief.platform payload in
  let tone := Brief.tone payload in
  let voice := Brief.voice payload in
  let callToAction := Brief.callToAction payload in
  let audience := Brief.audience payload in
  let brandColor := Brief.brandColor payload in
  let segments := buildTimeline topic (targetDuration payload) tone platform in
  let script := buildScript topic tone audience callToAction in
  let overlays := buildOverlayPlan topic platform brandColor in
  let voicePlan := buildVoicePlan voice tone audience in
  [ status {|
      Status.id := lit "briefing";
      Status.stage := lit "Creative Brief Intake";
      Status.agent := lit "Director AI";
      Status.detail :=
        lit "Synced on goal-driven narrative for " ++ platform ++ lit " reels.";
      Status.progress := 0.08;
      Status.eta := 90 |};
    status {|
      Status.id := lit "ideation";
      Status.stage := lit "Narrative Engine";
      Status.agent := lit "StoryCrafter";
      Status.detail :=
        lit "Drafting multi-beat storyline themed around “" ++ topic ++ lit "”.";
      Status.progress := 0.24;
      Status.eta := 75 |};
    asset {|
      Asset.id := lit "script";
      Asset.artifact := lit "script";
      Asset.title := lit "AI Script Draft v1";
      Asset.content := script;
      Asset.progress := 0.42;
      Asset.agent := lit "StoryCrafter" |};
    status {|
      Status.id := lit "shotlist";
      Status.stage := lit "Visual Sequencer";
      Status.agent := lit "VisionGrid";
      Status.detail := lit "Mapping hero shots, transitions, and overlays for pacing.";
      Status.progress := 0.58;
      Status.eta := 60 |};
    timeline {|
      Timeline.id := lit "timeline";
      Timeline.segments := segments;
      Timeline.progress := 0.7;
      Timeline.agent := lit "VisionGrid" |};
    status {|
      Status.id := lit "voice";
      Status.stage := lit "Voice Design";
      Status.agent := lit "EchoSynth";
      Status.detail :=
        lit "Modeling " ++ voice ++ lit " vocal profile with " ++ tone ++ lit " energy.";
      Status.progress := 0.82;
      Status.eta := 45 |};
    asset {|
      Asset.id := lit "voice-plan";
      Asset.artifact := lit "voicePlan";
      Asset.title := lit "Voiceover Production Map";
      Asset.content := voicePlan;
      Asset.progress := 0.9;
      Asset.agent := lit "EchoSynth" |};
    asset {|
      Asset.id := lit "overlay-plan";
      Asset.artifact := lit "overlays";
      Asset.title := lit "On-screen Overlay Strategy";
      Asset.content := overlays;
      Asset.progress := 0.94;
      Asset.agent := lit "VisionGrid" |};
    status {|
      Status.id := lit "render";
      Status.stage := lit "Real-Time Render Orchestration";
      Status.agent := lit "PipelineOps";
      Status.detail := lit "Coordinating camera moves, audio mix, and color matrix.";
      Status.progress := 0.98;
      Status.eta := 20 |};
    result {|
      Result.id := lit "delivery";
      Result.agent := lit "Director AI";
      Result.progress := 1;
      Result.deliverables := {|
        Deliverables.topic := topic;
        Deliverables.platform := platform;
        Deliverables.duration := targetDuration payload;
        Deliverables.callToAction := callToAction;
        Deliverables.script := script;
        Deliverables.overlays := overlays;
        Deliverables.segments := segments;
        Deliverables.voicePlan := voicePlan |} |}
  ].

(** What the catch block reports in [details]. *)
Inductive rejection :=
| body_not_json                       (* request.json() threw *)
| schema_issues (issues : list zod_issue).

(** The response: either the 400 JSON body, or the 200 stream. The stream is
    given by the events the [start] callback enqueues, in order, each as one
    line [JSON.stringify(event)] followed by a newline. *)
Inductive response :=
| Response400 (error : jsstring) (details : rejection)
| Response200 (headers : list (jsstring * jsstring)) (enqueued : list event).

Definition status_code (r : response) : Z :=
  match r with
  | Response400 _ _ => 400
  | Response200 _ _ => 200
  end.

Definition bad_request (why : rejection) : response :=
  Response400 (lit "Invalid request payload") why.

(** [body] is the text [request.json()] parses. *)
Definition POST (body : jsstring) : response :=
  match JSON_parse body with
  | None => bad_request body_not_json
  | Some json =>
    match ReelRequestSchema_parse json with
    | inl issues => bad_request (schema_issues issues)
    | inr payload =>
      Response200
        [ (lit "Content-Type", lit "application/x-ndjson");
          (lit "Cache-Control", lit "no-cache");
          (lit "Connection", lit "keep-alive");
          (lit "Transfer-Encoding", lit "chunked") ]
        (eventSequence payload)
    end
  end.

End Route.

(* ===================================================================== *)
(** ** The stream consumer: handleGenerate of the page component *)
(* ===================================================================== *)

Module Page.
Import JS.

(** The value of the [progress] state. A number read from a JSON line is kept
    as its exact decimal; the double the page holds is its rounding, and
    rounding preserves the order [Math.max] decides by. *)
Inductive number :=
| Num (d : decimal)
| NaN.

Definition decimal_leb (a b : decimal) : bool :=
  let e := Z.min (exponent a) (exponent b) in
  (mantissa a * 10 ^ (exponent a - e) <=? mantissa b * 10 ^ (exponent b - e))%Z.

Definition Math_max (a b : number) : number :=
  match a, b with
  | Num x, Num y => if decimal_leb x y then Num y else Num x
  | _, _ => NaN
  end.

Definition zero : number := Num (Decimal 0 0).
Definition one : number := Num (Decimal 1 0).

(** What a catch clause can receive. *)
Inductive exn :=
| Error (message : jsstring)      (* new Error(message) *)
| SyntaxError (text : jsstring)   (* thrown by JSON.parse(text) *)
| TypeError                       (* a property read on null *)
| thrown_value.                   (* a thrown value that is not an Error *)

(** What [setError] stores: [err.message], which for the errors the engine
    makes is the engine's wording, or the fixed text for a non-Error. *)
Inductive shown_error :=
| message_text (text : jsstring)
| syntax_error_message (text : jsstring)
| type_error_message.

Definition catch_message (err : exn) : shown_error :=
  match err with
  | Error message => message_text message
  | SyntaxError text => syntax_error_message text
  | TypeError => type_error_message
  | thrown_value => message_text (lit "Unknown error")
  end.

(** The state cells of the component that handleGenerate writes. A cell that
    holds whatever a payload carried is an [option json]: [None] is
    [undefined], [Some JNull] is [null]. *)
Record ui := UI {
  statusFeed : list json;
  assetVault : gmap jsstring json;
  segments : option json;
  result : option json;
  isGenerating : bool;
  progress : number;
  error : option shown_error
}.

(** The initial values given to [useState]. *)
Definition initial : ui := {|
  statusFeed := [];
  assetVault := ∅;
  segments := Some (JArr []);
  result := Some JNull;
  isGenerating := false;
  progress := zero;
  error := None
|}.

Definition setStatusFeed (f : list json -> list json) (st : ui) : ui :=
  UI (f (statusFeed st)) (assetVault st) (segments st) (result st)
     (isGenerating st) (progress st) (error st).
Definition setAssetVault (f : gmap jsstring json -> gmap jsstring json) (st : ui) : ui :=
  UI (statusFeed st) (f (assetVault st)) (segments st) (result st)
     (isGenerating st) (progress st) (error st).
Definition setSegments (v : option json) (st : ui) : ui :=
  UI (statusFeed st) (assetVault st) v (result st)
     (isGenerating st) (progress st) (error st).
Definition setResult (v : option json) (st : ui) : ui :=
  UI (statusFeed st) (assetVault st) (segments st) v
     (isGenerating st) (progress st) (error st).
Definition setIsGenerating (b : bool) (st : ui) : ui :=
  UI (statusFeed st) (assetVault st) (segments st) (result st)
     b (progress st) (error st).
Definition setProgress (f : number -> number) (st : ui) : ui :=
  UI (statusFeed st) (assetVault st) (segments st) (result st)
     (isGenerating st) (f (progress st)) (error st).
Definition setError (v : option shown_error) (st : ui) : ui :=
  UI (statusFeed st) (assetVault st) (segments st) (result st)
     (isGenerating st) (progress st) v.

(** A statement either completes or throws; the state written so far stays. *)
Inductive completion :=
| normal (st : ui)
| throw (err : exn) (st : ui).

(** [String.prototype.split] with a one-unit separator: never empty. *)
Fixpoint split (sep : code_unit) (s : jsstring) : list jsstring :=
  match s with
  | [] => [[]]
  | c :: r =>
    let pieces := split sep r in
    if (c =? sep)%N then [] :: pieces
    else match pieces with
         | p :: ps => (c :: p) :: ps
         | [] => [[c]]
         end
  end.

(** [Array.prototype.pop]: the array without its last element, and that
    element ([None]: [undefined], for an empty array). *)
Definition pop {A} (l : list A) : list A * option A :=
  (removelast l, last l).

Definition line_feed : code_unit := 10%N.

(** The three statements that follow a read: append the text to the buffer,
    split, pop. Gives the complete lines and the new buffer. *)
Definition take_lines (buffer value : jsstring) : list jsstring * jsstring :=
  let buffer := buffer ++ value in
  let '(lines, popped) := pop (split line_feed buffer) in
  (lines, match popped with Some piece => piece | None => [] end).

Definition type_is (payload : json) (name : string) : bool :=
  match get (lit "type") payload with
  | Some (JStr t) => jsstring_eqb t (lit name)
  | _ => false
  end.

Section Handler.

(** Coercions the engine applies to a value that is outside the declared
    [StreamPayload] type: ToNumber, by [Math.max], on a [progress] that is
    neither a number nor null nor absent, and ToPropertyKey, by the computed
    key of the vault update, on an [artifact] that is not a string. Both are
    taken as total functions of the engine; a coercion that throws, as
    ToNumber does on an object without a usable conversion, is outside the
    model, and what is stated of a line of unknown shape is stated for a
    [progress] that is absent, null or a number, where nothing is coerced. *)
Variable ToNumber : json -> number.
Variable ToPropertyKey : option json -> jsstring.

(** [payload.progress ?? prev] *)
Definition progress_or (prev : number) (payload : json) : number :=
  match get (lit "progress") payload with
  | None | Some JNull => prev
  | Some (JNum d) => Num d
  | Some v => ToNumber v
  end.

Definition artifact_key (payload : json) : jsstring :=
  match get (lit "artifact") payload with
  | Some (JStr s) => s
  | other => ToPropertyKey other
  end.

(** [{ ...prev, [payload.artifact]: payload }] *)
Definition upsert (payload : json) (prev : gmap jsstring json) : gmap jsstring json :=
  <[artifact_key payload := payload]> prev.

(** The body of the for loop after a successful parse to a non-null value. *)
Definition apply_payload (st : ui) (payload : json) : ui :=
  let st := setProgress (fun prev => Math_max prev (progress_or prev payload)) st in
  if type_is payload "status" then
    setStatusFeed (fun prev => prev ++ [payload]) st
  else if type_is payload "asset" then
    setAssetVault (upsert payload) st
  else if type_is payload "timeline" then
    setSegments (get (lit "segments") payload) st
  else if type_is payload "result" then
    setProgress (fun _ => one) (setResult (get (lit "deliverables") payload) st)
  else st.

(** One iteration of [for (const line of lines)]. On a [null] payload the
    read [payload.type] throws. The updater handed to [setProgress] just
    before reads [payload.progress] only when React runs it, and fails there
    too; that failure at render time is outside this model, which leaves
    [progress] as it was. *)
Definition process_line (st : ui) (line : jsstring) : completion :=
  if negb (truthy (trim line)) then normal st
  else
    match JSON_parse line with
    | None => throw (SyntaxError line) st
    | Some JNull => throw TypeError st
    | Some payload => normal (apply_payload st payload)
    end.

Fixpoint process_lines (st : ui) (lines : list jsstring) : completion :=
  match lines with
  | [] => normal st
  | line :: rest =>
    match process_line st line with
    | normal st' => process_lines st' rest
    | throw err st' => throw err st'
    end
  end.

(** How the reads of the body end: [done], or a rejected read. *)
Inductive read_end :=
| done
| read_rejected (err : exn).

(** [while (true)]: [reads] are the texts [decoder.decode(value, {stream: true})]
    returns for the successive chunks. *)
Fixpoint read_loop (st : ui) (buffer : jsstring) (reads : list jsstring)
    (ending : read_end) : completion :=
  match reads with
  | [] =>
    match ending with
    | done => normal st
    | read_rejected err => throw err st
    end
  | value :: rest =>
    let '(lines, buffer) := take_lines buffer value in
    match process_lines st lines with
    | normal st' => read_loop st' buffer rest ending
    | throw err st' => throw err st'
    end
  end.

(** What [await fetch(...)] gives. *)
Inductive fetched :=
| fetch_rejected (err : exn)
| no_body
| body (reads : list jsstring) (ending : read_end).

(** The writes before the try block. *)
Definition reset (st : ui) : ui :=
  setResult (Some JNull)
    (setAssetVault (fun _ => ∅)
      (setSegments (Some (JArr []))
        (setStatusFeed (fun _ => [])
          (setProgress (fun _ => zero)
            (setError None
              (setIsGenerating true st)))))).

Definition try_block (st : ui) (response : fetched) : completion :=
  match response with
  | fetch_rejected err => throw err st
  | no_body => throw (Error (lit "Streaming channel unavailable.")) st
  | body reads ending => read_loop st [] reads ending
  end.

Definition handleGenerate (st : ui) (response : fetched) : ui :=
  let st :=
    match try_block (reset st) response with
    | normal st' => st'
    | throw err st' => setError (Some (catch_message err)) st'
    end in
  setIsGenerating false st.

End Handler.

End Page.

(* ===================================================================== *)
(** ** Vocabulary of the specification *)
(* ===================================================================== *)

Module Spec.
Import JS Route Page.

(** A request body validates to a Brief: it is JSON and the schema accepts it. *)
Definition validates (body : jsstring) (payload : Brief.t) : Prop :=
  exists input, JSON_parse body = Some input
                /\ ReelRequestSchema_parse input = inr payload.

(** The fixed type order of the ten events. *)
Definition type_order : list jsstring :=
  List.map lit ["status"; "status"; "asset"; "status"; "timeline";
                "status"; "asset"; "asset"; "status"; "result"]%string.

(** [clamp x lo hi] in the words of the specification. *)
Definition clamp (x lo hi : Z) : Z :=
  if (x <? lo)%Z then lo else if (hi <? x)%Z then hi else x.

(** The effective duration of a [length] text: its parsed integer clamped to
    15..120, and 45 when it does not parse. *)
Definition effective_duration (length : jsstring) : Z :=
  match parseInt10 length with
  | Some n => clamp n 15 120
  | None => 45%Z
  end.

Definition float_le (a b : float) : Prop := PrimFloat.leb a b = true.

(** The body omits [topic]. *)
Definition omits_topic (input : json) : Prop :=
  get (lit "topic") input = None.

(** The body has a [topic] text of fewer than three UTF-16 code units. *)
Definition short_topic (input : json) : Prop :=
  exists s, get (lit "topic") input = Some (JStr s) /\ (Datatypes.length s < 3)%nat.

Definition extent (s : Segment.t) : Z * Z := (Segment.start s, Segment.duration s).
Definition segment_end (s : Segment.t) : Z := (Segment.start s + Segment.duration s)%Z.

(** Extents that follow one another from [cursor] on without gap or overlap,
    each at least three seconds long. *)
Fixpoint contiguous_from (cursor : Z) (extents : list (Z * Z)) : Prop :=
  match extents with
  | [] => True
  | (start, duration) :: rest =>
    start = cursor /\ (3 <= duration)%Z /\ contiguous_from (cursor + duration) rest
  end.

(** The integers 15..120: every value a clamped target duration can take. *)
Definition target_range : list Z := List.map Z.of_nat (seq 15 106).

(** A JSON object text with the given members, each value already a text. *)
Definition object_text (members : list (string * jsstring)) : jsstring :=
  lit "{" ++ join (lit ",") (List.map (fun m => quoted (fst m) ++ lit ":" ++ snd m) members)
      ++ lit "}".

(** The brief of the specification's scenario. *)
Definition scenario_body : jsstring :=
  object_text [("topic", quoted "AI studio launch"); ("length", quoted "45");
               ("platform", quoted "tiktok")]%string.

Definition scenario_brief : Brief.t := {|
  Brief.topic := lit "AI studio launch";
  Brief.platform := lit "tiktok";
  Brief.tone := lit "cinematic";
  Brief.length := lit "45";
  Brief.voice := lit "warm";
  Brief.callToAction := None;
  Brief.audience := lit "general";
  Brief.autopilot := true;
  Brief.brandColor := None
|}.

(** A text without a line feed: one line of the stream. *)
Definition no_line_feed (s : jsstring) : Prop := ~ In line_feed s.

(** Complete lines, each followed by its line feed, one after another. *)
Definition unlines (lines : list jsstring) : jsstring :=
  concat (List.map (fun l => l ++ [line_feed]) lines).

(** The lines a text completes: every piece of its split but the last. *)
Definition complete_lines (text : jsstring) : list jsstring :=
  removelast (split line_feed text).

(** The piece after the last line feed of a text: what stays in the buffer. *)
Definition last_piece (text : jsstring) : jsstring :=
  match last (split line_feed text) with
  | Some piece => piece
  | None => []
  end.

(** The line is not skipped as blank. *)
Definition not_blank (line : jsstring) : Prop := truthy (trim line) = true.

(** The line carries none of the four known discriminants. *)
Definition unknown_type (payload : json) : Prop :=
  type_is payload "status" = false /\ type_is payload "asset" = false
  /\ type_is payload "timeline" = false /\ type_is payload "result" = false.

(** The line is not a result event. *)
Definition not_result_line (line : jsstring) : Prop :=
  forall payload, JSON_parse line = Some payload -> type_is payload "result" = false.

(** How the handler ends once the try block has completed. *)
Definition settle (c : completion) : ui :=
  setIsGenerating false
    match c with
    | normal st => st
    | throw err st => setError (Some (catch_message err)) st
    end.

(** How the read loop ends once the lines it received are processed. *)
Definition after_reads (ending : read_end) (c : completion) : completion :=
  match c, ending with
  | normal st, read_rejected err => throw err st
  | _, _ => c
  end.

(** Stand-ins for the engine's coercions in the closed examples of this
    file. No example reaches them: every progress there is a number and every
    artifact a string. *)
Definition no_number : json -> number := fun _ => NaN.
Definition no_key : option json -> jsstring := fun _ => [].

(** Lines of an event stream, cut down to the fields the handler reads. *)
Definition status_line (id : string) (progress : string) : jsstring :=
  object_text [("type", quoted "status"); ("id", quoted id); ("progress", lit progress)]%string.
Definition asset_line (artifact : string) (content : string) (progress : string)
  : jsstring :=
  object_text [("type", quoted "asset"); ("artifact", quoted artifact);
               ("content", quoted content); ("progress", lit progress)]%string.

(** A line that is JSON but no event of the protocol, and one that is not JSON. *)
Definition banner_line : jsstring :=
  object_text [("type", quoted "banner"); ("progress", lit "0.5")]%string.
Definition broken_line : jsstring := lit "{oops".

Definition briefing_line : jsstring := status_line "briefing" "0.08".
Definition ideation_line : jsstring := status_line "ideation" "0.24".
Definition script_line : jsstring := asset_line "script" "HOOK" "0.42".

Definition briefing_payload : json :=
  JObj [(lit "type", JStr (lit "status")); (lit "id", JStr (lit "briefing"));
        (lit "progress", JNum (Decimal 8 (-2)))].
Definition ideation_payload : json :=
  JObj [(lit "type", JStr (lit "status")); (lit "id", JStr (lit "ideation"));
        (lit "progress", JNum (Decimal 24 (-2)))].
Definition banner_payload : json :=
  JObj [(lit "type", JStr (lit "banner")); (lit "progress", JNum (Decimal 5 (-1)))].
Definition script_payload (content : string) : json :=
  JObj [(lit "type", JStr (lit "asset")); (lit "artifact", JStr (lit "script"));
        (lit "content", JStr (lit content)); (lit "progress", JNum (Decimal 42 (-2)))].

(** The state a completion carries. *)
Definition state_of (c : completion) : ui :=
  match c with
  | normal st => st
  | throw _ st => st
  end.

(** A line of the stream that holds one JSON value other than null: what
    [JSON.parse] makes of it is the payload. *)
Definition json_line (line : jsstring) (payload : json) : Prop :=
  no_line_feed line /\ JSON_parse line = Some payload /\ payload <> JNull.

(** The [progress] of the payload is absent, null or a number, as the
    declared [StreamPayload] has it: [Math.max] then coerces nothing. *)
Definition plain_progress (payload : json) : Prop :=
  match get (lit "progress") payload with
  | None | Some JNull | Some (JNum _) => True
  | Some _ => False
  end.

(** [payload.progress ?? prev] for such a payload. *)
Definition progress_of (prev : number) (payload : json) : number :=
  match get (lit "progress") payload with
  | Some (JNum d) => Num d
  | _ => prev
  end.

(** A second asset event, for another slot than the script. *)
Definition overlays_payload : json :=
  JObj [(lit "type", JStr (lit "asset")); (lit "artifact", JStr (lit "overlays"));
        (lit "content", JStr (lit "Gradient wash")); (lit "progress", JNum (Decimal 94 (-2)))].

End Spec.

(* ===================================================================== *)
(** ** Values the page derives for display *)
(* ===================================================================== *)

Module View.
Import JS Route Page.

(** [totalDuration]: the reduce over the [segments] cell, here on segments
    typed as the page declares them. The page's TimelineSegment has the five
    fields of the route's segment, so one record serves both; [start] and
    [duration] are whole seconds, as the route emits them, of a magnitude
    where the doubles of the page add them exactly ([whole_seconds] below). *)
Definition totalDuration (segments : list Segment.t) : Z :=
  fold_left
    (fun acc seg =>
       let end_ := (Segment.start seg + Segment.duration seg)%Z in
       if (acc <? end_)%Z then end_ else acc)
    segments 0%Z.

(** [Math.min(totalDuration, segment.start + segment.duration)], the end the
    timeline list shows for a segment. *)
Definition shown_end (segments : list Segment.t) (segment : Segment.t) : Z :=
  Z.min (totalDuration segments) (Segment.start segment + Segment.duration segment).

(** A segment whose start and duration are integers of magnitude at most
    2 ^ 52: their sum is below 2 ^ 53 in magnitude, so the double the page
    computes for [seg.start + seg.duration] is the exact sum. *)
Definition whole_seconds (segment : Segment.t) : Prop :=
  (Z.abs (Segment.start segment) <= 2 ^ 52)%Z
  /\ (Z.abs (Segment.duration segment) <= 2 ^ 52)%Z.

End View.

(* ===================================================================== *)
(** ** Vocabulary for the further properties *)
(* ===================================================================== *)

Module Contract.
Import JS Route Page.

(** The value of a text property, or the default when it is not a text. *)
Definition text_or (default : jsstring) (v : option json) : jsstring :=
  match v with
  | Some (JStr s) => s
  | _ => default
  end.

Definition optional_text (v : option json) : option jsstring :=
  match v with
  | Some (JStr s) => Some s
  | _ => None
  end.

Definition flag_or (default : bool) (v : option json) : bool :=
  match v with
  | Some (JBool b) => b
  | _ => default
  end.

Definition text_or_absent (v : option json) : Prop :=
  v = None \/ exists s, v = Some (JStr s).

Definition flag_or_absent (v : option json) : Prop :=
  v = None \/ exists b, v = Some (JBool b).

(** What the schema asks of a request body. *)
Definition acceptable (input : json) : Prop :=
  (exists members, input = JObj members)
  /\ (exists s, get (lit "topic") input = Some (JStr s) /\ (3 <= Datatypes.length s)%nat)
  /\ text_or_absent (get (lit "platform") input)
  /\ text_or_absent (get (lit "tone") input)
  /\ text_or_absent (get (lit "length") input)
  /\ text_or_absent (get (lit "voice") input)
  /\ text_or_absent (get (lit "callToAction") input)
  /\ text_or_absent (get (lit "audience") input)
  /\ flag_or_absent (get (lit "autopilot") input)
  /\ text_or_absent (get (lit "brandColor") input).

(** The Brief of an acceptable body: each property, or its default. *)
Definition brief_of (input : json) : Brief.t := {|
  Brief.topic := text_or [] (get (lit "topic") input);
  Brief.platform := text_or (lit "instagram") (get (lit "platform") input);
  Brief.tone := text_or (lit "cinematic") (get (lit "tone") input);
  Brief.length := text_or (lit "30") (get (lit "length") input);
  Brief.voice := text_or (lit "warm") (get (lit "voice") input);
  Brief.callToAction := optional_text (get (lit "callToAction") input);
  Brief.audience := text_or (lit "general") (get (lit "audience") input);
  Brief.autopilot := flag_or true (get (lit "autopilot") input);
  Brief.brandColor := optional_text (get (lit "brandColor") input)
|}.

End Contract.

(* ===================================================================== *)
(** ** JSON.stringify, as both files use it *)
(* ===================================================================== *)

Module Stringify.
Import JS.

(** A value handed to [JSON.stringify]: what the object literals of the two
    files hold. An object lists its properties in creation order (none of
    them is an array index); a property that is [undefined] is [None]. A
    number the code keeps at integer values is a [VInt]: an integer of
    magnitude at most 2 ^ 53, which a double holds exactly and
    Number::toString prints with all its digits; any other number is a
    [VDouble]. *)
Inductive value :=
| VNull
| VBool (b : bool)
| VInt (z : Z)
| VDouble (x : float)
| VStr (s : jsstring)
| VArr (items : list value)
| VObj (members : list (jsstring * option value)).

(** An induction principle that reaches the values inside arrays and objects. *)
Section ValueInduction.

Variable P : value -> Prop.
Hypothesis P_null : P VNull.
Hypothesis P_bool : forall b, P (VBool b).
Hypothesis P_int : forall z, P (VInt z).
Hypothesis P_double : forall x, P (VDouble x).
Hypothesis P_str : forall s, P (VStr s).
Hypothesis P_arr : forall items, List.Forall P items -> P (VArr items).
Hypothesis P_obj :
  forall members,
    List.Forall (fun m => forall v, snd m = Some v -> P v) members -> P (VObj members).

Fixpoint value_induction (v : value) : P v :=
  match v with
  | VNull => P_null
  | VBool b => P_bool b
  | VInt z => P_int z
  | VDouble x => P_double x
  | VStr s => P_str s
  | VArr items =>
    P_arr items
      ((fix all (l : list value) : List.Forall P l :=
          match l with
          | [] => List.Forall_nil P
          | x :: r => List.Forall_cons P x r (value_induction x) (all r)
          end) items)
  | VObj members =>
    P_obj members
      ((fix all (l : list (jsstring * option value))
          : List.Forall (fun m => forall v, snd m = Some v -> P v) l :=
          match l with
          | [] => List.Forall_nil _
          | (k, o) :: r =>
            List.Forall_cons (fun m => forall v, snd m = Some v -> P v) (k, o) r
              (match o as o' return forall v, o' = Some v -> P v with
               | Some v' => fun v E =>
                   match E in _ = w return match w with Some u => P u | None => True end
                   with eq_refl => value_induction v' end
               | None => fun v E => match E with end
               end)
              (all r)
          end) members)
  end.

End ValueInduction.

(** *** Number::toString *)

(** Decimal digits of a natural number, most significant first. *)
Fixpoint digits_fuel (fuel : nat) (n : N) : jsstring :=
  match fuel with
  | O => []
  | S fuel' =>
    if (n <? 10)%N then [(48 + n)%N]
    else digits_fuel fuel' (n / 10)%N ++ [(48 + n mod 10)%N]
  end.

Definition digits (n : N) : jsstring := digits_fuel (S (N.size_nat n)) n.

(** A non-negative rational as numerator and positive denominator. *)
Definition ratio := (Z * Z)%type.
Definition ratio_lt (a b : ratio) : bool := (fst a * snd b <? fst b * snd a)%Z.
Definition ratio_le (a b : ratio) : bool := (fst a * snd b <=? fst b * snd a)%Z.
Definition ratio_eq (a b : ratio) : bool := (fst a * snd b =? fst b * snd a)%Z.
Definition ratio_mid (a b : ratio) : ratio :=
  ((fst a * snd b + fst b * snd a)%Z, (2 * snd a * snd b)%Z).
Definition ratio_dist (a b : ratio) : ratio :=
  (Z.abs (fst a * snd b - fst b * snd a)%Z, (snd a * snd b)%Z).

(** The mathematical value of m * 2 ^ e and of s * 10 ^ p. *)
Definition binary_ratio (m e : Z) : ratio :=
  if (0 <=? e)%Z then ((m * 2 ^ e)%Z, 1%Z) else (m, (2 ^ (- e))%Z).
Definition decimal_ratio (s p : Z) : ratio :=
  if (0 <=? p)%Z then ((s * 10 ^ p)%Z, 1%Z) else (s, (10 ^ (- p))%Z).

Definition float_ratio (x : float) : option ratio :=
  match Prim2SF x with
  | S754_zero _ => Some (0%Z, 1%Z)
  | S754_finite false m e => Some (binary_ratio (Z.pos m) e)
  | _ => None
  end.

Definition mantissa_even (x : float) : bool :=
  match Prim2SF x with
  | S754_finite _ m _ => Z.even (Z.pos m)
  | _ => true
  end.

(** Whether the decimal s * 10 ^ p rounds to the positive finite double x:
    it lies between the midpoints to the neighbouring doubles, the midpoints
    themselves included when the mantissa of x is even. *)
Definition rounds_to (x : float) (s p : Z) : bool :=
  match float_ratio x, float_ratio (PrimFloat.next_down x) with
  | Some vx, Some below =>
    let above :=
      match float_ratio (PrimFloat.next_up x) with
      | Some a => a
      | None => ((2 * fst vx * snd below - fst below * snd vx)%Z, (snd vx * snd below)%Z)
      end in
    let lo := ratio_mid below vx in
    let hi := ratio_mid vx above in
    let v := decimal_ratio s p in
    if mantissa_even x then ratio_le lo v && ratio_le v hi
    else ratio_lt lo v && ratio_lt v hi
  | _, _ => false
  end.

(** The n with 10 ^ (n - 1) <= x < 10 ^ n, searched upwards from [n]. *)
Fixpoint magnitude_from (fuel : nat) (vx : ratio) (n : Z) : Z :=
  match fuel with
  | O => n
  | S fuel' =>
    if ratio_lt vx (decimal_ratio 1 n) then n
    else magnitude_from fuel' vx (n + 1)%Z
  end.

Definition closer (vx : ratio) (a b : Z * Z) (k : Z) : Z * Z :=
  let da := ratio_dist vx (decimal_ratio (fst a) (snd a - k)) in
  let db := ratio_dist vx (decimal_ratio (fst b) (snd b - k)) in
  if ratio_le da db then a else b.

(** The candidates with k digits: the two k-digit decimals around x, given
    as (s, n). *)
Definition candidates (vx : ratio) (n k : Z) : list (Z * Z) :=
  let p := (n - k)%Z in
  let scaled := if (0 <=? p)%Z then (fst vx, (snd vx * 10 ^ p)%Z)
                else ((fst vx * 10 ^ (- p))%Z, snd vx) in
  let low := (fst scaled / snd scaled)%Z in
  let up := (low + 1)%Z in
  (if (10 ^ (k - 1) <=? low)%Z then [(low, n)] else [])
  ++ (if (up <? 10 ^ k)%Z then [(up, n)] else [((10 ^ (k - 1))%Z, (n + 1)%Z)]).

Fixpoint shortest_from (fuel : nat) (x : float) (vx : ratio) (n k : Z)
  : option (Z * Z * Z) :=
  match fuel with
  | O => None
  | S fuel' =>
    match List.filter (fun c => rounds_to x (fst c) (snd c - k)) (candidates vx n k) with
    | [] => shortest_from fuel' x vx n (k + 1)%Z
    | [c] => Some (fst c, snd c, k)
    | a :: b :: _ => let c := closer vx a b k in Some (fst c, snd c, k)
    end
  end.

(** The (s, n, k) of Number::toString for a positive finite double. *)
Definition shortest (x : float) : option (Z * Z * Z) :=
  match float_ratio x with
  | Some vx => shortest_from 17 x vx (magnitude_from 700 vx (-330)) 1
  | None => None
  end.

Definition zeros (n : Z) : jsstring := repeat 48%N (Z.to_nat n).

Definition exponent_text (e : Z) : jsstring :=
  (if (0 <=? e)%Z then lit "e+" else lit "e-") ++ digits (Z.to_N (Z.abs e)).

(** Steps 6 to 10 of Number::toString: the digits laid out by n and k. *)
Definition layout (s n k : Z) : jsstring :=
  let ds := digits (Z.to_N s) in
  if ((k <=? n) && (n <=? 21))%Z then ds ++ zeros (n - k)
  else if ((0 <? n) && (n <=? 21))%Z then
    firstn (Z.to_nat n) ds ++ lit "." ++ skipn (Z.to_nat n) ds
  else if ((-6 <? n) && (n <=? 0))%Z then lit "0." ++ zeros (- n) ++ ds
  else if (k =? 1)%Z then ds ++ exponent_text (n - 1)
  else firstn 1 ds ++ lit "." ++ skipn 1 ds ++ exponent_text (n - 1).

(** [Number::toString(x)] for a finite double. *)
Definition Number_toString (x : float) : jsstring :=
  match Prim2SF x with
  | S754_zero _ => lit "0"
  | S754_finite sign _ _ =>
    match shortest (PrimFloat.abs x) with
    | Some (s, n, k) => (if sign then lit "-" else []) ++ layout s n k
    | None => []
    end
  | S754_infinity sign => (if sign then lit "-" else []) ++ lit "Infinity"
  | S754_nan => lit "NaN"
  end.


(** A finite double prints as a number; [JSON.stringify] prints null for the
    others. *)
Definition is_finite (x : float) : bool :=
  match Prim2SF x with
  | S754_zero _ | S754_finite _ _ _ => true
  | _ => false
  end.

Definition Z_toString (z : Z) : jsstring :=
  (if (z <? 0)%Z then lit "-" else []) ++ digits (Z.to_N (Z.abs z)).

(** *** QuoteJSONString *)

Definition hex_digit (d : N) : code_unit :=
  if (d <? 10)%N then (48 + d)%N else (87 + d)%N.

(** The escape of one code unit: backslash, u and four lowercase hex digits. *)
Definition unicode_escape (c : code_unit) : jsstring :=
  [92%N; 117%N; hex_digit ((c / 4096) mod 16)%N; hex_digit ((c / 256) mod 16)%N;
   hex_digit ((c / 16) mod 16)%N; hex_digit (c mod 16)%N].

Definition is_leading (c : code_unit) : bool := ((0xD800 <=? c) && (c <=? 0xDBFF))%N.
Definition is_trailing (c : code_unit) : bool := ((0xDC00 <=? c) && (c <=? 0xDFFF))%N.

(** A code point that is one code unit and no surrogate. *)
Definition quote_unit (c : code_unit) : jsstring :=
  if (c =? 8)%N then [92%N; 98%N]
  else if (c =? 9)%N then [92%N; 116%N]
  else if (c =? 10)%N then [92%N; 110%N]
  else if (c =? 12)%N then [92%N; 102%N]
  else if (c =? 13)%N then [92%N; 114%N]
  else if (c =? 34)%N then [92%N; 34%N]
  else if (c =? 92)%N then [92%N; 92%N]
  else if (c <? 0x20)%N then unicode_escape c
  else [c].

(** The code points of the string in turn: a surrogate pair goes through as
    it is, a surrogate on its own is escaped. *)
Fixpoint quote_units (s : jsstring) : jsstring :=
  match s with
  | [] => []
  | c :: r =>
    if is_leading c then
      match r with
      | d :: r' =>
        if is_trailing d then c :: d :: quote_units r'
        else unicode_escape c ++ quote_units r
      | [] => unicode_escape c
      end
    else if is_trailing c then unicode_escape c ++ quote_units r
    else quote_unit c ++ quote_units r
  end.

Definition QuoteJSONString (s : jsstring) : jsstring :=
  dquote ++ quote_units s ++ dquote.

(** *** JSON.stringify without indentation *)

Fixpoint JSON_stringify (v : value) : jsstring :=
  match v with
  | VNull => lit "null"
  | VBool true => lit "true"
  | VBool false => lit "false"
  | VInt z => Z_toString z
  | VDouble x => if is_finite x then Number_toString x else lit "null"
  | VStr s => QuoteJSONString s
  | VArr items => lit "[" ++ join (lit ",") (List.map JSON_stringify items) ++ lit "]"
  | VObj members =>
    lit "{"
    ++ join (lit ",")
         ((fix properties (ms : list (jsstring * option value)) : list jsstring :=
             match ms with
             | [] => []
             | (k, Some v') :: rest =>
               (QuoteJSONString k ++ lit ":" ++ JSON_stringify v') :: properties rest
             | (_, None) :: rest => properties rest
             end) members)
    ++ lit "}"
  end.

End Stringify.

(* ===================================================================== *)
(** ** Vocabulary for the round trip through JSON text *)
(* ===================================================================== *)

Module Roundtrip.
Import JS Stringify.

(** The lexer run over a text without the end-of-input check: the mode it
    is left in and the tokens completed so far. *)
Fixpoint lex_run (m : lex_mode) (s : jsstring) : option (lex_mode * list token) :=
  match s with
  | [] => Some (m, [])
  | c :: r =>
    match lex_step m c with
    | None => None
    | Some (m', ts) =>
      match lex_run m' r with
      | Some (m'', ts') => Some (m'', ts ++ ts')
      | None => None
      end
    end
  end.

(** The parser run over some tokens: the state and stack it is left in. *)
Fixpoint parse_run (st : parse_state) (stack : list frame) (ts : list token)
  : option (parse_state * list frame) :=
  match ts with
  | [] => Some (st, stack)
  | t :: rest =>
    match parse_step st stack t with
    | Some (st', stack') => parse_run st' stack' rest
    | None => None
    end
  end.

(** The decimal a printed double is read back as. *)
Definition double_decimal (x : float) : option decimal :=
  match lex_run LDefault (Number_toString x) with
  | Some (LNumber ns, []) =>
    match num_token ns with
    | Some (TNumber d) => Some d
    | _ => None
    end
  | _ => None
  end.

Fixpoint join_tokens (parts : list (list token)) : list token :=
  match parts with
  | [] => []
  | [p] => p
  | p :: rest => p ++ TComma :: join_tokens rest
  end.

(** The tokens of the text of a value. *)
Fixpoint tokens (v : value) : list token :=
  match v with
  | VNull => [TNull]
  | VBool true => [TTrue]
  | VBool false => [TFalse]
  | VInt z => [TNumber (Decimal z 0)]
  | VDouble x =>
    if is_finite x then
      match double_decimal x with
      | Some d => [TNumber d]
      | None => []
      end
    else [TNull]
  | VStr s => [TString s]
  | VArr items => TLBracket :: join_tokens (List.map tokens items) ++ [TRBracket]
  | VObj members =>
    TLBrace
      :: join_tokens
           ((fix properties (ms : list (jsstring * option value)) : list (list token) :=
               match ms with
               | [] => []
               | (k, Some v') :: rest => (TString k :: TColon :: tokens v') :: properties rest
               | (_, None) :: rest => properties rest
               end) members)
      ++ [TRBrace]
  end.

(** What [JSON.parse] makes of the text of a value: the value itself, with
    the properties that were [undefined] gone, a double that is not finite
    turned to null, and each number as the decimal it was printed as. *)
Fixpoint to_json (v : value) : json :=
  match v with
  | VNull => JNull
  | VBool b => JBool b
  | VInt z => JNum (Decimal z 0)
  | VDouble x =>
    if is_finite x then
      match double_decimal x with
      | Some d => JNum d
      | None => JNull
      end
    else JNull
  | VStr s => JStr s
  | VArr items => JArr (List.map to_json items)
  | VObj members =>
    JObj ((fix properties (ms : list (jsstring * option value)) : list (jsstring * json) :=
             match ms with
             | [] => []
             | (k, Some v') :: rest => (k, to_json v') :: properties rest
             | (_, None) :: rest => properties rest
             end) members)
  end.

(** Every number of the value prints as a JSON number: an integer is one a
    double holds exactly, and a finite double is checked by running the
    printer on it. *)
Fixpoint printable (v : value) : bool :=
  match v with
  | VInt z => (Z.abs z <=? 2 ^ 53)%Z
  | VDouble x =>
    if is_finite x then
      match double_decimal x with
      | Some _ => true
      | None => false
      end
    else true
  | VArr items => forallb printable items
  | VObj members =>
    (fix properties (ms : list (jsstring * option value)) : bool :=
       match ms with
       | [] => true
       | (_, Some v') :: rest => printable v' && properties rest
       | (_, None) :: rest => properties rest
       end) members
  | _ => true
  end.

(** The named forms of the local loops above. *)
Fixpoint properties_text (ms : list (jsstring * option value)) : list jsstring :=
  match ms with
  | [] => []
  | (k, Some v) :: rest =>
    (QuoteJSONString k ++ lit ":" ++ JSON_stringify v) :: properties_text rest
  | (_, None) :: rest => properties_text rest
  end.

Fixpoint properties_tokens (ms : list (jsstring * option value)) : list (list token) :=
  match ms with
  | [] => []
  | (k, Some v) :: rest => (TString k :: TColon :: tokens v) :: properties_tokens rest
  | (_, None) :: rest => properties_tokens rest
  end.

Fixpoint properties_json (ms : list (jsstring * option value)) : list (jsstring * json) :=
  match ms with
  | [] => []
  | (k, Some v) :: rest => (k, to_json v) :: properties_json rest
  | (_, None) :: rest => properties_json rest
  end.

Fixpoint properties_printable (ms : list (jsstring * option value)) : bool :=
  match ms with
  | [] => true
  | (_, Some v) :: rest => printable v && properties_printable rest
  | (_, None) :: rest => properties_printable rest
  end.

(** The characters that may follow a value inside an array or object. *)
Definition delimiter (c : code_unit) : option token :=
  if (c =? 44)%N then Some TComma
  else if (c =? 93)%N then Some TRBracket
  else if (c =? 125)%N then Some TRBrace
  else None.

(** The lexer, left in mode [m] with tokens [ts] at the end of the text of a
    value, completes the tokens [tk] of the value at the next delimiter and
    at the end of input. *)
Definition settles (m : lex_mode) (ts tk : list token) : Prop :=
  (forall c p, delimiter c = Some p ->
     exists ts', lex_step m c = Some (LDefault, ts') /\ ts ++ ts' = tk ++ [p])
  /\ option_map (app ts) (lex m []) = Some tk.

Definition feeds (v : value) : Prop :=
  exists m ts, lex_run LDefault (JSON_stringify v) = Some (m, ts)
               /\ settles m ts (tokens v).

(** A text that feeds the lexer the tokens [tk]. *)
Definition piece_feeds (text : jsstring) (tk : list token) : Prop :=
  exists m ts, lex_run LDefault text = Some (m, ts) /\ settles m ts tk.

(** The parser states that expect a value, and those that expect a key. *)
Definition value_state (st : parse_state) : Prop := st = PValue \/ st = PArrFirst.

(** The parser, met with the tokens of a value where it expects one, reduces
    the stack by that value. *)
Definition parses (v : value) : Prop :=
  forall st stack, value_state st ->
    parse_run st stack (tokens v) = reduce (to_json v) stack.

Definition key_state (st : parse_state) : Prop := st = PObjFirst \/ st = PObjKey.

(** The properties of an object that are not [undefined]. *)
Fixpoint present (ms : list (jsstring * option value)) : list (jsstring * value) :=
  match ms with
  | [] => []
  | (k, Some v) :: rest => (k, v) :: present rest
  | (_, None) :: rest => present rest
  end.

End Roundtrip.

(* ===================================================================== *)
(** ** What goes over the wire between the page and the route *)
(* ===================================================================== *)

Module Wire.
Import JS Route Stringify.

(** A property of an object literal that holds a value. *)
Definition member (k : string) (v : value) : jsstring * option value := (lit k, Some v).

(** The segment literal of [buildTimeline]. *)
Definition segment_value (s : Segment.t) : value :=
  VObj [member "id" (VStr (Segment.id s));
        member "label" (VStr (Segment.label s));
        member "start" (VInt (Segment.start s));
        member "duration" (VInt (Segment.duration s));
        member "description" (VStr (Segment.description s))].

(** The [deliverables] literal; [callToAction] is [undefined] when the brief
    has none. *)
Definition deliverables_value (d : Deliverables.t) : value :=
  VObj [member "topic" (VStr (Deliverables.topic d));
        member "platform" (VStr (Deliverables.platform d));
        member "duration" (VInt (Deliverables.duration d));
        (lit "callToAction", option_map VStr (Deliverables.callToAction d));
        member "script" (VStr (Deliverables.script d));
        member "overlays" (VStr (Deliverables.overlays d));
        member "segments" (VArr (List.map segment_value (Deliverables.segments d)));
        member "voicePlan" (VStr (Deliverables.voicePlan d))].

(** The literals of [eventSequence], their properties in the order written. *)
Definition event_value (e : event) : value :=
  match e with
  | status s =>
    VObj [member "type" (VStr (lit "status"));
          member "id" (VStr (Status.id s));
          member "stage" (VStr (Status.stage s));
          member "agent" (VStr (Status.agent s));
          member "detail" (VStr (Status.detail s));
          member "progress" (VDouble (Status.progress s));
          member "eta" (VInt (Status.eta s))]
  | asset a =>
    VObj [member "type" (VStr (lit "asset"));
          member "id" (VStr (Asset.id a));
          member "artifact" (VStr (Asset.artifact a));
          member "title" (VStr (Asset.title a));
          member "content" (VStr (Asset.content a));
          member "progress" (VDouble (Asset.progress a));
          member "agent" (VStr (Asset.agent a))]
  | timeline t =>
    VObj [member "type" (VStr (lit "timeline"));
          member "id" (VStr (Timeline.id t));
          member "segments" (VArr (List.map segment_value (Timeline.segments t)));
          member "progress" (VDouble (Timeline.progress t));
          member "agent" (VStr (Timeline.agent t))]
  | result r =>
    VObj [member "type" (VStr (lit "result"));
          member "id" (VStr (Result.id r));
          member "agent" (VStr (Result.agent r));
          member "progress" (VDouble (Result.progress r));
          member "deliverables" (deliverables_value (Result.deliverables r))]
  end.

(** The text of what [start] enqueues: [JSON.stringify(event)] and a line
    feed for each event in turn. The encoder turns it to UTF-8 and the
    decoder of the page turns the bytes back; the texts of the successive
    reads put end to end are this text. *)
Definition enqueued (events : list event) : jsstring :=
  concat (List.map (fun e => JSON_stringify (event_value e) ++ newline) events).

(** The body of the 400 response; [details] is the message of the error
    caught. *)
Definition bad_request_body (error details : jsstring) : jsstring :=
  JSON_stringify (VObj [member "error" (VStr error); member "details" (VStr details)]).

(** The [form] state of the page. *)
Module Form.
Record t := Make {
  topic : jsstring;
  tone : jsstring;
  length : jsstring;
  platform : jsstring;
  voice : jsstring;
  callToAction : jsstring;
  audience : jsstring;
  brandColor : jsstring;
  autopilot : bool
}.
End Form.

Definition INITIAL_FORM : Form.t := {|
  Form.topic := lit "AI studio launch teaser";
  Form.tone := lit "cinematic";
  Form.length := lit "45";
  Form.platform := lit "instagram";
  Form.voice := lit "velvet baritone";
  Form.callToAction := lit "Swipe to unlock your personal AI production crew.";
  Form.audience := lit "creators and founders";
  Form.brandColor := lit "#7f5af0";
  Form.autopilot := true
|}.

Definition form_value (form : Form.t) : value :=
  VObj [member "topic" (VStr (Form.topic form));
        member "tone" (VStr (Form.tone form));
        member "length" (VStr (Form.length form));
        member "platform" (VStr (Form.platform form));
        member "voice" (VStr (Form.voice form));
        member "callToAction" (VStr (Form.callToAction form));
        member "audience" (VStr (Form.audience form));
        member "brandColor" (VStr (Form.brandColor form));
        member "autopilot" (VBool (Form.autopilot form))].

(** The [body] handed to [fetch]: [JSON.stringify(form)]. *)
Definition request_body (form : Form.t) : jsstring := JSON_stringify (form_value form).

(** The brief that states what the form states. *)
Definition form_brief (form : Form.t) : Brief.t := {|
  Brief.topic := Form.topic form;
  Brief.platform := Form.platform form;
  Brief.tone := Form.tone form;
  Brief.length := Form.length form;
  Brief.voice := Form.voice form;
  Brief.callToAction := Some (Form.callToAction form);
  Brief.audience := Form.audience form;
  Brief.autopilot := Form.autopilot form;
  Brief.brandColor := Some (Form.brandColor form)
|}.

(** The events of one type. *)
Definition of_type (name : string) (e : event) : bool :=
  jsstring_eqb (event_type e) (lit name).

(** What the page holds of an event: the parsed line. *)
Definition received (e : event) : json := Roundtrip.to_json (event_value e).

End Wire.

(* ===================================================================== *)
(** ** Properties of the producer *)
(* ===================================================================== *)

Import JS Route Spec.
Local Open Scope Z_scope.

Lemma scenario_validates : validates scenario_body scenario_brief.
Proof. eexists. split; vm_compute; reflexivity. Qed.

(** The parser on a few request bodies. *)
Example JSON_parse_rejects :
  List.map (fun s => JSON_parse (lit s))
      ["01"; "1."; "-"; ".5"; "+1"; "tru"; "[1,]"; "{,}"; "[1 2]"; "{}{}"; " "; "0x10"]%string
  = repeat None 12.
Proof. vm_compute. reflexivity. Qed.

Example JSON_parse_accepts :
  List.map (fun s => JSON_parse (lit s)) ["null"; " [ ] "; "-0.5e1"; "[[],{}]"]%string
  = [Some JNull; Some (JArr []); Some (JNum (Decimal (-5) 0));
     Some (JArr [JArr []; JObj []])].
Proof. vm_compute. reflexivity. Qed.

Example parseInt10_examples :
  List.map (fun s => parseInt10 (lit s))
      ["45"; " 45px"; "-7"; "+9"; "abc"; "1e3"; "15.7"; "- 5"]%string
  = [Some 45; Some 45; Some (-7); Some 9; None; Some 1; Some 15; None].
Proof. vm_compute. reflexivity. Qed.

(** C1. For every Brief that passes validation the producer answers with
    the stream of exactly ten events, whose types are, in order, status,
    status, asset, status, timeline, status, asset, asset, status, result. *)
Theorem POST_emits_ten_events (body : jsstring) (payload : Brief.t) :
  validates body payload ->
  exists headers events,
    POST body = Response200 headers events
    /\ events = eventSequence payload
    /\ Datatypes.length events = 10%nat
    /\ List.map event_type events = type_order.
Proof.
  intros (input & Hjson & Hschema).
  unfold POST. rewrite Hjson, Hschema.
  do 2 eexists. repeat split; reflexivity.
Qed.

Lemma POST_emits_ten_events_witness :
  exists headers events,
    POST scenario_body = Response200 headers events
    /\ events = eventSequence scenario_brief
    /\ Datatypes.length events = 10%nat
    /\ List.map event_type events = type_order.
Proof.
  apply (POST_emits_ten_events scenario_body scenario_brief).
  exists (JObj [(lit "topic", JStr (lit "AI studio launch"));
                (lit "length", JStr (lit "45"));
                (lit "platform", JStr (lit "tiktok"))]).
  split; vm_compute; reflexivity.
Defined.

(** C9. For every valid Brief the progress values of the ten emitted events
    never decrease along the sequence, and the last event, the result, has
    progress 1. *)
Theorem POST_progress_non_decreasing (body : jsstring) (payload : Brief.t) :
  validates body payload ->
  exists headers events final,
    POST body = Response200 headers events
    /\ Datatypes.length events = 10%nat
    /\ StronglySorted float_le (List.map event_progress events)
    /\ last events = Some (result final)
    /\ Result.progress final = 1%float.
Proof.
  intros (input & Hjson & Hschema).
  unfold POST. rewrite Hjson, Hschema.
  do 3 eexists. split; [reflexivity|]. split; [reflexivity|].
  split; [|split; reflexivity].
  cbn [eventSequence List.map event_progress Status.progress Asset.progress
       Timeline.progress Result.progress].
  repeat (apply SSorted_cons;
          [| repeat (constructor; [unfold float_le; reflexivity|]); constructor]).
  apply SSorted_nil.
Qed.

Lemma POST_progress_non_decreasing_witness :
  exists headers events final,
    POST scenario_body = Response200 headers events
    /\ Datatypes.length events = 10%nat
    /\ StronglySorted float_le (List.map event_progress events)
    /\ last events = Some (result final)
    /\ Result.progress final = 1%float.
Proof.
  apply (POST_progress_non_decreasing scenario_body scenario_brief).
  exists (JObj [(lit "topic", JStr (lit "AI studio launch"));
                (lit "length", JStr (lit "45"));
                (lit "platform", JStr (lit "tiktok"))]).
  split; vm_compute; reflexivity.
Defined.

(** *** The target duration *)

Lemma clamp_min_max (x : Z) : Z.min (Z.max x 15) 120 = clamp x 15 120.
Proof.
  unfold clamp.
  destruct (Z.ltb_spec x 15); [lia|].
  destruct (Z.ltb_spec 120 x); lia.
Qed.

Lemma targetDuration_effective (payload : Brief.t) :
  targetDuration payload = effective_duration (Brief.length payload).
Proof.
  unfold targetDuration, effective_duration.
  destruct (parseInt10 (Brief.length payload)); [apply clamp_min_max | reflexivity].
Qed.

Lemma effective_duration_range (length : jsstring) :
  15 <= effective_duration length <= 120.
Proof.
  unfold effective_duration, clamp.
  destruct (parseInt10 length) as [n|]; [|lia].
  destruct (Z.ltb_spec n 15); [lia|].
  destruct (Z.ltb_spec 120 n); lia.
Qed.

Example effective_duration_examples :
  List.map (fun s => effective_duration (lit s))
      ["45"; "30"; "3"; "500"; "-20"; " 60s"; "abc"; "fast"; "12abc"; "0"]%string
  = [45; 30; 15; 120; 15; 60; 45; 45; 15; 15].
Proof. vm_compute. reflexivity. Qed.

(** C5. For every text in the length field of a Brief, the duration the
    producer uses is the parsed integer clamped to 15..120 when the text
    parses, and 45 when it does not; this is the duration given to the
    timeline builder and reported in the deliverables. *)
Theorem targetDuration_clamps_parsed_length (payload : Brief.t) :
  let D := effective_duration (Brief.length payload) in
  targetDuration payload = D
  /\ 15 <= D <= 120
  /\ (forall t, In (timeline t) (eventSequence payload) ->
        Timeline.segments t
        = buildTimeline (Brief.topic payload) D (Brief.tone payload)
                        (Brief.platform payload))
  /\ (forall r, In (result r) (eventSequence payload) ->
        Deliverables.duration (Result.deliverables r) = D
        /\ Deliverables.segments (Result.deliverables r)
           = buildTimeline (Brief.topic payload) D (Brief.tone payload)
                           (Brief.platform payload)).
Proof.
  intros D. subst D.
  rewrite <- targetDuration_effective.
  split; [reflexivity|].
  split; [rewrite targetDuration_effective; apply effective_duration_range|].
  split.
  - intros t Hin. unfold eventSequence in Hin.
    repeat (destruct Hin as [Heq | Hin]; [try discriminate Heq|]);
      [| destruct Hin].
    injection Heq as <-. reflexivity.
  - intros r Hin. unfold eventSequence in Hin.
    repeat (destruct Hin as [Heq | Hin]; [try discriminate Heq|]);
      [| destruct Hin].
    injection Heq as <-. split; reflexivity.
Qed.

(** *** Validation *)

Lemma schema_rejects_topic (input : json) :
  omits_topic input \/ short_topic input ->
  exists issues, ReelRequestSchema_parse input = inl issues.
Proof.
  intros Htopic.
  destruct input; try (eexists; reflexivity).
  assert (exists i, field (JObj members) "topic" (z_string_min 3) = inl i) as [i Hi].
  { unfold field, z_string_min, z_string.
    destruct Htopic as [Hnone | (s & Hsome & Hshort)].
    - unfold omits_topic in Hnone. rewrite Hnone. eexists; reflexivity.
    - rewrite Hsome. apply Nat.ltb_lt in Hshort. rewrite Hshort.
      eexists; reflexivity. }
  unfold ReelRequestSchema_parse. rewrite Hi. eexists; reflexivity.
Qed.

(** C8. A request whose body omits topic, or whose topic has fewer than three
    characters (UTF-16 code units, as the schema counts them), is answered
    with status 400 and the error text Invalid request payload; the answer is
    not a stream, so no event is emitted. A body that is not JSON at all is
    answered the same way. *)
Theorem POST_rejects_missing_or_short_topic (body : jsstring) :
  (forall input, JSON_parse body = Some input ->
                 omits_topic input \/ short_topic input) ->
  status_code (POST body) = 400
  /\ (exists why, POST body = Response400 (lit "Invalid request payload") why)
  /\ (forall headers events, POST body <> Response200 headers events).
Proof.
  intros Htopic. unfold POST.
  destruct (JSON_parse body) as [input|].
  - destruct (schema_rejects_topic input (Htopic input eq_refl)) as [issues ->].
    unfold bad_request.
    split; [reflexivity|]. split; [eexists; reflexivity | discriminate].
  - unfold bad_request.
    split; [reflexivity|]. split; [eexists; reflexivity | discriminate].
Qed.

Lemma POST_rejects_missing_or_short_topic_witness :
  (status_code (POST (object_text [("platform", quoted "tiktok")]%string)) = 400
   /\ (exists why, POST (object_text [("platform", quoted "tiktok")]%string)
                  = Response400 (lit "Invalid request payload") why)
   /\ (forall headers events,
         POST (object_text [("platform", quoted "tiktok")]%string)
         <> Response200 headers events))
  /\
  (status_code (POST (object_text [("topic", quoted "AI")]%string)) = 400
   /\ (exists why, POST (object_text [("topic", quoted "AI")]%string)
                  = Response400 (lit "Invalid request payload") why)
   /\ (forall headers events,
         POST (object_text [("topic", quoted "AI")]%string)
         <> Response200 headers events)).
Proof.
  split.
  - apply (POST_rejects_missing_or_short_topic
             (object_text [("platform", quoted "tiktok")]%string)).
    intros input Hparse. vm_compute in Hparse. injection Hparse as <-.
    left. vm_compute. reflexivity.
  - apply (POST_rejects_missing_or_short_topic
             (object_text [("topic", quoted "AI")]%string)).
    intros input Hparse. vm_compute in Hparse. injection Hparse as <-.
    right. exists (lit "AI"). split; [vm_compute; reflexivity | vm_compute; lia].
Defined.

Example POST_bad_requests :
  List.map POST [object_text [("platform", quoted "tiktok")]%string;
                 object_text [("topic", quoted "AI")]%string;
                 lit "[]"; lit "{"]
  = [bad_request (schema_issues [invalid_type (lit "topic")]);
     bad_request (schema_issues [too_small (lit "topic")]);
     bad_request (schema_issues [invalid_type []]);
     bad_request body_not_json].
Proof. vm_compute. reflexivity. Qed.

(** *** The timeline builder *)

(** Whatever the duration and the beats, the callback lays the segments end
    to end from the cursor it is given, each at least three seconds long. *)
Lemma buildTimeline_map_contiguous topic D tone platform len pcts :
  forall index cursor,
    contiguous_from cursor
      (List.map extent
         (buildTimeline_map topic D tone platform len index cursor pcts)).
Proof.
  induction pcts as [|pct rest IH]; intros index cursor; [exact I|].
  cbn [buildTimeline_map List.map extent Segment.start Segment.duration
       contiguous_from].
  split; [reflexivity|]. split; [|apply IH].
  destruct (index =? len - 1)%nat; cbn [negb andb].
  - lia.
  - destruct (D <=? cursor + Z.max 3 (floor_of_product D pct)); lia.
Qed.

Lemma buildTimeline_map_length topic D tone platform len pcts :
  forall index cursor,
    Datatypes.length (buildTimeline_map topic D tone platform len index cursor pcts)
    = Datatypes.length pcts.
Proof.
  induction pcts as [|pct rest IH]; intros index cursor; [reflexivity|].
  cbn [buildTimeline_map Datatypes.length]. now rewrite IH.
Qed.

(** The five segments of a timeline, with the facts the callback guarantees. *)
Lemma buildTimeline_five topic D tone platform :
  exists s0 s1 s2 s3 s4,
    buildTimeline topic D tone platform = [s0; s1; s2; s3; s4]
    /\ contiguous_from 0 (List.map extent [s0; s1; s2; s3; s4]).
Proof.
  pose proof (buildTimeline_map_contiguous topic D tone platform
                (Datatypes.length beatPercents) beatPercents 0%nat 0) as Hc.
  pose proof (buildTimeline_map_length topic D tone platform
                (Datatypes.length beatPercents) beatPercents 0%nat 0) as Hl.
  fold (buildTimeline topic D tone platform) in Hc, Hl.
  destruct (buildTimeline topic D tone platform)
    as [|s0 [|s1 [|s2 [|s3 [|s4 [|s5 more]]]]]]; try discriminate Hl.
  now exists s0, s1, s2, s3, s4.
Qed.

Ltac timeline_segments topic D tone platform :=
  let H := fresh "Hsegs" in
  let Hc := fresh "Hchain" in
  destruct (buildTimeline_five topic D tone platform)
    as (?s0 & ?s1 & ?s2 & ?s3 & ?s4 & H & Hc);
  rewrite H;
  cbn [contiguous_from List.map extent] in Hc;
  decompose [and] Hc; clear Hc.

Ltac lookup_cases i H :=
  repeat (destruct i as [|i]; [cbn in H; injection H as <- |]);
  try (cbn in H; discriminate H).

Example buildTimeline_scenario :
  List.map extent (buildTimeline (lit "AI studio launch") 45 (lit "cinematic") (lit "tiktok"))
  = [(0, 8); (8, 10); (18, 9); (27, 9); (36, 9)].
Proof. vm_compute. reflexivity. Qed.

(** C6. For every clamped target duration D in 15..120 the segments of the
    timeline have non-decreasing start values, every segment but the last
    lasts at least 3 seconds, and the last segment ends no earlier than the
    one before it. Nothing is claimed about the last end being D. *)
Theorem buildTimeline_starts_non_decreasing (topic tone platform : jsstring) (D : Z) :
  15 <= D <= 120 ->
  let segs := buildTimeline topic D tone platform in
  (forall (i j : nat) a b, (i <= j)%nat ->
      segs !! i = Some a -> segs !! j = Some b ->
      Segment.start a <= Segment.start b)
  /\ (forall (i : nat) a, (S i < Datatypes.length segs)%nat ->
        segs !! i = Some a -> 3 <= Segment.duration a)
  /\ (exists a b, segs !! (Datatypes.length segs - 2)%nat = Some a
                  /\ last segs = Some b
                  /\ segment_end a <= segment_end b).
Proof.
  intros _ segs. subst segs.
  timeline_segments topic D tone platform.
  split; [|split].
  - intros i j a b Hij Ha Hb.
    lookup_cases i Ha; lookup_cases j Hb; lia.
  - intros i a Hlen Ha. cbn in Hlen.
    lookup_cases i Ha; lia.
  - exists s3, s4. unfold segment_end. cbn. repeat split; lia.
Qed.

Lemma buildTimeline_starts_non_decreasing_witness :
  15 <= 45 <= 120 /\
  let segs := buildTimeline (lit "AI studio launch") 45 (lit "cinematic") (lit "tiktok") in
  (forall (i j : nat) a b, (i <= j)%nat ->
      segs !! i = Some a -> segs !! j = Some b ->
      Segment.start a <= Segment.start b)
  /\ (forall (i : nat) a, (S i < Datatypes.length segs)%nat ->
        segs !! i = Some a -> 3 <= Segment.duration a)
  /\ (exists a b, segs !! (Datatypes.length segs - 2)%nat = Some a
                  /\ last segs = Some b
                  /\ segment_end a <= segment_end b).
Proof.
  split; [lia|].
  apply (buildTimeline_starts_non_decreasing
           (lit "AI studio launch") (lit "cinematic") (lit "tiktok") 45).
  lia.
Defined.

(** C10. For every clamped target duration D in 15..120 the timeline has
    exactly 5 segments; the first starts at 0, each later one starts where
    the one before it ends, and every segment, the last included, lasts at
    least 3 seconds, so an earlier segment ends before a later one starts
    and starts strictly before it. *)
Theorem buildTimeline_five_contiguous (topic tone platform : jsstring) (D : Z) :
  15 <= D <= 120 ->
  let segs := buildTimeline topic D tone platform in
  Datatypes.length segs = 5%nat
  /\ (exists first, segs !! 0%nat = Some first /\ Segment.start first = 0)
  /\ (forall (i : nat) a b, segs !! i = Some a -> segs !! S i = Some b ->
        Segment.start b = Segment.start a + Segment.duration a)
  /\ (forall (i : nat) a, segs !! i = Some a -> 3 <= Segment.duration a)
  /\ (forall (i j : nat) a b, (i < j)%nat ->
        segs !! i = Some a -> segs !! j = Some b ->
        segment_end a <= Segment.start b /\ Segment.start a < Segment.start b).
Proof.
  intros _ segs. subst segs.
  timeline_segments topic D tone platform.
  split; [reflexivity|]. split; [exists s0; split; [reflexivity | lia]|].
  split; [|split].
  - intros i a b Ha Hb.
    lookup_cases i Ha; cbn in Hb; try discriminate Hb; injection Hb as <-; lia.
  - intros i a Ha. lookup_cases i Ha; lia.
  - intros i j a b Hij Ha Hb. unfold segment_end.
    lookup_cases i Ha; lookup_cases j Hb; lia.
Qed.

Lemma buildTimeline_five_contiguous_witness :
  15 <= 45 <= 120 /\
  let segs := buildTimeline (lit "AI studio launch") 45 (lit "cinematic") (lit "tiktok") in
  Datatypes.length segs = 5%nat
  /\ (exists first, segs !! 0%nat = Some first /\ Segment.start first = 0)
  /\ (forall (i : nat) a b, segs !! i = Some a -> segs !! S i = Some b ->
        Segment.start b = Segment.start a + Segment.duration a)
  /\ (forall (i : nat) a, segs !! i = Some a -> 3 <= Segment.duration a)
  /\ (forall (i j : nat) a b, (i < j)%nat ->
        segs !! i = Some a -> segs !! j = Some b ->
        segment_end a <= Segment.start b /\ Segment.start a < Segment.start b).
Proof.
  split; [lia|].
  apply (buildTimeline_five_contiguous
           (lit "AI studio launch") (lit "cinematic") (lit "tiktok") 45).
  lia.
Defined.

(** *** The timeline within the clamped range *)

(** The start and duration of each segment do not depend on the texts. *)
Lemma buildTimeline_map_extents topic D tone platform len pcts :
  forall index cursor,
    List.map extent (buildTimeline_map topic D tone platform len index cursor pcts)
    = List.map extent (buildTimeline_map [] D [] [] len index cursor pcts).
Proof.
  induction pcts as [|pct rest IH]; intros index cursor; [reflexivity|].
  cbn [buildTimeline_map List.map]. f_equal. apply IH.
Qed.

Lemma target_range_covers (D : Z) : 15 <= D <= 120 -> In D target_range.
Proof.
  intros HD. unfold target_range.
  apply in_map_iff. exists (Z.to_nat D). split; [lia|].
  apply in_seq. lia.
Qed.

(** On 15..120 the binary64 product floors to the same integer as the exact
    product with the percentage. *)
Lemma floor_of_product_exact (D : Z) :
  15 <= D <= 120 ->
  floor_of_product D 0.18 = D * 18 / 100
  /\ floor_of_product D 0.24 = D * 24 / 100
  /\ floor_of_product D 0.2 = D * 20 / 100.
Proof.
  intros HD.
  assert (forallb (fun d =>
            (floor_of_product d 0.18 =? d * 18 / 100)
            && (floor_of_product d 0.24 =? d * 24 / 100)
            && (floor_of_product d 0.2 =? d * 20 / 100)) target_range = true)
    as Hall by (vm_compute; reflexivity).
  rewrite forallb_forall in Hall.
  specialize (Hall D (target_range_covers D HD)).
  apply andb_prop in Hall as [Hall H3]. apply andb_prop in Hall as [H1 H2].
  repeat split; now apply Z.eqb_eq.
Qed.

(** On 15..120 the last beat is never pushed past the target: the five
    durations add up to the target duration. *)
Lemma buildTimeline_ends_at_target (topic tone platform : jsstring) (D : Z) :
  15 <= D <= 120 ->
  exists s, last (buildTimeline topic D tone platform) = Some s /\ segment_end s = D.
Proof.
  intros HD.
  assert (forallb (fun d =>
            match last (List.map extent (buildTimeline [] d [] [])) with
            | Some (start, duration) => start + duration =? d
            | None => false
            end) target_range = true)
    as Hall by (vm_compute; reflexivity).
  rewrite forallb_forall in Hall.
  specialize (Hall D (target_range_covers D HD)).
  unfold buildTimeline in *.
  rewrite <- (buildTimeline_map_extents topic D tone platform) in Hall.
  rewrite fmap_last in Hall.
  destruct (last (buildTimeline_map topic D tone platform _ _ _ _)) as [s|];
    [|discriminate Hall].
  exists s. split; [reflexivity|]. now apply Z.eqb_eq in Hall.
Qed.

(* ===================================================================== *)
(** ** Properties of the consumer *)
(* ===================================================================== *)

Import Page.

(** *** Splitting a text at line feeds *)

Lemma split_plain (r : jsstring) :
  no_line_feed r -> split line_feed r = [r].
Proof.
  induction r as [|c r IH]; intros Hr; [reflexivity|].
  cbn [split].
  destruct (N.eqb_spec c line_feed) as [->|Hne].
  - exfalso. apply Hr. now left.
  - rewrite IH; [reflexivity|]. intros Hin. apply Hr. now right.
Qed.

Lemma split_line (l rest : jsstring) :
  no_line_feed l ->
  split line_feed (l ++ line_feed :: rest) = l :: split line_feed rest.
Proof.
  induction l as [|c l IH]; intros Hl.
  - reflexivity.
  - cbn [app split].
    destruct (N.eqb_spec c line_feed) as [->|Hne].
    + exfalso. apply Hl. now left.
    + rewrite IH; [reflexivity|]. intros Hin. apply Hl. now right.
Qed.

Lemma unlines_cons (l : jsstring) (ls : list jsstring) :
  unlines (l :: ls) = l ++ line_feed :: unlines ls.
Proof. unfold unlines. cbn. now rewrite <- List.app_assoc. Qed.

Lemma unlines_app (ls ls' : list jsstring) :
  unlines (ls ++ ls') = unlines ls ++ unlines ls'.
Proof. unfold unlines. now rewrite List.map_app, List.concat_app. Qed.

Lemma split_unlines (ls : list jsstring) (r : jsstring) :
  List.Forall no_line_feed ls -> no_line_feed r ->
  split line_feed (unlines ls ++ r) = ls ++ [r].
Proof.
  intros Hls Hr. induction Hls as [|l ls Hl Hls IH].
  - now apply split_plain.
  - rewrite unlines_cons, <- List.app_assoc. cbn [app].
    rewrite split_line by assumption. now rewrite IH.
Qed.

(** Every text is a run of complete lines followed by a piece without a
    line feed. *)
Lemma text_lines (t : jsstring) :
  exists ls r, t = unlines ls ++ r /\ List.Forall no_line_feed ls /\ no_line_feed r.
Proof.
  induction t as [|c t (ls & r & -> & Hls & Hr)].
  - exists [], []. repeat split; [constructor | intros []].
  - destruct (N.eqb_spec c line_feed) as [->|Hne].
    + exists ([] :: ls), r. rewrite unlines_cons.
      repeat split; [constructor; [intros []|assumption] | assumption].
    + destruct Hls as [|l ls Hl Hls].
      * exists [], (c :: r). repeat split; [constructor|].
        intros [Heq|Hin]; [now apply Hne | now apply Hr].
      * exists ((c :: l) :: ls), r. rewrite !unlines_cons.
        repeat split; [constructor; [|assumption] | assumption].
        intros [Heq|Hin]; [now apply Hne | now apply Hl].
Qed.

Lemma complete_lines_unlines (ls : list jsstring) (r : jsstring) :
  List.Forall no_line_feed ls -> no_line_feed r ->
  complete_lines (unlines ls ++ r) = ls /\ last_piece (unlines ls ++ r) = r.
Proof.
  intros Hls Hr. unfold complete_lines, last_piece.
  rewrite split_unlines by assumption.
  rewrite List.removelast_last, last_snoc. now split.
Qed.

Lemma take_lines_spec (buffer value : jsstring) :
  take_lines buffer value
  = (complete_lines (buffer ++ value), last_piece (buffer ++ value)).
Proof. reflexivity. Qed.

Lemma lines_app (t u : jsstring) :
  complete_lines (t ++ u) = complete_lines t ++ complete_lines (last_piece t ++ u)
  /\ last_piece (t ++ u) = last_piece (last_piece t ++ u).
Proof.
  destruct (text_lines t) as (ls & r & -> & Hls & Hr).
  destruct (complete_lines_unlines ls r Hls Hr) as [-> ->].
  destruct (text_lines (r ++ u)) as (ls' & r' & Hru & Hls' & Hr').
  rewrite <- List.app_assoc, Hru.
  destruct (complete_lines_unlines ls' r' Hls' Hr') as [-> ->].
  rewrite List.app_assoc, <- unlines_app.
  apply complete_lines_unlines; [|assumption].
  apply List.Forall_app. now split.
Qed.

Lemma last_piece_no_line_feed (t : jsstring) : no_line_feed (last_piece t).
Proof.
  destruct (text_lines t) as (ls & r & -> & Hls & Hr).
  now destruct (complete_lines_unlines ls r Hls Hr) as [_ ->].
Qed.

Lemma complete_lines_plain (r : jsstring) :
  no_line_feed r -> complete_lines r = [].
Proof. intros Hr. unfold complete_lines. now rewrite split_plain. Qed.

Lemma complete_lines_of_unlines (ls : list jsstring) :
  List.Forall no_line_feed ls ->
  complete_lines (unlines ls) = ls /\ last_piece (unlines ls) = [].
Proof.
  intros Hls. rewrite <- (List.app_nil_r (unlines ls)).
  apply complete_lines_unlines; [assumption | intros []].
Qed.

(** *** A JSON text is not blank *)

Lemma trimStart_nil (s : jsstring) :
  trimStart s = [] -> List.Forall (fun c => isWhiteSpace c = true) s.
Proof.
  induction s as [|c r IH]; [constructor|].
  cbn [trimStart]. destruct (isWhiteSpace c) eqn:Hc; [|discriminate].
  intros Hr. constructor; [exact Hc | now apply IH].
Qed.

Lemma trimStart_all (s : jsstring) :
  List.Forall (fun c => isWhiteSpace c = true) (trimStart s) ->
  List.Forall (fun c => isWhiteSpace c = true) s.
Proof.
  induction s as [|c r IH]; [constructor|].
  cbn [trimStart]. destruct (isWhiteSpace c) eqn:Hc; [|trivial].
  intros Hr. constructor; [exact Hc | now apply IH].
Qed.

Lemma blank_all_white (s : jsstring) :
  truthy (trim s) = false -> List.Forall (fun c => isWhiteSpace c = true) s.
Proof.
  unfold trim, truthy. intros Hblank.
  destruct (rev (trimStart (rev (trimStart s)))) as [|c r] eqn:Hrev; [|discriminate].
  apply (f_equal (@rev _)) in Hrev. rewrite List.rev_involutive in Hrev. cbn in Hrev.
  apply trimStart_nil in Hrev.
  apply trimStart_all. apply List.Forall_rev in Hrev.
  now rewrite List.rev_involutive in Hrev.
Qed.

Lemma lex_default_white (c : code_unit) :
  isWhiteSpace c = true ->
  lex_default c = Some (LDefault, []) \/ lex_default c = None.
Proof.
  intros Hws. unfold lex_default.
  destruct (isJsonWhiteSpace c); [now left|]. right.
  repeat match goal with
         | |- context [(c =? ?k)%N] =>
           destruct (N.eqb_spec c k) as [->|?]; [vm_compute in Hws; discriminate|]
         end.
  unfold digit_value.
  destruct ((48 <=? c)%N && (c <=? 57)%N) eqn:Hdigit; [|reflexivity].
  apply andb_prop in Hdigit as [Hlo Hhi].
  apply N.leb_le in Hlo, Hhi.
  unfold isWhiteSpace in Hws.
  repeat (apply orb_prop in Hws as [Hws | Hws]);
    try (apply N.eqb_eq in Hws; lia).
  apply andb_prop in Hws as [H1 H2]. apply N.leb_le in H1, H2. lia.
Qed.

Lemma lex_white (s : jsstring) :
  List.Forall (fun c => isWhiteSpace c = true) s ->
  lex LDefault s = Some [] \/ lex LDefault s = None.
Proof.
  intros Hall. induction Hall as [|c r Hc Hr IH]; [now left|].
  cbn [lex lex_step].
  destruct (lex_default_white c Hc) as [-> | ->]; [|now right].
  destruct IH as [-> | ->]; [now left | now right].
Qed.

(** A text that [JSON.parse] accepts is not blank: the for loop does not
    skip it. *)
Lemma JSON_parse_not_blank (line : jsstring) (payload : json) :
  JSON_parse line = Some payload -> not_blank line.
Proof.
  unfold not_blank, JSON_parse. intros Hparse.
  destruct (truthy (trim line)) eqn:Hblank; [reflexivity|].
  apply blank_all_white, lex_white in Hblank.
  destruct Hblank as [Hlex | Hlex]; rewrite Hlex in Hparse; discriminate.
Qed.

(** *** The handler *)

Section HandlerFacts.

Variable ToNumber : json -> number.
Variable ToPropertyKey : option json -> jsstring.

Local Abbreviation progress_or := (Page.progress_or ToNumber).
Local Abbreviation artifact_key := (Page.artifact_key ToPropertyKey).
Local Abbreviation apply_payload := (Page.apply_payload ToNumber ToPropertyKey).
Local Abbreviation process_line := (Page.process_line ToNumber ToPropertyKey).
Local Abbreviation process_lines := (Page.process_lines ToNumber ToPropertyKey).
Local Abbreviation read_loop := (Page.read_loop ToNumber ToPropertyKey).
Local Abbreviation handleGenerate := (Page.handleGenerate ToNumber ToPropertyKey).

Lemma process_lines_app (st : ui) (a b : list jsstring) :
  process_lines st (a ++ b)
  = match process_lines st a with
    | normal st' => process_lines st' b
    | throw err st' => throw err st'
    end.
Proof.
  revert st. induction a as [|line a IH]; intros st; [reflexivity|].
  cbn [app Page.process_lines].
  destruct (process_line st line); [apply IH | reflexivity].
Qed.

(** The read loop does to the state what the for loop would do to all the
    complete lines of the text received, whatever the cuts between reads. *)
Lemma read_loop_lines (reads : list jsstring) (ending : read_end) :
  forall st buffer,
    no_line_feed buffer ->
    read_loop st buffer reads ending
    = after_reads ending (process_lines st (complete_lines (buffer ++ concat reads))).
Proof.
  induction reads as [|value rest IH]; intros st buffer Hbuffer.
  - cbn [concat Page.read_loop]. rewrite List.app_nil_r.
    rewrite complete_lines_plain by assumption. now destruct ending.
  - cbn [concat Page.read_loop].
    rewrite take_lines_spec, List.app_assoc.
    destruct (lines_app (buffer ++ value) (concat rest)) as [-> _].
    rewrite process_lines_app.
    destruct (process_lines st (complete_lines (buffer ++ value))) as [st'|err st'].
    + apply IH, last_piece_no_line_feed.
    + reflexivity.
Qed.

Lemma handleGenerate_lines (st0 : ui) (reads : list jsstring) (ending : read_end) :
  handleGenerate st0 (body reads ending)
  = settle (after_reads ending
              (process_lines (reset st0) (complete_lines (concat reads)))).
Proof.
  unfold Page.handleGenerate, Page.try_block, settle.
  rewrite read_loop_lines by (intros []). reflexivity.
Qed.

Lemma process_line_json (st : ui) (line : jsstring) (payload : json) :
  json_line line payload ->
  process_line st line = normal (apply_payload st payload).
Proof.
  intros (_ & Hparse & Hnull). unfold Page.process_line.
  rewrite (JSON_parse_not_blank line payload Hparse), Hparse. cbn [negb].
  now destruct payload.
Qed.

Lemma process_lines_json (lines : list jsstring) (payloads : list json) :
  List.Forall2 json_line lines payloads ->
  forall st, process_lines st lines = normal (fold_left apply_payload payloads st).
Proof.
  intros Hall. induction Hall as [|line payload lines payloads Hline Hrest IH];
    intros st; [reflexivity|].
  cbn [Page.process_lines fold_left].
  rewrite (process_line_json st line payload Hline). apply IH.
Qed.

Lemma json_lines_one_line (lines : list jsstring) (payloads : list json) :
  List.Forall2 json_line lines payloads -> List.Forall no_line_feed lines.
Proof.
  intros Hall. induction Hall as [|line payload lines payloads [Hline _] Hrest IH];
    constructor; assumption.
Qed.

(** C2. The line splitter puts a line back together and every line is
    parsed. When one JSON line, followed by its line feed, arrives cut in two
    reads at any place, the two reads together complete exactly that line,
    once, and leave the buffer empty, and the read loop ends with the payload
    [JSON.parse] makes of the line applied to the state exactly once. When
    one read holds several complete JSON lines, all of them are completed, in
    order, and the read loop ends with the payloads of all of them applied,
    in that order. A JSON line is a text without line feed that parses to a
    value other than null. *)
Theorem line_splitter_reassembles
    (st : ui) (line a b : jsstring) (payload : json)
    (lines : list jsstring) (payloads : list json) :
  json_line line payload ->
  a ++ b = line ++ [line_feed] ->
  List.Forall2 json_line lines payloads ->
  (fst (take_lines [] a) ++ fst (take_lines (snd (take_lines [] a)) b) = [line]
   /\ snd (take_lines (snd (take_lines [] a)) b) = []
   /\ read_loop st [] [a; b] done = normal (apply_payload st payload))
  /\ (take_lines [] (unlines lines) = (lines, [])
      /\ read_loop st [] [unlines lines] done
         = normal (fold_left apply_payload payloads st)).
Proof.
  intros Hjson Hcut Hjsons.
  pose proof Hjson as (Hline & _).
  pose proof (json_lines_one_line lines payloads Hjsons) as Hlines.
  assert (complete_lines (a ++ b) = [line] /\ last_piece (a ++ b) = []) as [Hc Hl].
  { rewrite Hcut.
    replace (line ++ [line_feed]) with (unlines [line])
      by (unfold unlines; cbn; apply List.app_nil_r).
    apply complete_lines_of_unlines. constructor; [assumption | constructor]. }
  destruct (complete_lines_of_unlines lines Hlines) as [Hc' Hl'].
  split; [split; [|split] | split].
  - rewrite !take_lines_spec. cbn [fst snd app].
    destruct (lines_app a b) as [<- _]. exact Hc.
  - rewrite !take_lines_spec. cbn [fst snd app].
    destruct (lines_app a b) as [_ <-]. exact Hl.
  - rewrite read_loop_lines by (intros []).
    cbn [concat app]. rewrite List.app_nil_r, Hc.
    cbn [Page.process_lines].
    now rewrite (process_line_json st line payload Hjson).
  - rewrite take_lines_spec. cbn [app]. now rewrite Hc', Hl'.
  - rewrite read_loop_lines by (intros []).
    cbn [concat app]. rewrite List.app_nil_r, Hc'.
    now rewrite (process_lines_json lines payloads Hjsons).
Qed.

(** *** Lines that are not events *)

Lemma progress_or_plain (prev : number) (payload : json) :
  plain_progress payload -> progress_or prev payload = progress_of prev payload.
Proof.
  unfold plain_progress, Page.progress_or, progress_of.
  now destruct (get (lit "progress") payload) as [[| | | | |]|].
Qed.

(** C3, as the handler has it. For a complete line that is not blank, coming
    after lines that were processed without error: when the line is not valid
    JSON, the handler shows an error and the state is the one reached before
    that line, so nothing after it is processed; when the line is valid JSON
    other than null, its type is none of the four discriminants and its
    progress is absent, null or a number, no error is raised: the line only
    takes part in the progress maximum, and the lines after it are processed
    as usual. *)
Theorem invalid_json_stops_unknown_type_continues
    (st0 st1 : ui) (reads : list jsstring) (ending : read_end)
    (before after : list jsstring) (line : jsstring) :
  complete_lines (concat reads) = before ++ line :: after ->
  process_lines (reset st0) before = normal st1 ->
  not_blank line ->
  (JSON_parse line = None ->
     handleGenerate st0 (body reads ending)
     = setIsGenerating false (setError (Some (syntax_error_message line)) st1))
  /\ (forall payload,
        JSON_parse line = Some payload -> payload <> JNull -> unknown_type payload ->
        plain_progress payload ->
        let st2 := setProgress (fun prev => Math_max prev (progress_of prev payload)) st1 in
        process_line st1 line = normal st2
        /\ handleGenerate st0 (body reads ending)
           = settle (after_reads ending (process_lines st2 after))).
Proof.
  intros Hlines Hbefore Hnot_blank.
  rewrite handleGenerate_lines, Hlines, process_lines_app, Hbefore.
  cbn [Page.process_lines].
  unfold Page.process_line. unfold not_blank in Hnot_blank. rewrite Hnot_blank.
  cbn [negb]. split.
  - intros ->. reflexivity.
  - intros payload -> Hnull (Hs & Ha & Ht & Hr) Hplain.
    assert (apply_payload st1 payload
            = setProgress (fun prev => Math_max prev (progress_of prev payload)) st1)
      as Happly.
    { unfold Page.apply_payload. rewrite Hs, Ha, Ht, Hr.
      unfold setProgress. now rewrite (progress_or_plain _ _ Hplain). }
    destruct payload; try contradiction; rewrite Happly; split; reflexivity.
Qed.

(** *** A stream that ends early *)

Lemma apply_payload_keeps_result (st : ui) (payload : json) :
  type_is payload "result" = false ->
  result (apply_payload st payload) = result st
  /\ error (apply_payload st payload) = error st
  /\ isGenerating (apply_payload st payload) = isGenerating st.
Proof.
  intros Hr. unfold Page.apply_payload. rewrite Hr.
  destruct (type_is payload "status"); [now repeat split|].
  destruct (type_is payload "asset"); [now repeat split|].
  destruct (type_is payload "timeline"); now repeat split.
Qed.

Lemma process_lines_keeps_result (lines : list jsstring) :
  forall st st',
    List.Forall not_result_line lines ->
    process_lines st lines = normal st' ->
    result st' = result st /\ error st' = error st
    /\ isGenerating st' = isGenerating st.
Proof.
  induction lines as [|line rest IH]; intros st st' Hall Hrun.
  - injection Hrun as <-. now repeat split.
  - apply List.Forall_cons_iff in Hall as [Hline Hrest].
    cbn [Page.process_lines] in Hrun.
    destruct (process_line st line) as [st2|] eqn:Hstep; [|discriminate].
    destruct (IH st2 st' Hrest Hrun) as (-> & -> & ->).
    unfold Page.process_line in Hstep.
    destruct (negb (truthy (trim line))); [injection Hstep as <-; now repeat split|].
    destruct (JSON_parse line) as [payload|] eqn:Hparse; [|discriminate].
    assert (type_is payload "result" = false) as Hr by now apply Hline.
    destruct payload; try discriminate; injection Hstep as <-;
      now apply apply_payload_keeps_result.
Qed.

(** C4. When the reads end with done after lines that were all processed
    without error and none of which was a result event, the handler leaves
    the loading state without an error, the result is still null, and the
    status feed, asset vault and segments are the ones built from the lines
    received. *)
Theorem short_stream_completes (st0 st1 : ui) (reads : list jsstring) :
  process_lines (reset st0) (complete_lines (concat reads)) = normal st1 ->
  List.Forall not_result_line (complete_lines (concat reads)) ->
  let final := handleGenerate st0 (body reads done) in
  isGenerating final = false
  /\ error final = None
  /\ result final = Some JNull
  /\ statusFeed final = statusFeed st1
  /\ assetVault final = assetVault st1
  /\ segments final = segments st1.
Proof.
  intros Hrun Hall final. subst final.
  rewrite handleGenerate_lines, Hrun.
  destruct (process_lines_keeps_result _ _ _ Hall Hrun) as (Hr & He & _).
  cbn. rewrite Hr, He. now repeat split.
Qed.

(** *** The asset vault *)

Lemma asset_is_not_status (payload : json) :
  type_is payload "asset" = true -> type_is payload "status" = false.
Proof.
  unfold type_is. destruct (get (lit "type") payload) as [[| | |t| |]|]; try discriminate.
  unfold jsstring_eqb. intros Ht. apply bool_decide_eq_true in Ht. now subst t.
Qed.

Lemma apply_asset (st : ui) (payload : json) :
  type_is payload "asset" = true ->
  assetVault (apply_payload st payload)
  = <[artifact_key payload := payload]> (assetVault st).
Proof.
  intros Ha. unfold Page.apply_payload.
  now rewrite (asset_is_not_status payload Ha), Ha.
Qed.

(** C7. The asset vault keeps the last write of each slot, and the slot of
    an asset event is its artifact text. After two asset events with the same
    artifact, applied in order, the entry under that artifact is the second
    event and every other key is as before; one asset event leaves every key
    but its artifact as it was; and an asset event for another artifact,
    applied afterwards, is stored under its own artifact and leaves the entry
    of the first slot in place. *)
Theorem asset_vault_last_write_wins
    (st : ui) (first second other : json) (slot other_slot : jsstring) :
  type_is first "asset" = true ->
  type_is second "asset" = true ->
  type_is other "asset" = true ->
  get (lit "artifact") first = Some (JStr slot) ->
  get (lit "artifact") second = Some (JStr slot) ->
  get (lit "artifact") other = Some (JStr other_slot) ->
  other_slot <> slot ->
  let vault := assetVault (apply_payload (apply_payload st first) second) in
  let vault' := assetVault (apply_payload (apply_payload (apply_payload st first) second)
                              other) in
  vault !! slot = Some second
  /\ (forall key, key <> slot -> vault !! key = assetVault st !! key)
  /\ (forall key, key <> slot ->
        assetVault (apply_payload st first) !! key = assetVault st !! key)
  /\ vault' !! slot = Some second
  /\ vault' !! other_slot = Some other.
Proof.
  intros H1 H2 H3 Hfirst Hsecond Hother Hne vault vault'. subst vault vault'.
  rewrite !apply_asset by assumption.
  unfold Page.artifact_key. rewrite Hfirst, Hsecond, Hother.
  split; [apply lookup_insert_eq|]. split.
  { intros key Hkey. rewrite !lookup_insert_ne by congruence. reflexivity. }
  split.
  { intros key Hkey. rewrite lookup_insert_ne by congruence. reflexivity. }
  split.
  - rewrite lookup_insert_ne by congruence. apply lookup_insert_eq.
  - apply lookup_insert_eq.
Qed.

End HandlerFacts.

(** *** The theorems above at concrete streams *)

Lemma no_line_feed_check (s : jsstring) :
  forallb (fun c => negb (c =? line_feed)%N) s = true -> no_line_feed s.
Proof.
  intros Hall Hin. rewrite forallb_forall in Hall.
  specialize (Hall _ Hin). now rewrite N.eqb_refl in Hall.
Qed.

Example example_lines_parse :
  List.map JSON_parse [briefing_line; ideation_line; script_line; banner_line; broken_line]
  = [Some briefing_payload; Some ideation_payload; Some (script_payload "HOOK");
     Some banner_payload; None].
Proof. vm_compute. reflexivity. Qed.

(** One status line cut after its tenth code unit, and one read holding a
    status line and an asset line. *)
Lemma line_splitter_reassembles_witness :
  (fst (take_lines [] (firstn 10 (briefing_line ++ [line_feed])))
   ++ fst (take_lines (snd (take_lines [] (firstn 10 (briefing_line ++ [line_feed]))))
                      (skipn 10 (briefing_line ++ [line_feed])))
   = [briefing_line]
   /\ snd (take_lines (snd (take_lines [] (firstn 10 (briefing_line ++ [line_feed]))))
                      (skipn 10 (briefing_line ++ [line_feed]))) = []
   /\ read_loop no_number no_key initial []
        [firstn 10 (briefing_line ++ [line_feed]);
         skipn 10 (briefing_line ++ [line_feed])] done
      = normal (apply_payload no_number no_key initial briefing_payload))
  /\ (take_lines [] (unlines [ideation_line; script_line])
      = ([ideation_line; script_line], [])
      /\ read_loop no_number no_key initial [] [unlines [ideation_line; script_line]] done
         = normal (fold_left (apply_payload no_number no_key)
                     [ideation_payload; script_payload "HOOK"] initial)).
Proof.
  apply (line_splitter_reassembles no_number no_key initial briefing_line
           (firstn 10 (briefing_line ++ [line_feed]))
           (skipn 10 (briefing_line ++ [line_feed]))
           briefing_payload
           [ideation_line; script_line] [ideation_payload; script_payload "HOOK"]).
  - split; [apply no_line_feed_check; vm_compute; reflexivity|].
    split; [vm_compute; reflexivity | discriminate].
  - apply firstn_skipn.
  - repeat constructor;
      try (apply no_line_feed_check; vm_compute; reflexivity);
      try (vm_compute; reflexivity); discriminate.
Defined.

(** C3 as the specification words it fails: a line that is JSON but carries
    an unknown type raises no error, and the status line after it is still
    added to the feed. *)
Lemma unknown_type_raises_no_error :
  JSON_parse banner_line = Some banner_payload
  /\ unknown_type banner_payload
  /\ error (handleGenerate no_number no_key initial
              (body [banner_line ++ [line_feed] ++ briefing_line ++ [line_feed]] done))
     = None
  /\ statusFeed (handleGenerate no_number no_key initial
                   (body [banner_line ++ [line_feed] ++ briefing_line ++ [line_feed]] done))
     = [briefing_payload].
Proof. vm_compute. repeat split. Qed.

Lemma invalid_json_stops_unknown_type_continues_witness :
  (handleGenerate no_number no_key initial
     (body [unlines [briefing_line; broken_line; ideation_line]] done)
   = setIsGenerating false
       (setError (Some (syntax_error_message broken_line))
          (state_of (process_lines no_number no_key (reset initial) [briefing_line]))))
  /\
  (let st1 := state_of (process_lines no_number no_key (reset initial) [briefing_line]) in
   let st2 :=
     setProgress (fun prev => Math_max prev (progress_of prev banner_payload)) st1 in
   process_line no_number no_key st1 banner_line = normal st2
   /\ handleGenerate no_number no_key initial
        (body [unlines [briefing_line; banner_line; ideation_line]] done)
      = settle (after_reads done (process_lines no_number no_key st2 [ideation_line]))).
Proof.
  split.
  - refine (proj1 (invalid_json_stops_unknown_type_continues no_number no_key
             initial
             (state_of (process_lines no_number no_key (reset initial) [briefing_line]))
             [unlines [briefing_line; broken_line; ideation_line]] done
             [briefing_line] [ideation_line] broken_line _ _ _) _).
    + vm_compute. reflexivity.
    + vm_compute. reflexivity.
    + vm_compute. reflexivity.
    + vm_compute. reflexivity.
  - refine (proj2 (invalid_json_stops_unknown_type_continues no_number no_key
             initial
             (state_of (process_lines no_number no_key (reset initial) [briefing_line]))
             [unlines [briefing_line; banner_line; ideation_line]] done
             [briefing_line] [ideation_line] banner_line _ _ _) banner_payload _ _ _ _).
    + vm_compute. reflexivity.
    + vm_compute. reflexivity.
    + vm_compute. reflexivity.
    + vm_compute. reflexivity.
    + discriminate.
    + vm_compute. repeat split.
    + vm_compute. exact I.
Defined.

(** The scenario of the specification: the reads end after three events, the
    second one cut between two reads, with the start of a fourth line left in
    the buffer. *)
Lemma short_stream_completes_witness :
  let reads := [briefing_line ++ [line_feed] ++ firstn 12 ideation_line;
                skipn 12 ideation_line ++ [line_feed] ++ script_line ++ [line_feed]
                  ++ firstn 7 briefing_line] in
  let st1 := state_of (process_lines no_number no_key (reset initial)
                         [briefing_line; ideation_line; script_line]) in
  let final := handleGenerate no_number no_key initial (body reads done) in
  complete_lines (concat reads) = [briefing_line; ideation_line; script_line]
  /\ isGenerating final = false
  /\ error final = None
  /\ result final = Some JNull
  /\ statusFeed final = statusFeed st1
  /\ assetVault final = assetVault st1
  /\ segments final = segments st1.
Proof.
  split; [vm_compute; reflexivity|].
  apply (short_stream_completes no_number no_key initial
           (state_of (process_lines no_number no_key (reset initial)
                        [briefing_line; ideation_line; script_line]))).
  - vm_compute. reflexivity.
  - change (List.Forall not_result_line [briefing_line; ideation_line; script_line]).
    repeat constructor; intros payload Hparse; vm_compute in Hparse;
      injection Hparse as <-; reflexivity.
Defined.

Example short_stream_state :
  let final := handleGenerate no_number no_key initial
                 (body [unlines [briefing_line; ideation_line; script_line]] done) in
  statusFeed final = [briefing_payload; ideation_payload]
  /\ assetVault final !! lit "script" = Some (script_payload "HOOK")
  /\ segments final = Some (JArr [])
  /\ progress final = Num (Decimal 42 (-2)).
Proof. vm_compute. repeat split. Qed.

Lemma asset_vault_last_write_wins_witness :
  let vault :=
    assetVault (apply_payload no_number no_key
                  (apply_payload no_number no_key initial (script_payload "HOOK"))
                  (script_payload "HOOK, second draft")) in
  let vault' :=
    assetVault (apply_payload no_number no_key
                  (apply_payload no_number no_key
                     (apply_payload no_number no_key initial (script_payload "HOOK"))
                     (script_payload "HOOK, second draft"))
                  overlays_payload) in
  vault !! lit "script" = Some (script_payload "HOOK, second draft")
  /\ (forall key, key <> lit "script" -> vault !! key = assetVault initial !! key)
  /\ (forall key, key <> lit "script" ->
        assetVault (apply_payload no_number no_key initial (script_payload "HOOK")) !! key
        = assetVault initial !! key)
  /\ vault' !! lit "script" = Some (script_payload "HOOK, second draft")
  /\ vault' !! lit "overlays" = Some overlays_payload.
Proof.
  apply (asset_vault_last_write_wins no_number no_key initial
           (script_payload "HOOK") (script_payload "HOOK, second draft")
           overlays_payload (lit "script") (lit "overlays"));
    try (vm_compute; reflexivity).
  vm_compute. discriminate.
Defined.

(* ===================================================================== *)
(** ** Further properties of the consumer *)
(* ===================================================================== *)

Section StreamFacts.

Variable ToNumber : json -> number.
Variable ToPropertyKey : option json -> jsstring.

Local Abbreviation progress_or := (Page.progress_or ToNumber).
Local Abbreviation artifact_key := (Page.artifact_key ToPropertyKey).
Local Abbreviation apply_payload := (Page.apply_payload ToNumber ToPropertyKey).
Local Abbreviation process_line := (Page.process_line ToNumber ToPropertyKey).
Local Abbreviation process_lines := (Page.process_lines ToNumber ToPropertyKey).
Local Abbreviation read_loop := (Page.read_loop ToNumber ToPropertyKey).
Local Abbreviation handleGenerate := (Page.handleGenerate ToNumber ToPropertyKey).

(** X1. The state the handler ends in depends on the text received and on
    nothing else: not on how the transport cut the text into reads, and not
    on the state the previous run left, every cell of which is written
    before the request. Two runs whose reads have the same concatenation and
    end the same way end in the same state. *)
Theorem handleGenerate_ignores_chunking
    (st0 st0' : ui) (reads reads' : list jsstring) (ending : read_end) :
  concat reads = concat reads' ->
  handleGenerate st0 (body reads ending) = handleGenerate st0' (body reads' ending).
Proof.
  intros Hsame. now rewrite !(handleGenerate_lines ToNumber ToPropertyKey), Hsame.
Qed.

(** X2. Text after the last line feed is never parsed, not even when the
    stream ends: the handler ends as if only the complete lines had been
    sent. A last event that lacks its line feed is lost without an error. *)
Theorem unterminated_tail_is_never_parsed
    (st0 : ui) (reads : list jsstring) (ending : read_end)
    (lines : list jsstring) (tail : jsstring) :
  List.Forall no_line_feed lines ->
  no_line_feed tail ->
  concat reads = unlines lines ++ tail ->
  handleGenerate st0 (body reads ending)
  = handleGenerate st0 (body [unlines lines] ending)
  /\ handleGenerate st0 (body reads ending)
     = settle (after_reads ending (process_lines (reset st0) lines)).
Proof.
  intros Hlines Htail Htext.
  rewrite !(handleGenerate_lines ToNumber ToPropertyKey), Htext.
  cbn [concat]. rewrite List.app_nil_r.
  destruct (complete_lines_unlines lines tail Hlines Htail) as [-> _].
  destruct (complete_lines_of_unlines lines Hlines) as [-> _].
  now split.
Qed.

(** X3. Blank lines, those that trim to the empty string, change nothing and
    raise nothing: the for loop does the same with and without them. *)
Theorem blank_lines_are_skipped (lines : list jsstring) :
  forall st,
    process_lines st (List.filter (fun line => truthy (trim line)) lines)
    = process_lines st lines.
Proof.
  induction lines as [|line rest IH]; intros st; [reflexivity|].
  cbn [List.filter Page.process_lines].
  destruct (truthy (trim line)) eqn:Hblank.
  - cbn [Page.process_lines].
    destruct (process_line st line); [apply IH | reflexivity].
  - unfold Page.process_line. rewrite Hblank. cbn [negb]. apply IH.
Qed.

(** X4. When the request fails before any read, because fetch rejects or the
    response has no body, the handler ends with the error shown, not loading,
    and every other cell at its initial value, whatever the previous run
    left: the message is the one of the Error, the fixed text for a missing
    body, and Unknown error for a thrown value that is not an Error. *)
Theorem transport_failure_shows_error (st0 : ui) :
  handleGenerate st0 no_body
  = setError (Some (message_text (lit "Streaming channel unavailable."))) initial
  /\ handleGenerate st0 (fetch_rejected thrown_value)
     = setError (Some (message_text (lit "Unknown error"))) initial
  /\ (forall err, handleGenerate st0 (fetch_rejected err)
                  = setError (Some (catch_message err)) initial).
Proof. repeat split. Qed.

(** X5. When a read is rejected after lines that were processed without
    error, the handler shows the error of the read and leaves loading; what
    those lines wrote to the state stays. *)
Theorem rejected_read_keeps_partial_state
    (st0 st1 : ui) (reads : list jsstring) (err : exn) :
  process_lines (reset st0) (complete_lines (concat reads)) = normal st1 ->
  handleGenerate st0 (body reads (read_rejected err))
  = setIsGenerating false (setError (Some (catch_message err)) st1).
Proof.
  intros Hrun. now rewrite (handleGenerate_lines ToNumber ToPropertyKey), Hrun.
Qed.

(** *** What one event writes *)

Lemma type_is_exclusive (payload : json) (name other : string) :
  type_is payload name = true -> lit name <> lit other ->
  type_is payload other = false.
Proof.
  unfold type_is.
  destruct (get (lit "type") payload) as [[| | |t| |]|]; try discriminate.
  unfold jsstring_eqb. intros Ht Hne. apply bool_decide_eq_true in Ht. subst t.
  now apply bool_decide_eq_false.
Qed.

Ltac other_types H :=
  repeat match goal with
  | |- context [type_is ?p ?n] =>
    rewrite (type_is_exclusive p _ n H) by (vm_compute; discriminate)
  end.

(** X6. Each known event writes its own cell and the progress, nothing else:
    a status is appended to the feed, an asset replaces the entry of its
    slot, a timeline replaces the segments, a result sets the result and the
    progress to 1; the error and the loading flag are never touched. *)
Theorem apply_payload_frame (st : ui) (payload : json) :
  (type_is payload "status" = true ->
     statusFeed (apply_payload st payload) = statusFeed st ++ [payload]
     /\ assetVault (apply_payload st payload) = assetVault st
     /\ segments (apply_payload st payload) = segments st
     /\ result (apply_payload st payload) = result st)
  /\ (type_is payload "asset" = true ->
        statusFeed (apply_payload st payload) = statusFeed st
        /\ assetVault (apply_payload st payload)
           = <[artifact_key payload := payload]> (assetVault st)
        /\ segments (apply_payload st payload) = segments st
        /\ result (apply_payload st payload) = result st)
  /\ (type_is payload "timeline" = true ->
        statusFeed (apply_payload st payload) = statusFeed st
        /\ assetVault (apply_payload st payload) = assetVault st
        /\ segments (apply_payload st payload) = get (lit "segments") payload
        /\ result (apply_payload st payload) = result st)
  /\ (type_is payload "result" = true ->
        statusFeed (apply_payload st payload) = statusFeed st
        /\ assetVault (apply_payload st payload) = assetVault st
        /\ segments (apply_payload st payload) = segments st
        /\ result (apply_payload st payload) = get (lit "deliverables") payload
        /\ progress (apply_payload st payload) = one)
  /\ error (apply_payload st payload) = error st
  /\ isGenerating (apply_payload st payload) = isGenerating st.
Proof.
  split; [|split; [|split; [|split]]].
  - intros H. unfold Page.apply_payload. rewrite H. now repeat split.
  - intros H. unfold Page.apply_payload. other_types H. rewrite H. now repeat split.
  - intros H. unfold Page.apply_payload. other_types H. rewrite H. now repeat split.
  - intros H. unfold Page.apply_payload. other_types H. rewrite H. now repeat split.
  - unfold Page.apply_payload.
    destruct (type_is payload "status"); [now split|].
    destruct (type_is payload "asset"); [now split|].
    destruct (type_is payload "timeline"); [now split|].
    destruct (type_is payload "result"); now split.
Qed.

Lemma apply_payload_statusFeed (st : ui) (payload : json) :
  statusFeed (apply_payload st payload)
  = statusFeed st ++ (if type_is payload "status" then [payload] else []).
Proof.
  unfold Page.apply_payload.
  destruct (type_is payload "status"); [reflexivity|].
  rewrite List.app_nil_r.
  destruct (type_is payload "asset"); [reflexivity|].
  destruct (type_is payload "timeline"); [reflexivity|].
  destruct (type_is payload "result"); reflexivity.
Qed.

(** X7. The status feed only grows during a submission: whatever the lines,
    and whether or not one of them throws, the feed afterwards is the feed
    before followed by status events, at most one per line. *)
Theorem statusFeed_only_grows (lines : list jsstring) :
  forall st,
  exists added,
    statusFeed (state_of (process_lines st lines)) = statusFeed st ++ added
    /\ List.Forall (fun payload => type_is payload "status" = true) added
    /\ (Datatypes.length added <= Datatypes.length lines)%nat.
Proof.
  induction lines as [|line rest IH]; intros st.
  - exists []. cbn. rewrite List.app_nil_r. repeat split; [constructor | lia].
  - cbn [Page.process_lines].
    destruct (process_line st line) as [st'|err st'] eqn:Hstep.
    + destruct (IH st') as (added & Hfeed & Hall & Hlen).
      unfold Page.process_line in Hstep.
      destruct (negb (truthy (trim line))).
      { injection Hstep as <-. exists added. cbn [Datatypes.length].
        repeat split; [assumption | assumption | lia]. }
      destruct (JSON_parse line) as [payload|]; [|discriminate].
      assert (st' = apply_payload st payload) as ->
        by (destruct payload; try discriminate; now injection Hstep as <-).
      rewrite apply_payload_statusFeed in Hfeed.
      destruct (type_is payload "status") eqn:Htype.
      * exists (payload :: added). rewrite Hfeed, <- List.app_assoc.
        cbn [app Datatypes.length].
        repeat split; [constructor; assumption | lia].
      * exists added. rewrite List.app_nil_r in Hfeed. cbn [Datatypes.length].
        repeat split; [assumption | assumption | lia].
    + exists []. cbn [state_of Datatypes.length]. rewrite List.app_nil_r.
      unfold Page.process_line in Hstep.
      destruct (negb (truthy (trim line))); [discriminate|].
      destruct (JSON_parse line) as [payload|].
      * destruct payload; try discriminate. injection Hstep as _ <-.
        repeat split; [constructor | lia].
      * injection Hstep as _ <-. repeat split; [constructor | lia].
Qed.

Lemma decimal_leb_refl (a : decimal) : decimal_leb a a = true.
Proof. unfold decimal_leb. apply Z.leb_refl. Qed.

Lemma decimal_leb_total (a b : decimal) :
  decimal_leb a b = false -> decimal_leb b a = true.
Proof.
  unfold decimal_leb. rewrite (Z.min_comm (exponent b)).
  intros H. apply Z.leb_gt in H. apply Z.leb_le. lia.
Qed.

(** X8. The progress is a running maximum until the result arrives: an event
    other than a result, carrying a numeric progress, leaves the larger of
    the previous progress and its own, and leaves the progress alone when it
    carries none or null; a result sets the progress to 1 whatever came
    before, also when a larger value had been seen. *)
Theorem progress_is_running_maximum_until_result
    (st : ui) (payload : json) (a : decimal) :
  progress st = Num a ->
  (type_is payload "result" = true -> progress (apply_payload st payload) = one)
  /\ (type_is payload "result" = false ->
        (forall b, get (lit "progress") payload = Some (JNum b) ->
           exists r, progress (apply_payload st payload) = Num r
                     /\ (r = a \/ r = b)
                     /\ decimal_leb a r = true /\ decimal_leb b r = true)
        /\ (get (lit "progress") payload = None
            \/ get (lit "progress") payload = Some JNull ->
            progress (apply_payload st payload) = progress st)).
Proof.
  intros Ha.
  assert (type_is payload "result" = false ->
          progress (apply_payload st payload)
          = Math_max (progress st) (progress_or (progress st) payload)) as Hkeep.
  { intros Hr. unfold Page.apply_payload. rewrite Hr.
    destruct (type_is payload "status"); [reflexivity|].
    destruct (type_is payload "asset"); [reflexivity|].
    destruct (type_is payload "timeline"); reflexivity. }
  split; [|split].
  - intros Hr. unfold Page.apply_payload. other_types Hr. now rewrite Hr.
  - intros b Hb. rewrite (Hkeep H). unfold Page.progress_or. rewrite Hb, Ha.
    cbn [Math_max]. destruct (decimal_leb a b) eqn:Hab.
    + exists b. repeat split; [now right | assumption | apply decimal_leb_refl].
    + exists a. repeat split;
        [now left | apply decimal_leb_refl | now apply decimal_leb_total].
  - intros Hnone. rewrite (Hkeep H). unfold Page.progress_or.
    destruct Hnone as [-> | ->]; rewrite Ha; cbn [Math_max];
      now rewrite decimal_leb_refl.
Qed.

End StreamFacts.

(* ===================================================================== *)
(** ** Further properties of the producer *)
(* ===================================================================== *)

Import Contract View.

(** *** What the schema accepts *)

Lemma z_string_min_accepts (path : jsstring) (v : option json) (s : jsstring) :
  z_string_min 3 path v = inr s
  <-> v = Some (JStr s) /\ (3 <= Datatypes.length s)%nat.
Proof.
  unfold z_string_min, z_string.
  destruct v as [[| | |t| |]|]; try (split; [discriminate | intros [[=] _]]).
  destruct (Nat.ltb_spec (Datatypes.length t) 3).
  - split; [discriminate | intros [[= ->] ?]; lia].
  - split; [intros [= ->]; now split | now intros [[= ->] _]].
Qed.

Lemma z_default_string_accepts (d path : jsstring) (v : option json) (s : jsstring) :
  z_default d z_string path v = inr s
  <-> text_or_absent v /\ s = text_or d v.
Proof.
  unfold z_default, z_string, text_or_absent, text_or.
  destruct v as [[| | |t| |]|];
    try (split; [discriminate | intros [[[=] | [? [=]]] _]]).
  - split; [intros [= ->]; split; [right; now exists s | reflexivity]
           | now intros [_ ->]].
  - split; [intros [= ->]; split; [now left | reflexivity] | now intros [_ ->]].
Qed.

Lemma z_optional_string_accepts (path : jsstring) (v : option json) (o : option jsstring) :
  z_optional z_string path v = inr o
  <-> text_or_absent v /\ o = optional_text v.
Proof.
  unfold z_optional, z_string, text_or_absent, optional_text.
  destruct v as [[| | |t| |]|];
    try (split; [discriminate | intros [[[=] | [? [=]]] _]]).
  - split; [intros [= <-]; split; [right; now exists t | reflexivity]
           | now intros [_ ->]].
  - split; [intros [= <-]; split; [now left | reflexivity] | now intros [_ ->]].
Qed.

Lemma z_default_boolean_accepts (d : bool) (path : jsstring) (v : option json) (b : bool) :
  z_default d z_boolean path v = inr b
  <-> flag_or_absent v /\ b = flag_or d v.
Proof.
  unfold z_default, z_boolean, flag_or_absent, flag_or.
  destruct v as [[|c| | | |]|];
    try (split; [discriminate | intros [[[=] | [? [=]]] _]]).
  - split; [intros [= ->]; split; [right; now exists b | reflexivity]
           | now intros [_ ->]].
  - split; [intros [= ->]; split; [now left | reflexivity] | now intros [_ ->]].
Qed.

Lemma schema_accepted_brief (input : json) (payload : Brief.t) :
  ReelRequestSchema_parse input = inr payload ->
  acceptable input /\ payload = brief_of input.
Proof.
  unfold acceptable, brief_of.
  destruct input as [| | | | |members]; try discriminate.
  unfold ReelRequestSchema_parse, field.
  destruct (z_string_min 3 _ _) as [|a] eqn:H1; [discriminate|].
  destruct (z_default (lit "instagram") z_string _ _) as [|b] eqn:H2; [discriminate|].
  destruct (z_default (lit "cinematic") z_string _ _) as [|c] eqn:H3; [discriminate|].
  destruct (z_default (lit "30") z_string _ _) as [|d] eqn:H4; [discriminate|].
  destruct (z_default (lit "warm") z_string _ _) as [|e] eqn:H5; [discriminate|].
  destruct (z_optional z_string (lit "callToAction") _) as [|f] eqn:H6; [discriminate|].
  destruct (z_default (lit "general") z_string _ _) as [|g] eqn:H7; [discriminate|].
  destruct (z_default true z_boolean _ _) as [|h] eqn:H8; [discriminate|].
  destruct (z_optional z_string (lit "brandColor") _) as [|i] eqn:H9; [discriminate|].
  intros [= <-].
  apply z_string_min_accepts in H1 as [H1 H1'].
  apply z_default_string_accepts in H2 as [H2 ->].
  apply z_default_string_accepts in H3 as [H3 ->].
  apply z_default_string_accepts in H4 as [H4 ->].
  apply z_default_string_accepts in H5 as [H5 ->].
  apply z_optional_string_accepts in H6 as [H6 ->].
  apply z_default_string_accepts in H7 as [H7 ->].
  apply z_default_boolean_accepts in H8 as [H8 ->].
  apply z_optional_string_accepts in H9 as [H9 ->].
  rewrite H1. cbn [text_or].
  repeat split; try assumption; [now exists members | now exists a].
Qed.

Lemma schema_acceptable_parses (input : json) :
  acceptable input -> ReelRequestSchema_parse input = inr (brief_of input).
Proof.
  unfold acceptable, brief_of.
  intros ((members & ->) & (s & Hs & Hlen) & H2 & H3 & H4 & H5 & H6 & H7 & H8 & H9).
  unfold ReelRequestSchema_parse, field.
  rewrite (proj2 (z_string_min_accepts _ _ s) (conj Hs Hlen)).
  rewrite (proj2 (z_default_string_accepts _ _ _ _) (conj H2 eq_refl)).
  rewrite (proj2 (z_default_string_accepts _ _ _ _) (conj H3 eq_refl)).
  rewrite (proj2 (z_default_string_accepts _ _ _ _) (conj H4 eq_refl)).
  rewrite (proj2 (z_default_string_accepts _ _ _ _) (conj H5 eq_refl)).
  rewrite (proj2 (z_optional_string_accepts _ _ _) (conj H6 eq_refl)).
  rewrite (proj2 (z_default_string_accepts _ _ _ _) (conj H7 eq_refl)).
  rewrite (proj2 (z_default_boolean_accepts _ _ _ _) (conj H8 eq_refl)).
  rewrite (proj2 (z_optional_string_accepts _ _ _) (conj H9 eq_refl)).
  rewrite Hs. reflexivity.
Qed.

(** X9. The schema accepts a body exactly when it is an object whose topic
    is a text of at least three code units and whose other eight properties
    are each absent or of their type (null is not absent); the Brief is then
    made of the properties given and the defaults instagram, cinematic, 30,
    warm, general and true for those absent. Any other key is ignored. *)
Theorem schema_accepts_exactly (input : json) (payload : Brief.t) :
  ReelRequestSchema_parse input = inr payload
  <-> acceptable input /\ payload = brief_of input.
Proof.
  split; [apply schema_accepted_brief|].
  intros [Hok ->]. now apply schema_acceptable_parses.
Qed.

(** X10. A body that is accepted and has no length property gets the
    schema's default text 30 and so a target duration of 30 seconds; the 45
    of the route's fallback is only for a length text that does not start
    with a number. *)
Theorem omitted_length_means_thirty (input : json) (payload : Brief.t) :
  ReelRequestSchema_parse input = inr payload ->
  get (lit "length") input = None ->
  Brief.length payload = lit "30" /\ targetDuration payload = 30.
Proof.
  intros Hparse Hnone.
  destruct (schema_accepted_brief input payload Hparse) as [_ ->].
  unfold brief_of, targetDuration. cbn [Brief.length]. rewrite Hnone.
  split; reflexivity.
Qed.

(** *** The timeline, for every duration and within the clamped range *)

Lemma buildTimeline_map_step topic D tone platform len index cursor pct rest :
  exists seg,
    buildTimeline_map topic D tone platform len index cursor (pct :: rest)
    = seg :: buildTimeline_map topic D tone platform len (S index)
               (cursor + Segment.duration seg) rest
    /\ Segment.start seg = cursor
    /\ ((index = len - 1)%nat -> Segment.duration seg = Z.max (D - cursor) 3).
Proof.
  cbn [buildTimeline_map].
  match goal with |- exists seg, ?x :: _ = _ /\ _ => exists x end.
  split; [reflexivity|]. split; [reflexivity|].
  intros ->. cbn [Segment.duration]. now rewrite Nat.eqb_refl.
Qed.

Lemma buildTimeline_map_last topic D tone platform len pcts :
  forall index cursor,
    pcts <> [] ->
    (index + Datatypes.length pcts = len)%nat ->
    exists s,
      last (buildTimeline_map topic D tone platform len index cursor pcts) = Some s
      /\ D <= segment_end s.
Proof.
  induction pcts as [|pct rest IH]; intros index cursor Hne Hlen; [contradiction|].
  destruct (buildTimeline_map_step topic D tone platform len index cursor pct rest)
    as (seg & -> & Hstart & Hdur).
  destruct rest as [|pct' rest].
  - exists seg. split; [reflexivity|].
    cbn [Datatypes.length] in Hlen. unfold segment_end.
    rewrite Hstart, Hdur by lia. lia.
  - destruct (IH (S index) (cursor + Segment.duration seg)) as (s & Hlast & Hend);
      [discriminate | cbn [Datatypes.length] in *; lia |].
    exists s. split; [|assumption].
    rewrite last_cons, Hlast. reflexivity.
Qed.

Lemma buildTimeline_map_bounds topic D tone platform len pcts :
  forall index cursor,
    0 <= cursor ->
    List.Forall
      (fun s => 0 <= Segment.start s /\ 3 <= Segment.duration s
                /\ segment_end s <= Z.max D cursor + 3 * Z.of_nat (Datatypes.length pcts))
      (buildTimeline_map topic D tone platform len index cursor pcts).
Proof.
  induction pcts as [|pct rest IH]; intros index cursor Hcursor; [constructor|].
  cbn [buildTimeline_map]. cbv zeta.
  match goal with
  | |- List.Forall _ (Segment.Make _ _ _ ?d _ :: _) => set (sd := d)
  end.
  assert (3 <= sd /\ cursor + sd <= Z.max D cursor + 3) as [Hlo Hhi].
  { subst sd. destruct (index =? len - 1)%nat; cbn [negb andb].
    - lia.
    - destruct (Z.leb_spec D (cursor + Z.max 3 (floor_of_product D pct))); lia. }
  cbn [Datatypes.length]. rewrite Nat2Z.inj_succ.
  constructor.
  - unfold segment_end. cbn [Segment.start Segment.duration]. lia.
  - eapply List.Forall_impl; [|apply (IH (S index) (cursor + sd)); lia].
    intros s (Hstart & Hduration & Hend). repeat split; try assumption. lia.
Qed.

(** X11. The timeline never ends early. For every integer duration of
    magnitude at most 2 ^ 52, the timeline ends at or after the target, and
    never before 15 seconds, five beats of at least 3 seconds each: a target
    below 15 is always overrun. Within that bound every start, duration and
    end is a non-negative integer below 2 ^ 53, which the doubles of the code
    hold, add and compare exactly, so the integers of the model are the
    numbers of the code. *)
Theorem buildTimeline_never_ends_early (topic tone platform : jsstring) (D : Z) :
  Z.abs D <= 2 ^ 52 ->
  (exists s,
     last (buildTimeline topic D tone platform) = Some s
     /\ D <= segment_end s
     /\ 15 <= segment_end s)
  /\ List.Forall
       (fun s => 0 <= Segment.start s /\ 3 <= Segment.duration s
                 /\ segment_end s < 2 ^ 53)
       (buildTimeline topic D tone platform).
Proof.
  intros HD. split.
  - destruct (buildTimeline_map_last topic D tone platform
                (Datatypes.length beatPercents) beatPercents 0%nat 0)
      as (s & Hlast & Hend); [discriminate | reflexivity |].
    fold (buildTimeline topic D tone platform) in Hlast.
    exists s. split; [assumption|]. split; [assumption|].
    revert Hlast. timeline_segments topic D tone platform.
    cbn. intros [= <-]. unfold segment_end. lia.
  - eapply List.Forall_impl;
      [|apply (buildTimeline_map_bounds topic D tone platform
                 (Datatypes.length beatPercents) beatPercents 0%nat 0); lia].
    intros s (Hstart & Hduration & Hend). repeat split; try assumption.
    change (Z.of_nat (Datatypes.length beatPercents)) with 5 in Hend.
    change (2 ^ 53) with (2 ^ 52 + 2 ^ 52). change (2 ^ 52) with 4503599627370496 in *.
    lia.
Qed.

(** X12. Within the clamped range 15..120 the durations of the five segments
    are max(3, floor(18% D)), max(3, floor(24% D)), max(3, floor(20% D)) twice
    and the remainder, which is at least 3: the shrinking branch is never
    taken, binary64 rounding never changes a floor, and the five durations
    add up to the target exactly. *)
Theorem buildTimeline_durations_in_range (topic tone platform : jsstring) (D : Z) :
  15 <= D <= 120 ->
  let hook := Z.max 3 (D * 18 / 100) in
  let pain := Z.max 3 (D * 24 / 100) in
  let beat := Z.max 3 (D * 20 / 100) in
  let rest := D - (hook + pain + beat + beat) in
  List.map Segment.duration (buildTimeline topic D tone platform)
  = [hook; pain; beat; beat; rest]
  /\ 3 <= rest
  /\ (exists s, last (buildTimeline topic D tone platform) = Some s
                /\ segment_end s = D).
Proof.
  intros HD. cbv zeta.
  assert (forallb (fun d =>
            bool_decide
              (List.map extent (buildTimeline [] d [] [])
               = let h := Z.max 3 (d * 18 / 100) in
                 let p := Z.max 3 (d * 24 / 100) in
                 let b := Z.max 3 (d * 20 / 100) in
                 [(0, h); (h, p); (h + p, b); (h + p + b, b);
                  (h + p + b + b, d - (h + p + b + b))])
            && (3 <=? d - (Z.max 3 (d * 18 / 100) + Z.max 3 (d * 24 / 100)
                           + Z.max 3 (d * 20 / 100) + Z.max 3 (d * 20 / 100))))
            target_range = true)
    as Hall by (vm_compute; reflexivity).
  rewrite forallb_forall in Hall.
  specialize (Hall D (target_range_covers D HD)).
  apply andb_prop in Hall as [Hext Hrest].
  apply bool_decide_eq_true in Hext. apply Z.leb_le in Hrest.
  unfold buildTimeline in *.
  rewrite <- (buildTimeline_map_extents topic D tone platform) in Hext.
  cbv zeta in Hext.
  destruct (buildTimeline_map topic D tone platform _ _ _ _)
    as [|s0 [|s1 [|s2 [|s3 [|s4 [|s5 more]]]]]]; try discriminate Hext.
  unfold extent in Hext. cbn [List.map] in Hext. simplify_eq.
  split; [cbn [List.map]; congruence|]. split; [assumption|].
  exists s4. split; [reflexivity|]. unfold segment_end. lia.
Qed.

(** *** The total the page shows *)

Lemma totalDuration_from (segments : list Segment.t) :
  forall acc,
    let total := fold_left
      (fun acc seg =>
         let end_ := Segment.start seg + Segment.duration seg in
         if acc <? end_ then end_ else acc) segments acc in
    acc <= total
    /\ (forall s, In s segments -> segment_end s <= total)
    /\ (total = acc \/ exists s, In s segments /\ total = segment_end s).
Proof.
  induction segments as [|seg rest IH]; intros acc; cbn [fold_left].
  - repeat split; [lia | intros s [] | now left].
  - cbv zeta.
    destruct (IH (if acc <? Segment.start seg + Segment.duration seg
                  then Segment.start seg + Segment.duration seg else acc))
      as (Hacc & Hall & Hwho).
    cbv zeta in Hacc, Hall, Hwho.
    destruct (Z.ltb_spec acc (Segment.start seg + Segment.duration seg)).
    + repeat split; [lia | |].
      * intros s [<-|Hin]; [unfold segment_end; lia | now apply Hall].
      * right. destruct Hwho as [-> | (s & Hin & ->)];
          [exists seg; split; [now left | reflexivity]
          | exists s; split; [now right | reflexivity]].
    + repeat split; [lia | |].
      * intros s [<-|Hin]; [unfold segment_end; lia | now apply Hall].
      * destruct Hwho as [-> | (s & Hin & ->)];
          [now left | right; exists s; split; [now right | reflexivity]].
Qed.

(** X13. For segments of whole seconds, start and duration of magnitude at
    most 2 ^ 52 so that the page's doubles add them exactly, the total the
    page computes is the largest end of a segment, and 0 when there is none
    or all ends are negative; so the end shown for a segment, the smaller of
    the total and its own end, is always its own end. *)
Theorem totalDuration_is_largest_end (segments : list Segment.t) :
  List.Forall whole_seconds segments ->
  0 <= totalDuration segments
  /\ (forall s, In s segments -> segment_end s <= totalDuration segments)
  /\ (totalDuration segments = 0
      \/ exists s, In s segments /\ totalDuration segments = segment_end s)
  /\ (forall s, In s segments -> shown_end segments s = segment_end s)
  /\ Z.abs (totalDuration segments) <= 2 ^ 53.
Proof.
  intros Hwhole.
  destruct (totalDuration_from segments 0) as (H0 & Hall & Hwho).
  unfold shown_end, totalDuration. cbv zeta in *.
  split; [assumption|]. split; [assumption|]. split; [assumption|]. split.
  - intros s Hin. specialize (Hall s Hin). unfold segment_end in *. lia.
  - destruct Hwho as [-> | (s & Hin & ->)]; [lia|].
    rewrite List.Forall_forall in Hwhole.
    destruct (Hwhole s Hin) as [Hstart Hduration].
    unfold segment_end. change (2 ^ 53) with (2 ^ 52 + 2 ^ 52). lia.
Qed.

Lemma totalDuration_buildTimeline (topic tone platform : jsstring) (D : Z) :
  exists s, last (buildTimeline topic D tone platform) = Some s
            /\ totalDuration (buildTimeline topic D tone platform) = segment_end s.
Proof.
  timeline_segments topic D tone platform.
  exists s4. split; [reflexivity|].
  unfold totalDuration, segment_end. cbn [fold_left]. cbv beta zeta.
  repeat (match goal with
          | |- context [?a <? ?b] => destruct (Z.ltb_spec a b)
          end; cbv iota); lia.
Qed.

(** X14. For the timeline of a valid Brief, the total the page computes is
    the target duration, the one the result event reports as the duration of
    the deliverables. *)
Theorem totalDuration_of_route_timeline (payload : Brief.t) :
  forall tl final,
    In (Route.timeline tl) (eventSequence payload) ->
    In (Route.result final) (eventSequence payload) ->
    totalDuration (Timeline.segments tl) = targetDuration payload
    /\ Deliverables.duration (Result.deliverables final) = targetDuration payload.
Proof.
  intros tl final Htl Hfinal.
  unfold eventSequence in Htl, Hfinal.
  repeat (destruct Htl as [Heq | Htl]; [try discriminate Heq|]); [|destruct Htl].
  injection Heq as <-.
  repeat (destruct Hfinal as [Heq | Hfinal]; [try discriminate Heq|]);
    [|destruct Hfinal].
  injection Heq as <-.
  cbn [Timeline.segments Result.deliverables Deliverables.duration].
  split; [|reflexivity].
  pose proof (effective_duration_range (Brief.length payload)) as HD.
  rewrite <- targetDuration_effective in HD.
  destruct (buildTimeline_ends_at_target (Brief.topic payload) (Brief.tone payload)
              (Brief.platform payload) (targetDuration payload) HD)
    as (s & Hlast & Hend).
  destruct (totalDuration_buildTimeline (Brief.topic payload) (Brief.tone payload)
              (Brief.platform payload) (targetDuration payload))
    as (s' & Hlast' & ->).
  rewrite Hlast in Hlast'. now injection Hlast' as <-.
Qed.

(* ===================================================================== *)
(** ** The round trip through JSON text *)
(* ===================================================================== *)

Import Stringify Roundtrip.

(** *** The lexer over a concatenation *)

Lemma lex_run_app (a b : jsstring) :
  forall m,
    lex_run m (a ++ b)
    = match lex_run m a with
      | Some (m', ts) =>
        match lex_run m' b with
        | Some (m'', ts') => Some (m'', ts ++ ts')
        | None => None
        end
      | None => None
      end.
Proof.
  induction a as [|c a IH]; intros m.
  - cbn [app lex_run]. now destruct (lex_run m b) as [[m' ts]|].
  - cbn [app lex_run]. destruct (lex_step m c) as [[m1 t1]|]; [|reflexivity].
    rewrite IH. destruct (lex_run m1 a) as [[m2 t2]|]; [|reflexivity].
    destruct (lex_run m2 b) as [[m3 t3]|]; [|reflexivity].
    now rewrite List.app_assoc.
Qed.

Lemma lex_of_run (s : jsstring) :
  forall m,
    lex m s
    = match lex_run m s with
      | Some (m', ts) => option_map (app ts) (lex m' [])
      | None => None
      end.
Proof.
  induction s as [|c s IH]; intros m.
  - cbn [lex_run]. now destruct (lex m []).
  - cbn [lex lex_run]. destruct (lex_step m c) as [[m1 t1]|]; [|reflexivity].
    rewrite IH. destruct (lex_run m1 s) as [[m2 t2]|]; [|reflexivity].
    destruct m2; cbn; try reflexivity; [now rewrite List.app_assoc|].
    destruct (num_token ns); cbn; [now rewrite List.app_assoc | reflexivity].
Qed.

Lemma settles_default (tk : list token) : settles LDefault tk tk.
Proof.
  split.
  - intros c p Hc. exists [p]. split; [|reflexivity].
    unfold delimiter in Hc. cbn [lex_step]. unfold lex_default.
    destruct (N.eqb_spec c 44) as [->|]; [now injection Hc as <-|].
    destruct (N.eqb_spec c 93) as [->|]; [now injection Hc as <-|].
    destruct (N.eqb_spec c 125) as [->|]; [now injection Hc as <-|discriminate].
  - cbn. now rewrite List.app_nil_r.
Qed.

Lemma settles_number (ns : num_state) (t : token) :
  num_token ns = Some t -> settles (LNumber ns) [] [t].
Proof.
  intros Ht. split.
  - intros c p Hc. exists [t; p]. split; [|reflexivity].
    assert (lex_default c = Some (LDefault, [p]) /\ digit_value c = None
            /\ (c =? 46)%N = false /\ ((c =? 101) || (c =? 69))%N = false
            /\ (c =? 43)%N = false /\ (c =? 45)%N = false) as (Hd & Hv & Hdot & He & _ & _).
    { unfold delimiter in Hc.
      destruct (N.eqb_spec c 44) as [->|]; [now injection Hc as <-|].
      destruct (N.eqb_spec c 93) as [->|]; [now injection Hc as <-|].
      destruct (N.eqb_spec c 125) as [->|]; [now injection Hc as <-|discriminate]. }
    cbn [lex_step]. unfold lex_number. rewrite Hv, Hdot, He.
    pose proof Ht as Hphase. unfold num_token in Hphase.
    destruct (n_phase ns); try discriminate Hphase; cbv zeta; now rewrite Ht, Hd.
  - cbn [lex]. now rewrite Ht.
Qed.

(** *** Quoted strings *)

Lemma hex_value_digit (d : N) : (d < 16)%N -> hex_value (hex_digit d) = Some d.
Proof.
  intros Hd.
  assert (forallb (fun d => bool_decide (hex_value (hex_digit d) = Some d))
            (List.map N.of_nat (seq 0 16)) = true) as Hall by reflexivity.
  rewrite forallb_forall in Hall.
  eapply bool_decide_eq_true_1, Hall, in_map_iff.
  exists (N.to_nat d). split; [lia | apply in_seq; lia].
Qed.

Lemma hex_recombine_Z (c : Z) :
  0 <= c < 65536 ->
  (((c / 4096) mod 16 * 16 + (c / 256) mod 16) * 16 + (c / 16) mod 16) * 16
  + c mod 16 = c.
Proof.
  intros Hc.
  assert (c / 16 = (c / 256) * 16 + (c / 16) mod 16).
  { replace (c / 256) with (c / 16 / 16) by (rewrite Z.div_div by lia; reflexivity).
    pose proof (Z.div_mod (c / 16) 16). lia. }
  assert (c / 256 = (c / 4096) * 16 + (c / 256) mod 16).
  { replace (c / 4096) with (c / 256 / 16) by (rewrite Z.div_div by lia; reflexivity).
    pose proof (Z.div_mod (c / 256) 16). lia. }
  assert ((c / 4096) mod 16 = c / 4096).
  { apply Z.mod_small. split; [apply Z.div_pos; lia | apply Z.div_lt_upper_bound; lia]. }
  pose proof (Z.div_mod c 16). lia.
Qed.

Lemma hex_recombine (c : N) :
  (c < 65536)%N ->
  ((((c / 4096) mod 16 * 16 + (c / 256) mod 16) * 16 + (c / 16) mod 16) * 16
   + c mod 16 = c)%N.
Proof.
  intros Hc. apply N2Z.inj.
  repeat (rewrite ?N2Z.inj_add, ?N2Z.inj_mul, ?N2Z.inj_mod, ?N2Z.inj_div).
  apply hex_recombine_Z. lia.
Qed.

Lemma unicode_step (acc : jsstring) (hex : list N) (d : N) :
  (d < 16)%N ->
  lex_step (LUnicode acc hex) (hex_digit d)
  = Some (match hex with
          | [h1; h2; h3] => LString ((((h1 * 16 + h2) * 16 + h3) * 16 + d)%N :: acc)
          | _ => LUnicode acc (hex ++ [d])
          end, []).
Proof.
  intros Hd. cbn [lex_step]. rewrite hex_value_digit by assumption.
  destruct hex as [|? [|? [|? [|? ?]]]]; reflexivity.
Qed.

Lemma unicode_escape_lex (c : code_unit) (acc : jsstring) :
  (c < 65536)%N ->
  lex_run (LString acc) (unicode_escape c) = Some (LString (c :: acc), []).
Proof.
  intros Hc. unfold unicode_escape. cbn [lex_run].
  change (lex_step (LString acc) 92%N) with (Some (LEscape acc, @nil token)).
  cbv iota beta.
  change (lex_step (LEscape acc) 117%N) with (Some (LUnicode acc [], @nil token)).
  cbv iota beta.
  do 4 (rewrite unicode_step by (apply N.mod_lt; discriminate);
        cbv iota beta; cbn [app]).
  now rewrite hex_recombine.
Qed.

Lemma plain_unit_lex (c : code_unit) (acc : jsstring) :
  (c =? 34)%N = false -> (c =? 92)%N = false -> (c <? 0x20)%N = false ->
  lex_step (LString acc) c = Some (LString (c :: acc), []).
Proof. intros H1 H2 H3. cbn [lex_step]. now rewrite H1, H2, H3. Qed.

Lemma quote_unit_lex (c : code_unit) (acc : jsstring) :
  lex_run (LString acc) (quote_unit c) = Some (LString (c :: acc), []).
Proof.
  unfold quote_unit.
  destruct (N.eqb_spec c 8) as [->|]; [reflexivity|].
  destruct (N.eqb_spec c 9) as [->|]; [reflexivity|].
  destruct (N.eqb_spec c 10) as [->|]; [reflexivity|].
  destruct (N.eqb_spec c 12) as [->|]; [reflexivity|].
  destruct (N.eqb_spec c 13) as [->|]; [reflexivity|].
  destruct (N.eqb_spec c 34) as [->|H34]; [reflexivity|].
  destruct (N.eqb_spec c 92) as [->|H92]; [reflexivity|].
  destruct (N.ltb_spec c 0x20) as [Hlow|Hhigh].
  - apply unicode_escape_lex. lia.
  - cbn [lex_run]. rewrite plain_unit_lex; [reflexivity | | |].
    + now apply N.eqb_neq.
    + now apply N.eqb_neq.
    + now apply N.ltb_ge.
Qed.

Lemma surrogate_lex (c : code_unit) (acc : jsstring) :
  is_leading c || is_trailing c = true ->
  (c < 65536)%N /\ lex_step (LString acc) c = Some (LString (c :: acc), []).
Proof.
  unfold is_leading, is_trailing. intros H.
  assert (0xD800 <= c <= 0xDFFF)%N as Hc.
  { apply orb_prop in H as [H|H]; apply andb_prop in H as [H1 H2];
      apply N.leb_le in H1, H2; lia. }
  split; [lia|].
  apply plain_unit_lex; [apply N.eqb_neq | apply N.eqb_neq | apply N.ltb_ge]; lia.
Qed.

Lemma quote_units_lex (n : nat) :
  forall s acc,
    (Datatypes.length s <= n)%nat ->
    lex_run (LString acc) (quote_units s) = Some (LString (rev s ++ acc), []).
Proof.
  induction n as [|n IH]; intros s acc Hlen.
  - destruct s; [reflexivity | cbn in Hlen; lia].
  - destruct s as [|c r]; [reflexivity|].
    cbn [Datatypes.length] in Hlen. cbn [quote_units rev].
    rewrite <- List.app_assoc. cbn [app].
    destruct (is_leading c) eqn:Hlead.
    + destruct (surrogate_lex c acc) as [Hc Hstep]; [now rewrite Hlead|].
      destruct r as [|d r'].
      * now apply unicode_escape_lex.
      * destruct (is_trailing d) eqn:Htrail.
        -- destruct (surrogate_lex d (c :: acc)) as [_ Hstep'];
             [rewrite Htrail; apply orb_true_r|].
           cbn [lex_run]. rewrite Hstep, Hstep'.
           rewrite IH by (cbn [Datatypes.length] in Hlen; lia).
           cbn [rev]. now rewrite <- !List.app_assoc.
        -- rewrite lex_run_app, unicode_escape_lex by assumption.
           rewrite IH by lia. reflexivity.
    + destruct (is_trailing c) eqn:Htrail.
      * destruct (surrogate_lex c acc) as [Hc _]; [rewrite Htrail; apply orb_true_r|].
        rewrite lex_run_app, unicode_escape_lex by assumption.
        rewrite IH by lia. reflexivity.
      * rewrite lex_run_app, quote_unit_lex. rewrite IH by lia. reflexivity.
Qed.

Lemma QuoteJSONString_lex (s : jsstring) :
  lex_run LDefault (QuoteJSONString s) = Some (LDefault, [TString s]).
Proof.
  unfold QuoteJSONString, dquote. cbn [app lex_run].
  change (lex_step LDefault 34%N) with (Some (LString [], @nil token)).
  cbv iota beta.
  rewrite lex_run_app, (quote_units_lex (Datatypes.length s)) by lia.
  cbn [lex_run]. rewrite List.app_nil_r.
  change (lex_step (LString (rev s)) 34%N)
    with (Some (LDefault, [TString (rev (rev s))])).
  cbv iota beta. now rewrite List.rev_involutive.
Qed.

(** *** Printed integers *)

Lemma digit_char (d : N) : (d < 10)%N -> digit_value (48 + d)%N = Some (Z.of_N d).
Proof.
  intros Hd. unfold digit_value.
  replace ((48 <=? 48 + d) && (48 + d <=? 57))%N with true
    by (symmetry; apply andb_true_intro; split; apply N.leb_le; lia).
  f_equal. lia.
Qed.

Lemma digit_cases (d : N) (P : N -> Prop) :
  (0 < d < 10)%N ->
  P 1%N -> P 2%N -> P 3%N -> P 4%N -> P 5%N -> P 6%N -> P 7%N -> P 8%N -> P 9%N ->
  P d.
Proof.
  intros Hd P1 P2 P3 P4 P5 P6 P7 P8 P9.
  assert (d = 1 \/ d = 2 \/ d = 3 \/ d = 4 \/ d = 5 \/ d = 6 \/ d = 7 \/ d = 8 \/ d = 9)%N
    as Hcases by lia.
  repeat (destruct Hcases as [-> | Hcases]; [assumption|]). now subst d.
Qed.

Lemma next_digit_lex (neg : bool) (a : Z) (d : N) :
  (d < 10)%N ->
  lex_step (LNumber (NumState NInt neg a 0 false 0)) (48 + d)%N
  = Some (LNumber (NumState NInt neg (a * 10 + Z.of_N d) 0 false 0), []).
Proof.
  intros Hd. cbn [lex_step]. unfold lex_number. cbn [n_phase].
  now rewrite digit_char by assumption.
Qed.

(** The digits of a positive integer, read from a mode that takes a first
    non-zero digit as the start of an integer part. *)
Lemma digits_fuel_lex (m0 : lex_mode) (neg : bool) :
  (forall d, (0 < d < 10)%N ->
     lex_step m0 (48 + d)%N = Some (LNumber (NumState NInt neg (Z.of_N d) 0 false 0), [])) ->
  forall fuel n,
    (0 < n)%N -> Z.of_N n < 2 ^ Z.of_nat fuel ->
    lex_run m0 (digits_fuel fuel n)
    = Some (LNumber (NumState NInt neg (Z.of_N n) 0 false 0), []).
Proof.
  intros Hfirst. induction fuel as [|fuel IH]; intros n Hpos Hbound.
  - cbn in Hbound. lia.
  - cbn [digits_fuel]. destruct (N.ltb_spec n 10) as [Hsmall|Hbig].
    + cbn [lex_run]. rewrite Hfirst by lia. reflexivity.
    + assert (0 < n / 10)%N as Hq by (apply N.div_str_pos; lia).
      assert (Z.of_N (n / 10) < 2 ^ Z.of_nat fuel) as Hqb.
      { rewrite Nat2Z.inj_succ, Z.pow_succ_r in Hbound by lia.
        rewrite N2Z.inj_div. change (Z.of_N 10) with 10.
        apply Z.div_lt_upper_bound; lia. }
      rewrite lex_run_app, (IH _ Hq Hqb). cbn [lex_run].
      rewrite next_digit_lex by (apply N.mod_lt; discriminate).
      cbn [app]. do 3 f_equal.
      rewrite N2Z.inj_div, N2Z.inj_mod. change (Z.of_N 10) with 10.
      pose proof (Z.div_mod (Z.of_N n) 10). f_equal. lia.
Qed.

Lemma digits_bound (n : N) : Z.of_N n < 2 ^ Z.of_nat (S (N.size_nat n)).
Proof.
  destruct n as [|p]; [reflexivity|].
  cbn [N.size_nat Z.of_N]. apply Zpow_facts.Zpower2_Psize. lia.
Qed.

Lemma Z_toString_lex (z : Z) :
  exists ns,
    lex_run LDefault (Z_toString z) = Some (LNumber ns, [])
    /\ num_token ns = Some (TNumber (Decimal z 0)).
Proof.
  unfold Z_toString, digits.
  destruct z as [|p|p].
  - eexists. split; reflexivity.
  - change (Z.pos p <? 0) with false. cbv iota. cbn [app Z.abs].
    eexists. split.
    + apply digits_fuel_lex.
      * intros d Hd. pattern d. apply digit_cases; [assumption | reflexivity ..].
      * reflexivity.
      * apply digits_bound.
    + reflexivity.
  - change (Z.neg p <? 0) with true. cbv iota. cbn [Z.abs].
    change (lit "-") with [45%N]. cbn [app lex_run].
    change (lex_step LDefault 45%N)
      with (Some (LNumber (num_start true NAfterMinus 0), @nil token)).
    cbv iota beta.
    eexists. split.
    + rewrite (digits_fuel_lex _ true); [reflexivity | | reflexivity | apply digits_bound].
      intros d Hd. pattern d. apply digit_cases; [assumption | reflexivity ..].
    + reflexivity.
Qed.

(** *** The text of a value, token by token *)

Lemma settles_prefix (m : lex_mode) (pre ts tk : list token) :
  settles m ts tk -> settles m (pre ++ ts) (pre ++ tk).
Proof.
  intros [Hdelim Hend]. split.
  - intros c p Hc. destruct (Hdelim c p Hc) as (ts' & Hstep & Heq).
    exists ts'. split; [assumption|]. now rewrite <- !List.app_assoc, Heq.
  - destruct (lex m []) as [l|]; [|discriminate Hend].
    cbn in *. injection Hend as <-. now rewrite List.app_assoc.
Qed.

Lemma piece_then_delimiter (text : jsstring) (tk : list token) (c : code_unit) (p : token) :
  piece_feeds text tk -> delimiter c = Some p ->
  lex_run LDefault (text ++ [c]) = Some (LDefault, tk ++ [p]).
Proof.
  intros (m & ts & Hrun & Hdelim & _) Hc.
  destruct (Hdelim c p Hc) as (ts' & Hstep & Heq).
  rewrite lex_run_app, Hrun. cbn [lex_run]. rewrite Hstep.
  now rewrite List.app_nil_r, Heq.
Qed.

Lemma join_feeds (parts : list (jsstring * list token)) (c : code_unit) (p : token) :
  List.Forall (fun part => piece_feeds (fst part) (snd part)) parts ->
  delimiter c = Some p ->
  lex_run LDefault (join (lit ",") (List.map fst parts) ++ [c])
  = Some (LDefault, join_tokens (List.map snd parts) ++ [p]).
Proof.
  intros Hall Hc. induction Hall as [|[text tk] rest Hpart Hrest IH].
  - cbn [List.map join join_tokens app].
    destruct (proj1 (settles_default []) c p Hc) as (ts' & Hstep & Heq).
    cbn [lex_run]. rewrite Hstep. cbn [app] in Heq. now subst ts'.
  - destruct rest as [|next rest].
    + cbn [List.map join join_tokens fst snd].
      now apply piece_then_delimiter.
    + cbn [fst snd] in Hpart.
      change (join (lit ",") (List.map fst ((text, tk) :: next :: rest)))
        with (text ++ lit "," ++ join (lit ",") (List.map fst (next :: rest))).
      change (join_tokens (List.map snd ((text, tk) :: next :: rest)))
        with (tk ++ TComma :: join_tokens (List.map snd (next :: rest))).
      change (lit ",") with [44%N] in *.
      rewrite <- !List.app_assoc.
      rewrite (List.app_assoc text [44%N]), lex_run_app.
      pose proof (piece_then_delimiter text tk 44%N TComma Hpart eq_refl) as Hcomma.
      unfold jsstring, code_unit in *. rewrite Hcomma, IH.
      now rewrite <- !List.app_assoc.
Qed.

Lemma printable_items (items : list value) :
  forallb printable items = true -> List.Forall (fun v => printable v = true) items.
Proof. intros H. apply List.Forall_forall. now apply forallb_forall. Qed.

Lemma feeds_array (items : list value) :
  List.Forall feeds items -> feeds (VArr items).
Proof.
  intros Hall. unfold feeds. cbn [JSON_stringify tokens].
  exists LDefault. eexists. split; [|apply settles_default].
  change (lit "[") with [91%N]. change (lit "]") with [93%N]. cbn [app lex_run].
  change (lex_step LDefault 91%N) with (Some (LDefault, [TLBracket])).
  cbv iota beta.
  pose proof (join_feeds (List.map (fun v => (JSON_stringify v, tokens v)) items)
                93%N TRBracket) as Hjoin.
  rewrite !List.map_map in Hjoin. cbn [fst snd] in Hjoin.
  change (fun x : value => JSON_stringify x) with JSON_stringify in Hjoin.
  change (fun x : value => tokens x) with tokens in Hjoin.
  unfold jsstring, code_unit in *.
  rewrite Hjoin; [reflexivity | | reflexivity].
  apply List.Forall_map. exact Hall.
Qed.

Lemma properties_feed (members : list (jsstring * option value)) :
  List.Forall (fun m => forall v, snd m = Some v -> feeds v) members ->
  exists parts,
    List.map fst parts = properties_text members
    /\ List.map snd parts = properties_tokens members
    /\ List.Forall (fun part => piece_feeds (fst part) (snd part)) parts.
Proof.
  intros Hall. induction Hall as [|[k [v|]] rest Hm Hrest (parts & Ht & Hk & Hp)].
  - exists []. repeat split. constructor.
  - exists ((QuoteJSONString k ++ lit ":" ++ JSON_stringify v,
             TString k :: TColon :: tokens v) :: parts).
    cbn [List.map fst snd properties_text properties_tokens].
    rewrite Ht, Hk. repeat split. constructor; [|assumption].
    cbn [fst snd]. destruct (Hm v eq_refl) as (m & ts & Hrun & Hsettles).
    exists m, ([TString k; TColon] ++ ts). split.
    + rewrite lex_run_app, QuoteJSONString_lex.
      change (lit ":") with [58%N]. cbn [app lex_run].
      change (lex_step LDefault 58%N) with (Some (LDefault, [TColon])).
      cbv iota beta. now rewrite Hrun.
    + now apply (settles_prefix m [TString k; TColon]).
  - exists parts. cbn [properties_text properties_tokens]. now repeat split.
Qed.

Lemma feeds_object (members : list (jsstring * option value)) :
  List.Forall (fun m => forall v, snd m = Some v -> feeds v) members ->
  feeds (VObj members).
Proof.
  intros Hall. destruct (properties_feed members Hall) as (parts & Ht & Hk & Hp).
  unfold feeds.
  change (JSON_stringify (VObj members))
    with (lit "{" ++ join (lit ",") (properties_text members) ++ lit "}").
  change (tokens (VObj members))
    with (TLBrace :: join_tokens (properties_tokens members) ++ [TRBrace]).
  exists LDefault. eexists. split; [|apply settles_default].
  change (lit "{") with [123%N]. change (lit "}") with [125%N]. cbn [app lex_run].
  change (lex_step LDefault 123%N) with (Some (LDefault, [TLBrace])).
  cbv iota beta.
  pose proof (join_feeds parts 125%N TRBrace Hp eq_refl) as Hjoin.
  rewrite <- Ht, <- Hk. unfold jsstring, code_unit in *. now rewrite Hjoin.
Qed.

Lemma printable_properties (members : list (jsstring * option value)) :
  properties_printable members = true ->
  List.Forall (fun m => forall v, snd m = Some v -> printable v = true) members.
Proof.
  induction members as [|[k [v|]] rest IH]; cbn [properties_printable]; intros H.
  - constructor.
  - apply andb_prop in H as [Hv Hrest].
    constructor; [now intros v' [= <-] | now apply IH].
  - constructor; [intros v' [=] | now apply IH].
Qed.

(** Every printable value is lexed into its tokens. *)
Lemma feeds_all (v : value) : printable v = true -> feeds v.
Proof.
  induction v as [| b | z | x | s | items IH | members IH] using value_induction;
    intros Hok.
  - exists LDefault, [TNull]. split; [reflexivity | apply settles_default].
  - destruct b; eexists LDefault, _; (split; [reflexivity | apply settles_default]).
  - destruct (Z_toString_lex z) as (ns & Hrun & Htok).
    exists (LNumber ns), []. split; [exact Hrun | now apply settles_number].
  - unfold feeds. cbn [JSON_stringify tokens printable] in *.
    destruct (is_finite x).
    + unfold double_decimal in *.
      destruct (lex_run LDefault (Number_toString x)) as [[[| | | | |ns] [|]]|];
        try discriminate Hok.
      destruct (num_token ns) as [[]|] eqn:Htok; try discriminate Hok.
      exists (LNumber ns), []. split; [reflexivity | now apply settles_number].
    + exists LDefault, [TNull]. split; [reflexivity | apply settles_default].
  - exists LDefault, [TString s]. split; [apply QuoteJSONString_lex | apply settles_default].
  - apply feeds_array. cbn [printable] in Hok.
    apply printable_items in Hok.
    rewrite List.Forall_forall in *. intros v Hin. now apply IH, Hok.
  - apply feeds_object.
    change (printable (VObj members)) with (properties_printable members) in Hok.
    apply printable_properties in Hok.
    rewrite List.Forall_forall in *. intros m Hin v Hv.
    now apply (IH m Hin v Hv), (Hok m Hin v Hv).
Qed.

(** *** The tokens of a value, parsed *)

Lemma parse_tokens_app (a b : list token) :
  forall st stack,
    parse_tokens st stack (a ++ b)
    = match parse_run st stack a with
      | Some (st', stack') => parse_tokens st' stack' b
      | None => None
      end.
Proof.
  induction a as [|t a IH]; intros st stack; [reflexivity|].
  cbn [app parse_tokens parse_run].
  destruct (parse_step st stack t) as [[st' stack']|]; [apply IH | reflexivity].
Qed.

Lemma parse_run_app (a b : list token) :
  forall st stack,
    parse_run st stack (a ++ b)
    = match parse_run st stack a with
      | Some (st', stack') => parse_run st' stack' b
      | None => None
      end.
Proof.
  induction a as [|t a IH]; intros st stack; [reflexivity|].
  cbn [app parse_run].
  destruct (parse_step st stack t) as [[st' stack']|]; [apply IH | reflexivity].
Qed.

Lemma parse_run_one (st : parse_state) (stack : list frame) (t : token) :
  parse_run st stack [t] = parse_step st stack t.
Proof. cbn [parse_run]. now destruct (parse_step st stack t) as [[? ?]|]. Qed.

Lemma parses_items (items : list value) :
  List.Forall parses items ->
  items <> [] ->
  forall st acc stack, value_state st ->
    parse_run st (FArr acc :: stack)
      (join_tokens (List.map tokens items) ++ [TRBracket])
    = reduce (JArr (rev acc ++ List.map to_json items)) stack.
Proof.
  intros Hall. induction Hall as [|v rest Hv Hrest IH]; intros Hne st acc stack Hst;
    [contradiction|].
  destruct rest as [|next rest].
  - cbn [List.map join_tokens]. rewrite parse_run_app, (Hv st _ Hst).
    cbn [reduce]. rewrite parse_run_one. cbn [parse_step close_array rev].
    reflexivity.
  - change (join_tokens (List.map tokens (v :: next :: rest)))
      with (tokens v ++ TComma :: join_tokens (List.map tokens (next :: rest))).
    rewrite <- List.app_assoc, parse_run_app, (Hv st _ Hst).
    cbn [reduce app parse_run parse_step].
    rewrite (IH ltac:(discriminate) PValue (to_json v :: acc) stack) by now left.
    cbn [rev List.map]. now rewrite <- List.app_assoc.
Qed.

Lemma parses_array (items : list value) :
  List.Forall parses items -> parses (VArr items).
Proof.
  intros Hall st stack Hst. cbn [tokens to_json].
  assert (parse_step st stack TLBracket = Some (PArrFirst, FArr [] :: stack)) as Hopen
    by (destruct Hst as [-> | ->]; reflexivity).
  cbn [parse_run]. rewrite Hopen.
  destruct items as [|v rest].
  - cbn [List.map join_tokens app]. now rewrite parse_run_one.
  - now rewrite (parses_items (v :: rest) Hall ltac:(discriminate) PArrFirst [] stack)
      by now right.
Qed.

Lemma properties_tokens_present (ms : list (jsstring * option value)) :
  properties_tokens ms
  = List.map (fun m => TString (fst m) :: TColon :: tokens (snd m)) (present ms).
Proof.
  induction ms as [|[k [v|]] rest IH]; cbn [properties_tokens present List.map fst snd];
    now rewrite ?IH.
Qed.

Lemma properties_json_present (ms : list (jsstring * option value)) :
  properties_json ms = List.map (fun m => (fst m, to_json (snd m))) (present ms).
Proof.
  induction ms as [|[k [v|]] rest IH]; cbn [properties_json present List.map fst snd];
    now rewrite ?IH.
Qed.

Lemma present_all (P : value -> Prop) (ms : list (jsstring * option value)) :
  List.Forall (fun m => forall v, snd m = Some v -> P v) ms ->
  List.Forall (fun m => P (snd m)) (present ms).
Proof.
  intros Hall. induction Hall as [|[k [v|]] rest Hm Hrest IH]; cbn [present].
  - constructor.
  - constructor; [now apply Hm | assumption].
  - assumption.
Qed.

Lemma parses_properties (ps : list (jsstring * value)) :
  List.Forall (fun m => parses (snd m)) ps ->
  ps <> [] ->
  forall st acc stack, key_state st ->
    parse_run st (FObj acc None :: stack)
      (join_tokens (List.map (fun m => TString (fst m) :: TColon :: tokens (snd m)) ps)
       ++ [TRBrace])
    = reduce (JObj (rev acc ++ List.map (fun m => (fst m, to_json (snd m))) ps)) stack.
Proof.
  intros Hall. induction Hall as [|[k v] rest Hv Hrest IH]; intros Hne st acc stack Hst;
    [contradiction|].
  cbn [fst snd] in Hv.
  assert (parse_step st (FObj acc None :: stack) (TString k)
          = Some (PColon, FObj acc (Some k) :: stack)) as Hkey
    by (destruct Hst as [-> | ->]; reflexivity).
  destruct rest as [|next rest].
  - cbn [List.map join_tokens fst snd app parse_run].
    rewrite Hkey. cbn [parse_step].
    rewrite parse_run_app, (Hv PValue _ ltac:(now left)).
    cbn [reduce]. rewrite parse_run_one. cbn [parse_step close_object rev].
    reflexivity.
  - change (join_tokens
              (List.map (fun m => TString (fst m) :: TColon :: tokens (snd m))
                 ((k, v) :: next :: rest)))
      with ((TString k :: TColon :: tokens v)
            ++ TComma
               :: join_tokens
                    (List.map (fun m => TString (fst m) :: TColon :: tokens (snd m))
                       (next :: rest))).
    rewrite <- List.app_assoc. cbn [app parse_run]. rewrite Hkey. cbn [parse_step].
    rewrite parse_run_app, (Hv PValue _ ltac:(now left)).
    cbn [reduce parse_run parse_step].
    rewrite (IH ltac:(discriminate) PObjKey ((k, to_json v) :: acc) stack) by now right.
    cbn [rev List.map fst snd]. now rewrite <- List.app_assoc.
Qed.

Lemma parses_object (members : list (jsstring * option value)) :
  List.Forall (fun m => forall v, snd m = Some v -> parses v) members ->
  parses (VObj members).
Proof.
  intros Hall st stack Hst.
  change (tokens (VObj members))
    with (TLBrace :: join_tokens (properties_tokens members) ++ [TRBrace]).
  change (to_json (VObj members)) with (JObj (properties_json members)).
  rewrite properties_tokens_present, properties_json_present.
  assert (parse_step st stack TLBrace = Some (PObjFirst, FObj [] None :: stack)) as Hopen
    by (destruct Hst as [-> | ->]; reflexivity).
  cbn [parse_run]. rewrite Hopen.
  apply present_all in Hall.
  destruct (present members) as [|m rest].
  - cbn [List.map join_tokens app]. now rewrite parse_run_one.
  - now rewrite (parses_properties (m :: rest) Hall ltac:(discriminate) PObjFirst [] stack)
      by now left.
Qed.

Lemma parses_scalar (t : token) (j : json) :
  parse_value_token t = reduce j -> t <> TRBracket ->
  forall st stack, value_state st -> parse_run st stack [t] = reduce j stack.
Proof.
  intros Ht Hne st stack Hst. rewrite parse_run_one, <- Ht.
  destruct Hst as [-> | ->]; [reflexivity|].
  cbn [parse_step]. destruct t; try reflexivity. contradiction.
Qed.

Lemma parses_all (v : value) : printable v = true -> parses v.
Proof.
  induction v as [| b | z | x | s | items IH | members IH] using value_induction;
    intros Hok.
  - unfold parses. now apply parses_scalar.
  - unfold parses. destruct b; now apply parses_scalar.
  - unfold parses. now apply parses_scalar.
  - unfold parses. cbn [tokens to_json printable] in *.
    destruct (is_finite x); [|now apply parses_scalar].
    destruct (double_decimal x); [now apply parses_scalar | discriminate].
  - unfold parses. now apply parses_scalar.
  - apply parses_array. cbn [printable] in Hok.
    apply printable_items in Hok.
    rewrite List.Forall_forall in *. intros v Hin. now apply IH, Hok.
  - apply parses_object.
    change (printable (VObj members)) with (properties_printable members) in Hok.
    apply printable_properties in Hok.
    rewrite List.Forall_forall in *. intros m Hin v Hv.
    now apply (IH m Hin v Hv), (Hok m Hin v Hv).
Qed.

Lemma parse_of_feeds (v : value) :
  feeds v -> parses v -> JSON_parse (JSON_stringify v) = Some (to_json v).
Proof.
  intros (m & ts & Hrun & _ & Hend) Hparse. unfold JSON_parse.
  rewrite lex_of_run, Hrun, Hend.
  rewrite <- (List.app_nil_r (tokens v)), parse_tokens_app.
  now rewrite (Hparse PValue []) by now left.
Qed.

(** X15. Parsing the text [JSON.stringify] makes of a value gives the value
    back: strings unit for unit, whatever they contain, arrays and objects
    in order, the properties that were undefined left out, and each number
    as the decimal it was printed as. The numbers of the value must print as
    JSON numbers: an integer is one a double holds exactly, and a double is
    checked by running the printer on it. *)
Theorem JSON_parse_stringify (v : value) :
  printable v = true ->
  JSON_parse (JSON_stringify v) = Some (to_json v).
Proof.
  intros Hok. apply parse_of_feeds; [now apply feeds_all | now apply parses_all].
Qed.

(* ===================================================================== *)
(** ** The route and the page together *)
(* ===================================================================== *)

Import Wire.

Lemma no_line_feed_app (a b : jsstring) :
  no_line_feed a -> no_line_feed b -> no_line_feed (a ++ b).
Proof. unfold no_line_feed. rewrite in_app_iff. tauto. Qed.

Lemma no_line_feed_join (sep : jsstring) (parts : list jsstring) :
  no_line_feed sep -> List.Forall no_line_feed parts -> no_line_feed (join sep parts).
Proof.
  intros Hsep Hall. induction Hall as [|p rest Hp Hrest IH]; [intros []|].
  destruct rest as [|q rest]; [exact Hp|].
  change (join sep (p :: q :: rest)) with (p ++ sep ++ join sep (q :: rest)).
  now repeat apply no_line_feed_app.
Qed.

Lemma no_line_feed_digits (fuel : nat) :
  forall n, no_line_feed (digits_fuel fuel n).
Proof.
  induction fuel as [|fuel IH]; intros n; cbn [digits_fuel]; [intros []|].
  destruct (N.ltb_spec n 10).
  - intros [H'|[]]. unfold line_feed in H'. lia.
  - apply no_line_feed_app; [apply IH|].
    generalize (n mod 10)%N. intros d [H'|[]]. unfold line_feed in H'. lia.
Qed.

Lemma no_line_feed_zeros (n : Z) : no_line_feed (zeros n).
Proof. intros Hin. apply repeat_spec in Hin. discriminate. Qed.

Lemma no_line_feed_firstn (n : nat) (s : jsstring) :
  no_line_feed s -> no_line_feed (firstn n s).
Proof.
  intros Hs Hin. apply Hs. rewrite <- (firstn_skipn n s).
  apply in_or_app. now left.
Qed.

Lemma no_line_feed_skipn (n : nat) (s : jsstring) :
  no_line_feed s -> no_line_feed (skipn n s).
Proof.
  intros Hs Hin. apply Hs. rewrite <- (firstn_skipn n s).
  apply in_or_app. now right.
Qed.

Ltac one_line :=
  repeat first
    [ apply no_line_feed_app
    | apply no_line_feed_digits
    | apply no_line_feed_zeros
    | apply no_line_feed_firstn
    | apply no_line_feed_skipn
    | apply no_line_feed_check; reflexivity ].

Lemma no_line_feed_layout (s n k : Z) : no_line_feed (layout s n k).
Proof.
  unfold layout, exponent_text, digits. cbv zeta.
  repeat match goal with |- context [if ?b then _ else _] => destruct b end; one_line.
Qed.

Lemma no_line_feed_Number_toString (x : float) : no_line_feed (Number_toString x).
Proof.
  unfold Number_toString.
  destruct (Prim2SF x) as [sign | sign | | sign m e].
  - one_line.
  - destruct sign; one_line.
  - one_line.
  - destruct (shortest (PrimFloat.abs x)) as [[[s n] k]|]; [|intros []].
    destruct sign; one_line; apply no_line_feed_layout.
Qed.

Lemma no_line_feed_unicode_escape (c : code_unit) : no_line_feed (unicode_escape c).
Proof.
  assert (forall d, hex_digit d <> line_feed) as Hhex.
  { intros d. unfold hex_digit, line_feed. destruct (N.ltb_spec d 10); lia. }
  unfold unicode_escape. intros Hin. cbn [In] in Hin.
  destruct Hin as [H'|[H'|[H'|[H'|[H'|[H'|[]]]]]]];
    try discriminate; now apply Hhex in H'.
Qed.

Lemma no_line_feed_quote_unit (c : code_unit) : no_line_feed (quote_unit c).
Proof.
  unfold quote_unit.
  repeat match goal with
         | |- context [if (?a =? ?b)%N then _ else _] => destruct (N.eqb_spec a b)
         end; try (apply no_line_feed_check; reflexivity).
  destruct (c <? 32)%N; [apply no_line_feed_unicode_escape|].
  intros [H'|[]]. unfold line_feed in H'. congruence.
Qed.

Lemma no_line_feed_quote_units (s : jsstring) : no_line_feed (quote_units s).
Proof.
  induction s as [s IH] using (induction_ltof1 _ (@Datatypes.length _)).
  unfold ltof in IH.
  destruct s as [|c r]; [intros []|]. cbn [quote_units].
  assert (no_line_feed (quote_units r)) as Hr by (apply IH; cbn; lia).
  destruct (is_leading c) eqn:Hlead.
  - destruct r as [|d r']; [apply no_line_feed_unicode_escape|].
    destruct (is_trailing d) eqn:Htrail.
    + assert (no_line_feed (quote_units r')) as Hr' by (apply IH; cbn; lia).
      unfold is_leading in Hlead. unfold is_trailing in Htrail.
      intros [H'|[H'|H']]; [| |now apply Hr']; unfold line_feed in H'; subst; discriminate.
    + apply no_line_feed_app; [apply no_line_feed_unicode_escape | exact Hr].
  - destruct (is_trailing c).
    + apply no_line_feed_app; [apply no_line_feed_unicode_escape | exact Hr].
    + apply no_line_feed_app; [apply no_line_feed_quote_unit | exact Hr].
Qed.

Lemma no_line_feed_QuoteJSONString (s : jsstring) : no_line_feed (QuoteJSONString s).
Proof.
  unfold QuoteJSONString.
  repeat apply no_line_feed_app; try apply no_line_feed_quote_units;
    apply no_line_feed_check; reflexivity.
Qed.

Lemma no_line_feed_properties (members : list (jsstring * option value)) :
  List.Forall (fun m => forall v, snd m = Some v -> no_line_feed (JSON_stringify v)) members ->
  List.Forall no_line_feed (properties_text members).
Proof.
  intros Hall. induction Hall as [|[k [v|]] rest Hm Hrest IH]; cbn [properties_text].
  - constructor.
  - constructor; [|exact IH].
    apply no_line_feed_app; [apply no_line_feed_QuoteJSONString|].
    apply no_line_feed_app; [apply no_line_feed_check; reflexivity | now apply Hm].
  - exact IH.
Qed.

Lemma JSON_stringify_one_line_aux (v : value) : no_line_feed (JSON_stringify v).
Proof.
  induction v as [| b | z | x | s | items IH | members IH] using value_induction.
  - apply no_line_feed_check; reflexivity.
  - destruct b; apply no_line_feed_check; reflexivity.
  - cbn [JSON_stringify]. unfold Z_toString, digits.
    destruct (z <? 0); one_line.
  - cbn [JSON_stringify]. destruct (is_finite x);
      [apply no_line_feed_Number_toString | apply no_line_feed_check; reflexivity].
  - apply no_line_feed_QuoteJSONString.
  - cbn [JSON_stringify].
    repeat apply no_line_feed_app; try (apply no_line_feed_check; reflexivity).
    apply no_line_feed_join; [apply no_line_feed_check; reflexivity|].
    apply List.Forall_forall. intros text Hin.
    apply List.in_map_iff in Hin. destruct Hin as (v & <- & Hv).
    rewrite List.Forall_forall in IH. now apply IH.
  - change (JSON_stringify (VObj members))
      with (lit "{" ++ join (lit ",") (properties_text members) ++ lit "}").
    repeat apply no_line_feed_app; try (apply no_line_feed_check; reflexivity).
    apply no_line_feed_join; [apply no_line_feed_check; reflexivity|].
    now apply no_line_feed_properties.
Qed.

(** *** A line of the stream, written and read *)

Lemma trim_object (text : jsstring) :
  truthy (trim (lit "{" ++ text ++ lit "}")) = true.
Proof.
  unfold trim. change (lit "{" ++ text ++ lit "}") with (123%N :: text ++ [125%N]).
  cbn [trimStart]. change (isWhiteSpace 123%N) with false. cbv iota.
  cbn [rev]. rewrite List.rev_app_distr. cbn [rev app trimStart].
  change (isWhiteSpace 125%N) with false. cbv iota.
  cbn [rev]. rewrite List.rev_app_distr. reflexivity.
Qed.

Lemma event_value_object (e : event) : exists members, event_value e = VObj members.
Proof. destruct e; eexists; reflexivity. Qed.

Section WireFacts.

Variable ToNumber : json -> number.
Variable ToPropertyKey : option json -> jsstring.

Local Abbreviation apply_payload := (Page.apply_payload ToNumber ToPropertyKey).
Local Abbreviation process_line := (Page.process_line ToNumber ToPropertyKey).
Local Abbreviation process_lines := (Page.process_lines ToNumber ToPropertyKey).
Local Abbreviation handleGenerate := (Page.handleGenerate ToNumber ToPropertyKey).

Lemma process_line_event (st : ui) (e : event) :
  printable (event_value e) = true ->
  process_line st (JSON_stringify (event_value e))
  = normal (apply_payload st (received e)).
Proof.
  intros Hok. unfold Page.process_line, received.
  rewrite (parse_of_feeds _ (feeds_all _ Hok) (parses_all _ Hok)).
  destruct (event_value_object e) as (members & ->).
  change (JSON_stringify (VObj members))
    with (lit "{" ++ join (lit ",") (properties_text members) ++ lit "}").
  rewrite trim_object. reflexivity.
Qed.

Lemma process_lines_events (events : list event) :
  List.Forall (fun e => printable (event_value e) = true) events ->
  forall st,
    process_lines st (List.map (fun e => JSON_stringify (event_value e)) events)
    = normal (fold_left apply_payload (List.map received events) st).
Proof.
  intros Hall. induction Hall as [|e rest He Hrest IH]; intros st; [reflexivity|].
  cbn [List.map Page.process_lines fold_left].
  rewrite process_line_event by assumption. apply IH.
Qed.

Lemma enqueued_unlines (events : list event) :
  enqueued events = unlines (List.map (fun e => JSON_stringify (event_value e)) events).
Proof. unfold enqueued, unlines. now rewrite List.map_map. Qed.

Lemma handleGenerate_events (st0 : ui) (events : list event) (reads : list jsstring) :
  List.Forall (fun e => printable (event_value e) = true) events ->
  concat reads = enqueued events ->
  handleGenerate st0 (body reads done)
  = setIsGenerating false (fold_left apply_payload (List.map received events) (reset st0)).
Proof.
  intros Hok Htext.
  rewrite (handleGenerate_lines ToNumber ToPropertyKey), Htext, enqueued_unlines.
  destruct (complete_lines_of_unlines
              (List.map (fun e => JSON_stringify (event_value e)) events)) as [-> _].
  { apply List.Forall_forall. intros line Hin.
    apply List.in_map_iff in Hin. destruct Hin as (e & <- & _).
    apply JSON_stringify_one_line_aux. }
  now rewrite process_lines_events.
Qed.

End WireFacts.

(** *** The events of a valid brief print as JSON *)

Lemma segments_printable (segs : list Segment.t) :
  forallb printable (List.map segment_value segs)
  = forallb (fun e => (Z.abs (fst e) <=? 2 ^ 53) && (Z.abs (snd e) <=? 2 ^ 53))
      (List.map extent segs).
Proof.
  induction segs as [|s rest IH]; [reflexivity|].
  cbn [List.map forallb]. rewrite IH. f_equal.
  unfold extent. cbn [fst snd segment_value member printable].
  now rewrite !andb_true_r.
Qed.

Lemma buildTimeline_printable (topic tone platform : jsstring) (D : Z) :
  15 <= D <= 120 ->
  forallb printable (List.map segment_value (buildTimeline topic D tone platform)) = true.
Proof.
  intros HD.
  assert (forallb (fun d =>
            forallb (fun e => (Z.abs (fst e) <=? 2 ^ 53) && (Z.abs (snd e) <=? 2 ^ 53))
              (List.map extent (buildTimeline [] d [] [])))
            target_range = true)
    as Hall by (vm_compute; reflexivity).
  rewrite forallb_forall in Hall.
  specialize (Hall D (target_range_covers D HD)).
  rewrite segments_printable. unfold buildTimeline in *.
  now rewrite buildTimeline_map_extents.
Qed.

(** The ten progress literals of the route, as the page reads them. *)
Lemma progress_numbers :
  to_json (VDouble 0.08) = JNum (Decimal 8 (-2))
  /\ to_json (VDouble 0.24) = JNum (Decimal 24 (-2))
  /\ to_json (VDouble 0.42) = JNum (Decimal 42 (-2))
  /\ to_json (VDouble 0.58) = JNum (Decimal 58 (-2))
  /\ to_json (VDouble 0.7) = JNum (Decimal 7 (-1))
  /\ to_json (VDouble 0.82) = JNum (Decimal 82 (-2))
  /\ to_json (VDouble 0.9) = JNum (Decimal 9 (-1))
  /\ to_json (VDouble 0.94) = JNum (Decimal 94 (-2))
  /\ to_json (VDouble 0.98) = JNum (Decimal 98 (-2))
  /\ to_json (VDouble 1) = JNum (Decimal 1 0).
Proof. vm_compute. repeat split. Qed.

Ltac progress_equations :=
  destruct progress_numbers
    as (E08 & E24 & E42 & E58 & E70 & E82 & E90 & E94 & E98 & E100).

Lemma printable_number (x : float) (d : decimal) :
  to_json (VDouble x) = JNum d -> printable (VDouble x) = true.
Proof.
  cbn [to_json printable].
  destruct (is_finite x); [|discriminate].
  now destruct (double_decimal x).
Qed.

Lemma printable_status (s : Status.t) :
  printable (event_value (Route.status s))
  = printable (VDouble (Status.progress s)) && (Z.abs (Status.eta s) <=? 2 ^ 53).
Proof.
  cbn [event_value member printable]. now rewrite andb_true_r.
Qed.

Lemma printable_asset (a : Asset.t) :
  printable (event_value (Route.asset a)) = printable (VDouble (Asset.progress a)).
Proof.
  cbn [event_value member printable]. now rewrite andb_true_r.
Qed.

Lemma printable_timeline (t : Timeline.t) :
  printable (event_value (Route.timeline t))
  = forallb printable (List.map segment_value (Timeline.segments t))
    && printable (VDouble (Timeline.progress t)).
Proof.
  cbn [event_value member printable]. now rewrite andb_true_r.
Qed.

Lemma printable_result (r : Result.t) :
  printable (event_value (Route.result r))
  = printable (VDouble (Result.progress r))
    && ((Z.abs (Deliverables.duration (Result.deliverables r)) <=? 2 ^ 53)
        && forallb printable
             (List.map segment_value (Deliverables.segments (Result.deliverables r)))).
Proof.
  cbn [event_value deliverables_value member printable].
  destruct (Deliverables.callToAction (Result.deliverables r));
    cbn [option_map printable andb]; now rewrite !andb_true_r.
Qed.

Lemma eventSequence_printable (payload : Brief.t) :
  List.Forall (fun e => printable (event_value e) = true) (eventSequence payload).
Proof.
  pose proof (effective_duration_range (Brief.length payload)) as HD.
  rewrite <- targetDuration_effective in HD.
  pose proof (buildTimeline_printable (Brief.topic payload) (Brief.tone payload)
                (Brief.platform payload) (targetDuration payload) HD) as Hsegs.
  assert ((Z.abs (targetDuration payload) <=? 2 ^ 53) = true) as Hduration
    by (apply Z.leb_le; lia).
  progress_equations.
  apply printable_number in E08, E24, E42, E58, E70, E82, E90, E94, E98, E100.
  unfold eventSequence. cbv zeta.
  repeat first [apply List.Forall_nil | apply List.Forall_cons];
    rewrite ?printable_status, ?printable_asset, ?printable_timeline, ?printable_result;
    cbn [Status.progress Status.eta Asset.progress Timeline.progress Timeline.segments
         Result.progress Result.deliverables Deliverables.duration
         Deliverables.segments];
    rewrite ?Hsegs, ?Hduration, ?E08, ?E24, ?E42, ?E58, ?E70, ?E82, ?E90, ?E94, ?E98,
      ?E100;
    reflexivity.
Qed.

Lemma event_lines_one_line (events : list event) :
  List.Forall no_line_feed (List.map (fun e => JSON_stringify (event_value e)) events).
Proof.
  apply List.Forall_forall. intros line Hin.
  apply List.in_map_iff in Hin. destruct Hin as (e & <- & _).
  apply JSON_stringify_one_line_aux.
Qed.

(** X16. The framing of the stream is sound for every list of events: the
    lines the page's splitter completes from the text the route enqueues are
    the texts of the events, one line each in the order sent, none of them
    blank, with nothing left in the buffer; a line feed inside a script or a
    plan is written as an escape and never ends a line. *)
Theorem enqueued_lines_are_the_events (events : list event) :
  complete_lines (enqueued events)
  = List.map (fun e => JSON_stringify (event_value e)) events
  /\ last_piece (enqueued events) = []
  /\ List.Forall not_blank (List.map (fun e => JSON_stringify (event_value e)) events).
Proof.
  rewrite enqueued_unlines.
  destruct (complete_lines_of_unlines _ (event_lines_one_line events)) as [-> ->].
  repeat split.
  apply List.Forall_forall. intros line Hin.
  apply List.in_map_iff in Hin. destruct Hin as (e & <- & _).
  destruct (event_value_object e) as (members & ->).
  apply trim_object.
Qed.

Lemma received_status (s : Status.t) :
  received (Route.status s)
  = JObj [(lit "type", JStr (lit "status"));
          (lit "id", JStr (Status.id s));
          (lit "stage", JStr (Status.stage s));
          (lit "agent", JStr (Status.agent s));
          (lit "detail", JStr (Status.detail s));
          (lit "progress", to_json (VDouble (Status.progress s)));
          (lit "eta", JNum (Decimal (Status.eta s) 0))].
Proof. reflexivity. Qed.

Lemma received_asset (a : Asset.t) :
  received (Route.asset a)
  = JObj [(lit "type", JStr (lit "asset"));
          (lit "id", JStr (Asset.id a));
          (lit "artifact", JStr (Asset.artifact a));
          (lit "title", JStr (Asset.title a));
          (lit "content", JStr (Asset.content a));
          (lit "progress", to_json (VDouble (Asset.progress a)));
          (lit "agent", JStr (Asset.agent a))].
Proof. reflexivity. Qed.

Lemma received_timeline (t : Timeline.t) :
  received (Route.timeline t)
  = JObj [(lit "type", JStr (lit "timeline"));
          (lit "id", JStr (Timeline.id t));
          (lit "segments", to_json (VArr (List.map segment_value (Timeline.segments t))));
          (lit "progress", to_json (VDouble (Timeline.progress t)));
          (lit "agent", JStr (Timeline.agent t))].
Proof. reflexivity. Qed.

Lemma received_result (r : Result.t) :
  received (Route.result r)
  = JObj [(lit "type", JStr (lit "result"));
          (lit "id", JStr (Result.id r));
          (lit "agent", JStr (Result.agent r));
          (lit "progress", to_json (VDouble (Result.progress r)));
          (lit "deliverables", to_json (deliverables_value (Result.deliverables r)))].
Proof. reflexivity. Qed.

Lemma status_events (s1 s2 s3 s4 s5 : Status.t) (a1 a2 a3 : Asset.t)
    (tl : Timeline.t) (r : Result.t) :
  List.filter (of_type "status")
    [Route.status s1; Route.status s2; Route.asset a1; Route.status s3;
     Route.timeline tl; Route.status s4; Route.asset a2; Route.asset a3;
     Route.status s5; Route.result r]
  = [Route.status s1; Route.status s2; Route.status s3; Route.status s4;
     Route.status s5].
Proof. reflexivity. Qed.

(** Runs the handler over events given as records: the lines as parsed, the
    progress literals as read, and what the handler only passes on, the
    segments and the deliverables, left as they are. *)
Ltac run_events :=
  cbn [List.map];
  rewrite ?received_status, ?received_asset, ?received_timeline, ?received_result;
  cbn [Status.id Status.stage Status.agent Status.detail Status.progress Status.eta
       Asset.id Asset.artifact Asset.title Asset.content Asset.progress Asset.agent
       Timeline.id Timeline.segments Timeline.progress Timeline.agent
       Result.id Result.agent Result.progress Result.deliverables];
  repeat match goal with
         | E : to_json (VDouble ?x) = _ |- context [to_json (VDouble ?x)] => rewrite E
         end;
  repeat match goal with
         | |- context [to_json (VArr ?x)] => generalize (to_json (VArr x)); intro
         end;
  repeat match goal with
         | |- context [to_json (deliverables_value ?d)] =>
           generalize (to_json (deliverables_value d)); intro
         end;
  vm_compute; reflexivity.

Section EndToEnd.

Variable ToNumber : json -> number.
Variable ToPropertyKey : option json -> jsstring.

Local Abbreviation apply_payload := (Page.apply_payload ToNumber ToPropertyKey).
Local Abbreviation process_lines := (Page.process_lines ToNumber ToPropertyKey).
Local Abbreviation handleGenerate := (Page.handleGenerate ToNumber ToPropertyKey).

(** X17. The page applies exactly the events the route sent: when the reads
    put end to end are the text enqueued for some events, the handler ends in
    the state made by applying the events as parsed, in order, to the reset
    state, however the text was cut; no event is lost, doubled or reordered,
    and none raises an error. If a read is rejected after the last event, the
    error is shown on top of that state. *)
Theorem stream_delivers_events
    (st0 : ui) (events : list event) (reads : list jsstring) (ending : read_end) :
  List.Forall (fun e => printable (event_value e) = true) events ->
  concat reads = enqueued events ->
  handleGenerate st0 (body reads ending)
  = settle (after_reads ending
              (normal (fold_left apply_payload (List.map received events) (reset st0)))).
Proof.
  intros Hok Htext.
  rewrite (handleGenerate_lines ToNumber ToPropertyKey), Htext, enqueued_unlines.
  destruct (complete_lines_of_unlines _ (event_lines_one_line events)) as [-> _].
  now rewrite (process_lines_events ToNumber ToPropertyKey).
Qed.

(** X18. A valid brief fills every panel of the page. When the reads put end
    to end are the text the route enqueues for the brief, the handler ends
    with the five status events in the feed in the order sent, each asset
    event in the vault under its artifact, the segments of the timeline
    event, the deliverables of the result event, progress 1, no error, and
    not loading. *)
Theorem valid_brief_fills_the_page
    (st0 : ui) (payload : Brief.t) (reads : list jsstring) :
  concat reads = enqueued (eventSequence payload) ->
  let final := handleGenerate st0 (body reads done) in
  statusFeed final
  = List.map received (List.filter (of_type "status") (eventSequence payload))
  /\ (forall a, In (Route.asset a) (eventSequence payload) ->
        assetVault final !! Asset.artifact a = Some (received (Route.asset a)))
  /\ (exists tl, In (Route.timeline tl) (eventSequence payload)
        /\ segments final
           = Some (to_json (VArr (List.map segment_value (Timeline.segments tl)))))
  /\ (exists r, last (eventSequence payload) = Some (Route.result r)
        /\ Page.result final
           = Some (to_json (deliverables_value (Result.deliverables r))))
  /\ progress final = one
  /\ isGenerating final = false
  /\ error final = None.
Proof.
  intros Htext final. subst final.
  rewrite (handleGenerate_events ToNumber ToPropertyKey st0 _ reads
             (eventSequence_printable payload) Htext).
  unfold eventSequence. cbv zeta.
  generalize (buildTimeline (Brief.topic payload) (targetDuration payload)
                (Brief.tone payload) (Brief.platform payload)).
  generalize (buildScript (Brief.topic payload) (Brief.tone payload)
                (Brief.audience payload) (Brief.callToAction payload)).
  generalize (buildOverlayPlan (Brief.topic payload) (Brief.platform payload)
                (Brief.brandColor payload)).
  generalize (buildVoicePlan (Brief.voice payload) (Brief.tone payload)
                (Brief.audience payload)).
  generalize (targetDuration payload).
  destruct payload as [topic platform tone length voice callToAction audience
                       autopilot brandColor].
  cbn [Brief.topic Brief.platform Brief.tone Brief.voice Brief.callToAction].
  intros D voicePlan overlays script segs.
  progress_equations.
  rewrite status_events.
  split; [run_events|].
  split.
  { intros a Hin.
    repeat (destruct Hin as [Heq | Hin]; [try discriminate Heq|]); [| | |destruct Hin];
      injection Heq as <-; run_events. }
  split; [eexists; split; [do 4 right; left; reflexivity | run_events]|].
  split; [eexists; split; [reflexivity | run_events]|].
  repeat split; run_events.
Qed.

(** X19. A rejected request is not reported. The page does not look at the
    status of the response: the body of the 400 response is one JSON text
    with no line feed after it, so no line is ever completed, nothing is
    parsed, and the handler ends in the initial state, idle and with no error
    shown, whatever the error and its details say. *)
Theorem rejected_request_shows_no_error
    (st0 : ui) (error details : jsstring) (reads : list jsstring) :
  concat reads = bad_request_body error details ->
  handleGenerate st0 (body reads done) = initial.
Proof.
  intros Htext.
  rewrite (handleGenerate_lines ToNumber ToPropertyKey), Htext.
  rewrite complete_lines_plain by apply JSON_stringify_one_line_aux.
  reflexivity.
Qed.

End EndToEnd.

(** X20. What the page sends is accepted exactly when the topic of the form
    has at least three code units, whatever the nine fields hold: the body is
    always JSON and every field has the type the schema asks for. The brief
    then states the fields of the form as they are; the call to action and
    the brand colour are always given, so the defaults of the schema and of
    the builders are never used for a request of the page. Otherwise the
    only issue is the short topic. *)
Theorem form_request_accepted_iff_topic (form : Form.t) :
  match POST (request_body form) with
  | Response200 _ events =>
    (3 <= Datatypes.length (Form.topic form))%nat
    /\ events = eventSequence (form_brief form)
  | Response400 _ why =>
    (Datatypes.length (Form.topic form) < 3)%nat
    /\ why = schema_issues [too_small (lit "topic")]
  end.
Proof.
  unfold POST, request_body.
  rewrite (parse_of_feeds _ (feeds_all (form_value form) eq_refl)
             (parses_all (form_value form) eq_refl)).
  destruct form as [topic tone length platform voice callToAction audience
                    brandColor autopilot].
  cbn [form_value member to_json Form.topic Form.tone Form.length Form.platform
       Form.voice Form.callToAction Form.audience Form.brandColor Form.autopilot].
  unfold ReelRequestSchema_parse, field.
  change (get (lit "topic") _) with (Some (JStr topic)).
  change (get (lit "platform") _) with (Some (JStr platform)).
  change (get (lit "tone") _) with (Some (JStr tone)).
  change (get (lit "length") _) with (Some (JStr length)).
  change (get (lit "voice") _) with (Some (JStr voice)).
  change (get (lit "callToAction") _) with (Some (JStr callToAction)).
  change (get (lit "audience") _) with (Some (JStr audience)).
  change (get (lit "autopilot") _) with (Some (JBool autopilot)).
  change (get (lit "brandColor") _) with (Some (JStr brandColor)).
  cbn [z_default z_optional z_string z_boolean issues_of app].
  unfold z_string_min, z_string.
  destruct (Nat.ltb_spec (Datatypes.length topic) 3) as [Hshort | Hlong].
  - split; [exact Hshort | reflexivity].
  - split; [exact Hlong | reflexivity].
Qed.

(* ===================================================================== *)
(** ** The further properties at concrete inputs *)
(* ===================================================================== *)

(** Two status lines, in two reads cut at the line feeds and in two reads cut
    inside the first line, the second run started from a state with an error
    left. *)
Lemma handleGenerate_ignores_chunking_witness :
  handleGenerate no_number no_key initial
    (body [briefing_line ++ [line_feed]; ideation_line ++ [line_feed]] done)
  = handleGenerate no_number no_key (setError (Some type_error_message) initial)
      (body [firstn 12 briefing_line;
             skipn 12 briefing_line ++ [line_feed] ++ ideation_line ++ [line_feed]]
         done).
Proof.
  apply (handleGenerate_ignores_chunking no_number no_key).
  vm_compute. reflexivity.
Defined.

(** One complete status line followed by the start of another. *)
Lemma unterminated_tail_is_never_parsed_witness :
  handleGenerate no_number no_key initial
    (body [briefing_line ++ [line_feed] ++ firstn 7 ideation_line] done)
  = handleGenerate no_number no_key initial (body [unlines [briefing_line]] done)
  /\ handleGenerate no_number no_key initial
       (body [briefing_line ++ [line_feed] ++ firstn 7 ideation_line] done)
     = settle (after_reads done
                 (process_lines no_number no_key (reset initial) [briefing_line])).
Proof.
  apply (unterminated_tail_is_never_parsed no_number no_key initial
           [briefing_line ++ [line_feed] ++ firstn 7 ideation_line] done
           [briefing_line] (firstn 7 ideation_line)).
  - repeat constructor. apply no_line_feed_check. vm_compute. reflexivity.
  - apply no_line_feed_check. vm_compute. reflexivity.
  - vm_compute. reflexivity.
Defined.

(** A read rejected after one status line. *)
Lemma rejected_read_keeps_partial_state_witness :
  handleGenerate no_number no_key initial
    (body [briefing_line ++ [line_feed]] (read_rejected (Error (lit "network error"))))
  = setIsGenerating false
      (setError (Some (catch_message (Error (lit "network error"))))
         (state_of (process_lines no_number no_key (reset initial) [briefing_line]))).
Proof.
  apply (rejected_read_keeps_partial_state no_number no_key initial
           (state_of (process_lines no_number no_key (reset initial) [briefing_line]))).
  vm_compute. reflexivity.
Defined.

(** The first status event applied to the initial state. *)
Lemma progress_is_running_maximum_until_result_witness :
  (type_is briefing_payload "result" = true ->
     progress (apply_payload no_number no_key initial briefing_payload) = one)
  /\ (type_is briefing_payload "result" = false ->
        (forall b, get (lit "progress") briefing_payload = Some (JNum b) ->
           exists r,
             progress (apply_payload no_number no_key initial briefing_payload) = Num r
             /\ (r = Decimal 0 0 \/ r = b)
             /\ decimal_leb (Decimal 0 0) r = true /\ decimal_leb b r = true)
        /\ (get (lit "progress") briefing_payload = None
            \/ get (lit "progress") briefing_payload = Some JNull ->
            progress (apply_payload no_number no_key initial briefing_payload)
            = progress initial)).
Proof.
  apply (progress_is_running_maximum_until_result no_number no_key initial
           briefing_payload (Decimal 0 0)).
  reflexivity.
Defined.

(** A body that gives the topic only. *)
Lemma omitted_length_means_thirty_witness :
  Brief.length (brief_of (JObj [(lit "topic", JStr (lit "AI studio launch"))])) = lit "30"
  /\ targetDuration (brief_of (JObj [(lit "topic", JStr (lit "AI studio launch"))])) = 30.
Proof.
  apply (omitted_length_means_thirty
           (JObj [(lit "topic", JStr (lit "AI studio launch"))])).
  - vm_compute. reflexivity.
  - vm_compute. reflexivity.
Defined.

(** The timeline of the scenario, 45 seconds. *)
Lemma buildTimeline_durations_in_range_witness :
  List.map Segment.duration
    (buildTimeline (lit "AI studio launch") 45 (lit "cinematic") (lit "tiktok"))
  = [8; 10; 9; 9; 9]
  /\ 3 <= 9
  /\ (exists s,
        last (buildTimeline (lit "AI studio launch") 45 (lit "cinematic") (lit "tiktok"))
        = Some s
        /\ segment_end s = 45).
Proof.
  apply (buildTimeline_durations_in_range (lit "AI studio launch") (lit "cinematic")
           (lit "tiktok") 45).
  lia.
Defined.

Lemma totalDuration_of_route_timeline_witness :
  exists tl final,
    In (Route.timeline tl) (eventSequence scenario_brief)
    /\ In (Route.result final) (eventSequence scenario_brief)
    /\ totalDuration (Timeline.segments tl) = targetDuration scenario_brief
    /\ Deliverables.duration (Result.deliverables final) = targetDuration scenario_brief.
Proof.
  do 2 eexists.
  split; [do 4 right; left; reflexivity|].
  split; [do 9 right; left; reflexivity|].
  apply (totalDuration_of_route_timeline scenario_brief).
  - do 4 right. left. reflexivity.
  - do 9 right. left. reflexivity.
Defined.

(** A value with a double, a text that holds a line feed and a quote, a
    property that is undefined and a negative integer. *)
Lemma JSON_parse_stringify_witness :
  JSON_parse
    (JSON_stringify
       (VArr [VDouble 0.5; VStr [10%N; 34%N]; VNull;
              VObj [(lit "gone", None); (lit "n", Some (VInt (-7)))]]))
  = Some (to_json
            (VArr [VDouble 0.5; VStr [10%N; 34%N]; VNull;
                   VObj [(lit "gone", None); (lit "n", Some (VInt (-7)))]])).
Proof.
  apply JSON_parse_stringify. vm_compute. reflexivity.
Defined.

(** One status event, its line cut in two reads. *)
Lemma stream_delivers_events_witness :
  handleGenerate no_number no_key initial
    (body [firstn 30 (enqueued [Route.status
                                  (Status.Make (lit "briefing") (lit "Creative Brief Intake")
                                     (lit "Director AI") (lit "Synced.") 0.5 90)]);
           skipn 30 (enqueued [Route.status
                                 (Status.Make (lit "briefing") (lit "Creative Brief Intake")
                                    (lit "Director AI") (lit "Synced.") 0.5 90)])]
       done)
  = settle (after_reads done
              (normal
                 (fold_left (apply_payload no_number no_key)
                    (List.map received
                       [Route.status
                          (Status.Make (lit "briefing") (lit "Creative Brief Intake")
                             (lit "Director AI") (lit "Synced.") 0.5 90)])
                    (reset initial)))).
Proof.
  apply (stream_delivers_events no_number no_key).
  - repeat constructor.
  - vm_compute. reflexivity.
Defined.

(** The brief of the scenario, its stream received in one read. *)
Lemma valid_brief_fills_the_page_witness :
  let final :=
    handleGenerate no_number no_key initial
      (body [enqueued (eventSequence scenario_brief)] done) in
  statusFeed final
  = List.map received (List.filter (of_type "status") (eventSequence scenario_brief))
  /\ (forall a, In (Route.asset a) (eventSequence scenario_brief) ->
        assetVault final !! Asset.artifact a = Some (received (Route.asset a)))
  /\ (exists tl, In (Route.timeline tl) (eventSequence scenario_brief)
        /\ segments final
           = Some (to_json (VArr (List.map segment_value (Timeline.segments tl)))))
  /\ (exists r, last (eventSequence scenario_brief) = Some (Route.result r)
        /\ Page.result final
           = Some (to_json (deliverables_value (Result.deliverables r))))
  /\ progress final = one
  /\ isGenerating final = false
  /\ error final = None.
Proof.
  apply (valid_brief_fills_the_page no_number no_key initial scenario_brief).
  apply List.app_nil_r.
Defined.

(** The body of a 400 response, received in one read. *)
Lemma rejected_request_shows_no_error_witness :
  handleGenerate no_number no_key initial
    (body [bad_request_body (lit "Invalid request payload") (lit "Required")] done)
  = initial.
Proof.
  apply (rejected_request_shows_no_error no_number no_key initial
           (lit "Invalid request payload") (lit "Required")).
  apply List.app_nil_r.
Defined.


(** A target of five seconds: the timeline runs to fifteen. *)
Lemma buildTimeline_never_ends_early_witness :
  (exists s,
     last (buildTimeline (lit "AI studio launch") 5 (lit "cinematic") (lit "tiktok"))
     = Some s
     /\ 5 <= segment_end s
     /\ 15 <= segment_end s)
  /\ List.Forall
       (fun s => 0 <= Segment.start s /\ 3 <= Segment.duration s
                 /\ segment_end s < 2 ^ 53)
       (buildTimeline (lit "AI studio launch") 5 (lit "cinematic") (lit "tiktok")).
Proof.
  apply (buildTimeline_never_ends_early (lit "AI studio launch") (lit "cinematic")
           (lit "tiktok") 5).
  vm_compute. discriminate.
Defined.

(** The timeline of the scenario. *)
Lemma totalDuration_is_largest_end_witness :
  let segments :=
    buildTimeline (lit "AI studio launch") 45 (lit "cinematic") (lit "tiktok") in
  0 <= totalDuration segments
  /\ (forall s, In s segments -> segment_end s <= totalDuration segments)
  /\ (totalDuration segments = 0
      \/ exists s, In s segments /\ totalDuration segments = segment_end s)
  /\ (forall s, In s segments -> shown_end segments s = segment_end s)
  /\ Z.abs (totalDuration segments) <= 2 ^ 53.
Proof.
  apply (totalDuration_is_largest_end
           (buildTimeline (lit "AI studio launch") 45 (lit "cinematic") (lit "tiktok"))).
  repeat constructor; vm_compute; discriminate.
Defined.
